(** * A shallow embedding of the python-nes-emulation 6502 core

    The development follows the Python sources module by module:
    [byte_math.py], [ppu.py], [opcodes6502.py], [cpu_helper.py] and the three
    classes of [cpu.py] ([Memory], [Flag], [CPU]).  Python integers are
    unbounded, so every integer is a [Z] and each masking or wrap-around of
    the source ([% 0x100], [& 0xFF], ...) is written where the source has it
    and nowhere else. *)

From Stdlib Require Import ZArith List Bool Lia Permutation.
Import ListNotations.
Open Scope Z_scope.

(** ** Python values and exceptions *)

(** The exceptions the interpreter can raise.  [main.py] catches none of
    them, so a raise ends the emulation: the partially updated state of the
    failing call is never observed. *)
Inductive exn : Type :=
| IndexError          (* bytearray index out of range *)
| TypeError           (* arithmetic or comparison on None *)
| AttributeError      (* self.ppu is None *)
| UnboundLocalError   (* [data] never assigned in a handler *)
| InvalidOpcode       (* CPU::get_instruction_at: not a valid opcode *)
| NotImplemented      (* CPU.instruction_not_implemented *)
| StackFull           (* CPU::stack_push: Stack is full *)
| StackEmpty          (* CPU::stack_pop: Stack is empty *)
| Die                 (* raise Exception("die") on BRK in CPU.run *)
| NMIRaised.          (* raise Exception("") at the end of CPU.handle_nmi *)

Inductive res (A : Type) : Type :=
| Ok (a : A)
| Raise (e : exn).
Arguments Ok {A} a.
Arguments Raise {A} e.

(** What [Memory.read] can return: an integer, or Python's [None] when
    [PPU.handle_read] falls off its only [if]. *)
Inductive pyval : Type :=
| PInt (z : Z)
| PNone.

(** ** byte_math.py *)

Definition signed_byte_to_int (byte byte_len : Z) : Z :=
  let mask := 2 ^ (byte_len - 1) in
  - (Z.land byte mask) + Z.land byte (Z.lnot mask).

(** ** ppu.py *)

Definition REGISTERS : list Z :=
  [0x2000; 0x2001; 0x2002; 0x2003; 0x2004; 0x2005; 0x2006; 0x2007; 0x4014].
Definition SCANLINES_PER_FRAME : Z := 262.
Definition CYCLES_PER_SCANLINE : Z := 341.
Definition CYCLES_PER_FRAME : Z := CYCLES_PER_SCANLINE * SCANLINES_PER_FRAME.
Definition CYCLE_POSTRENDER : Z := 240 * CYCLES_PER_SCANLINE.
Definition CYCLE_VBLANK : Z := 241 * CYCLES_PER_SCANLINE.

Record PPU : Type := mkPPU {
  ppu_control : Z;   (* PPUCTRL *)
  ppu_mask : Z;      (* PPUMASK *)
  ppu_status : Z;    (* PPUSTATUS *)
  ppu_cycles : Z
}.

(** [PPU()]: the class attributes. *)
Definition PPU_new : PPU := mkPPU 0x00 0x00 0x00 0.

Definition PPU_handle_read (p : PPU) (addr : Z) : pyval :=
  if addr =? 0x2002 then PInt (ppu_status p) else PNone.

Definition PPU_handle_write (p : PPU) (addr data : Z) : PPU :=
  if addr =? 0x2000 then mkPPU data (ppu_mask p) (ppu_status p) (ppu_cycles p)
  else if addr =? 0x2001 then mkPPU (ppu_control p) data (ppu_status p) (ppu_cycles p)
  else p.

(** ** cpu.py, class Memory *)

(** [mem] is the [bytearray] of length [0x10000] ([Memory.__init__] raises on
    any other length), kept as its contents at the indices [0 .. 0xFFFF].
    The [ppu] attribute refers to the very object the CPU owns; it is passed
    to [read] and [write] explicitly ([None] before [_set_ppu]) so that the
    PPU is stored once. *)
Record Memory : Type := mkMemory {
  mem : Z -> Z;
  is_mirror : bool
}.

Definition MEM_LEN : Z := 0xFFFF + 1.

(** Python indexing of a sequence of length [MEM_LEN]: negative indices
    count from the end, anything else out of range raises [IndexError]. *)
Definition py_index (i : Z) : res Z :=
  if (0 <=? i) && (i <? MEM_LEN) then Ok i
  else if (- MEM_LEN <=? i) && (i <? 0) then Ok (i + MEM_LEN)
  else Raise IndexError.

Definition mem_update (f : Z -> Z) (i v : Z) : Z -> Z :=
  fun j => if j =? i then v else f j.

Definition page_num (addr : Z) : Z := addr / 0xFF.

Definition map_byte (m : Memory) (byte : Z) : Z :=
  if (0 <=? byte) && (byte <=? 0x1FFF) then byte mod 0x0800
  else if (0x2000 <=? byte) && (byte <=? 0x3FFF) then ((byte - 0x2000) mod 0x08) + 0x2000
  else if is_mirror m && (0xC000 <=? byte) && (byte <=? 0xFFFF) then byte - 0x4000
  else byte.

Definition in_registers (a : Z) : bool := existsb (Z.eqb a) REGISTERS.

Definition Memory_read (m : Memory) (ppu : option PPU) (byte : Z) : res pyval :=
  let mapped := map_byte m byte in
  if in_registers mapped then
    match ppu with
    | Some p => Ok (PPU_handle_read p byte)
    | None => Raise AttributeError
    end
  else
    match py_index mapped with
    | Ok i => Ok (PInt (mem m i))
    | Raise e => Raise e
    end.

Definition Memory_write (m : Memory) (ppu : option PPU) (byte data : Z)
  : res (Memory * option PPU) :=
  if 0x8000 <=? byte then Ok (m, ppu)   (* diagnostic print, then return *)
  else
    let mapped := map_byte m byte in
    if in_registers mapped then
      match ppu with
      | Some p => Ok (m, Some (PPU_handle_write p byte data))
      | None => Raise AttributeError
      end
    else
      match py_index mapped with
      | Ok i => Ok (mkMemory (mem_update (mem m) i (data mod 0x100)) (is_mirror m), ppu)
      | Raise e => Raise e
      end.

(** ** cpu.py, class Flag *)

Definition Flag_N : Z := 128.
Definition Flag_V : Z := 64.
Definition Flag__ : Z := 32.
Definition Flag_B : Z := 16.
Definition Flag_D : Z := 8.
Definition Flag_I : Z := 4.
Definition Flag_Z : Z := 2.
Definition Flag_C : Z := 1.

Definition INIT_FLAGS : list Z := [Flag__; Flag_I].
Definition VALUES : list Z :=
  [Flag_N; Flag_V; Flag__; Flag_B; Flag_D; Flag_I; Flag_Z; Flag_C].

(** [enabled_flags] is a Python list of the set flags' values. *)
Definition Flag := list Z.

(** [Flag()]: the class has no [__init__], and
    [enabled_flags = INIT_FLAGS[:]] is a statement of the class body, run
    once: the list is an attribute of the class.  A new instance has no
    [enabled_flags] of its own, so its [self.enabled_flags] is the class's
    list, with whatever that list holds when the instance is made ([set]
    and [clear] mutate it in place; only [set_byte] assigns the instance a
    list of its own).  The argument is what [Flag.enabled_flags] holds at
    that moment. *)
Definition Flag_new (enabled_flags : Flag) : Flag := enabled_flags.

Definition Flag_get_byte (f : Flag) : Z := fold_right Z.add 0 f.

Definition Flag_isset (f : Flag) (flag : Z) : bool := existsb (Z.eqb flag) f.

(** [list.remove]: drops the first occurrence. *)
Fixpoint list_remove (v : Z) (l : list Z) : list Z :=
  match l with
  | [] => []
  | h :: t => if h =? v then t else h :: list_remove v t
  end.

Definition Flag_set (f : Flag) (flag : Z) : Flag * bool :=
  if negb (Flag_isset f flag) then (f ++ [flag], true) else (f, false).

Definition Flag_clear (f : Flag) (flag : Z) : Flag * bool :=
  if Flag_isset f flag then (list_remove flag f, true) else (f, false).

Definition Flag_toggle (f : Flag) (flag : Z) : Flag * bool :=
  if Flag_isset f flag then Flag_clear f flag else Flag_set f flag.

(** Python truth of an integer. *)
Definition truthy (z : Z) : bool := negb (z =? 0).

Definition set_if (c : bool) (f : Flag) (flag : Z) : Flag :=
  if c then fst (Flag_set f flag) else f.

Definition Flag_set_byte (byte : Z) : Flag :=
  let f := INIT_FLAGS in
  let f := set_if (truthy (Z.land byte Flag_N)) f Flag_N in
  let f := set_if (truthy (Z.land byte Flag_V)) f Flag_V in
  let f := set_if (truthy (Z.land byte Flag__)) f Flag__ in
  let f := set_if (truthy (Z.land byte Flag_B)) f Flag_B in
  let f := set_if (truthy (Z.land byte Flag_D)) f Flag_D in
  let f := set_if (truthy (Z.land byte Flag_I)) f Flag_I in
  let f := set_if (truthy (Z.land byte Flag_Z)) f Flag_Z in
  let f := set_if (truthy (Z.land byte Flag_C)) f Flag_C in
  f.

(** ** cpu.py, class CPU: the state *)

Record CPU : Type := mkCPU {
  cpu_sp : Z;
  cpu_pc : Z;
  cpu_acc : Z;
  cpu_x : Z;
  cpu_y : Z;
  cpu_cycles : Z;
  cpu_mem : Memory;
  cpu_flag : Flag;
  cpu_ppu : PPU
}.

Definition set_sp (v : Z) (s : CPU) : CPU :=
  mkCPU v (cpu_pc s) (cpu_acc s) (cpu_x s) (cpu_y s) (cpu_cycles s) (cpu_mem s) (cpu_flag s) (cpu_ppu s).
Definition set_pc (v : Z) (s : CPU) : CPU :=
  mkCPU (cpu_sp s) v (cpu_acc s) (cpu_x s) (cpu_y s) (cpu_cycles s) (cpu_mem s) (cpu_flag s) (cpu_ppu s).
Definition set_acc (v : Z) (s : CPU) : CPU :=
  mkCPU (cpu_sp s) (cpu_pc s) v (cpu_x s) (cpu_y s) (cpu_cycles s) (cpu_mem s) (cpu_flag s) (cpu_ppu s).
Definition set_x (v : Z) (s : CPU) : CPU :=
  mkCPU (cpu_sp s) (cpu_pc s) (cpu_acc s) v (cpu_y s) (cpu_cycles s) (cpu_mem s) (cpu_flag s) (cpu_ppu s).
Definition set_y (v : Z) (s : CPU) : CPU :=
  mkCPU (cpu_sp s) (cpu_pc s) (cpu_acc s) (cpu_x s) v (cpu_cycles s) (cpu_mem s) (cpu_flag s) (cpu_ppu s).
Definition set_cycles (v : Z) (s : CPU) : CPU :=
  mkCPU (cpu_sp s) (cpu_pc s) (cpu_acc s) (cpu_x s) (cpu_y s) v (cpu_mem s) (cpu_flag s) (cpu_ppu s).
Definition set_mem (v : Memory) (s : CPU) : CPU :=
  mkCPU (cpu_sp s) (cpu_pc s) (cpu_acc s) (cpu_x s) (cpu_y s) (cpu_cycles s) v (cpu_flag s) (cpu_ppu s).
Definition set_flag (v : Flag) (s : CPU) : CPU :=
  mkCPU (cpu_sp s) (cpu_pc s) (cpu_acc s) (cpu_x s) (cpu_y s) (cpu_cycles s) (cpu_mem s) v (cpu_ppu s).
Definition set_ppu (v : PPU) (s : CPU) : CPU :=
  mkCPU (cpu_sp s) (cpu_pc s) (cpu_acc s) (cpu_x s) (cpu_y s) (cpu_cycles s) (cpu_mem s) (cpu_flag s) v.

(** ** The monad of CPU methods: state passing with exceptions *)

Definition M (A : Type) : Type := CPU -> res (A * CPU).

Definition ret {A} (a : A) : M A := fun s => Ok (a, s).
Definition bind {A B} (m : M A) (k : A -> M B) : M B :=
  fun s => match m s with
           | Ok (a, s') => k a s'
           | Raise e => Raise e
           end.
Definition raise {A} (e : exn) : M A := fun _ => Raise e.
Definition gets {A} (f : CPU -> A) : M A := fun s => Ok (f s, s).
Definition modify (f : CPU -> CPU) : M unit := fun s => Ok (tt, f s).

Notation "x <- m ;; k" := (bind m (fun x => k))
  (at level 61, m at next level, right associativity).
Notation "m ;;; k" := (bind m (fun _ => k))
  (at level 61, right associativity).
Notation "'when' c 'then' m" := (if c then m else ret tt)
  (at level 60, c at level 9, m at level 60).

(** [self.mem.read(a)] and [self.mem.write(a, d)] from inside the CPU: the
    memory's [ppu] is the CPU's own PPU object. *)
Definition mem_read (a : Z) : M pyval :=
  fun s => match Memory_read (cpu_mem s) (Some (cpu_ppu s)) a with
           | Ok v => Ok (v, s)
           | Raise e => Raise e
           end.

(** A value read from the bus and then used as a number: every handler
    uses each value it reads in arithmetic or in an ordering comparison, and
    on [None] that raises [TypeError]. *)
Definition mem_read_int (a : Z) : M Z :=
  v <- mem_read a ;;
  match v with
  | PInt z => ret z
  | PNone => raise TypeError
  end.

Definition mem_write (a d : Z) : M unit :=
  fun s => match Memory_write (cpu_mem s) (Some (cpu_ppu s)) a d with
           | Ok (m', Some p') => Ok (tt, set_ppu p' (set_mem m' s))
           | Ok (m', None) => Ok (tt, set_mem m' s)
           | Raise e => Raise e
           end.

Definition flag_isset (flag : Z) : M bool :=
  gets (fun s => Flag_isset (cpu_flag s) flag).
Definition flag_set (flag : Z) : M unit :=
  modify (fun s => set_flag (fst (Flag_set (cpu_flag s) flag)) s).
Definition flag_clear (flag : Z) : M unit :=
  modify (fun s => set_flag (fst (Flag_clear (cpu_flag s) flag)) s).
Definition flag_set_byte (byte : Z) : M unit :=
  modify (set_flag (Flag_set_byte byte)).
Definition flag_get_byte : M Z :=
  gets (fun s => Flag_get_byte (cpu_flag s)).

(** ** opcodes6502.py *)

Inductive mnemonic : Type :=
| ADC | AND | ASL | BIT | BPL | BMI | BVC | BVS | BCC | BCS | BNE | BEQ | BRK
| CMP | CPX | CPY | DEC | EOR | CLC | SEC | CLI | SEI | CLV | CLD | SED | INC
| JMP | JSR | LDA | LDX | LDY | LSR | NOP | ORA | TAX | TXA | DEX | INX | TAY
| TYA | DEY | INY | ROL | ROR | RTI | RTS | SBC | STA | TXS | TSX | PHA | PLA
| PHP | PLP | STX | STY | iSLO | iRLA | iSRE | iRRA | iSAX | iLAX | iDCP |
iISC | iANC | iALR | iARR | iSBX | iSBC | iLAS | iNOP | iJAM.
(** An entry of the table: [(Mnemonic, Length, Cycles, Additional cycles if
    page boundary crossed)], read in the source as [instr[0]] .. [instr[3]]. *)
Record Instr : Type := mkInstr {
  instr0 : mnemonic;
  instr1 : Z;
  instr2 : Z;
  instr3 : Z
}.


Definition opcodes : list (Z * Instr) :=
  [(0x69, mkInstr ADC 2 2 0); (0x65, mkInstr ADC 2 3 0); (0x75, mkInstr ADC 2 4 0);
   (0x6D, mkInstr ADC 3 4 0); (0x7D, mkInstr ADC 3 4 1); (0x79, mkInstr ADC 3 4 1);
   (0x61, mkInstr ADC 2 6 0); (0x71, mkInstr ADC 2 5 1); (0x29, mkInstr AND 2 2 0);
   (0x25, mkInstr AND 2 3 0); (0x35, mkInstr AND 2 4 0); (0x2D, mkInstr AND 3 4 0);
   (0x3D, mkInstr AND 3 4 1); (0x39, mkInstr AND 3 4 1); (0x21, mkInstr AND 2 6 0);
   (0x31, mkInstr AND 2 5 1); (0x0A, mkInstr ASL 1 2 0); (0x06, mkInstr ASL 2 5 0);
   (0x16, mkInstr ASL 2 6 0); (0x0E, mkInstr ASL 3 6 0); (0x1E, mkInstr ASL 3 7 0);
   (0x24, mkInstr BIT 2 3 0); (0x2C, mkInstr BIT 3 4 0); (0x10, mkInstr BPL 2 2 1);
   (0x30, mkInstr BMI 2 2 1); (0x50, mkInstr BVC 2 2 1); (0x70, mkInstr BVS 2 2 1);
   (0x90, mkInstr BCC 2 2 1); (0xB0, mkInstr BCS 2 2 1); (0xD0, mkInstr BNE 2 2 1);
   (0xF0, mkInstr BEQ 2 2 1); (0x00, mkInstr BRK 1 7 0); (0xC9, mkInstr CMP 2 2 0);
   (0xC5, mkInstr CMP 2 3 0); (0xD5, mkInstr CMP 2 4 0); (0xCD, mkInstr CMP 3 4 0);
   (0xDD, mkInstr CMP 3 4 1); (0xD9, mkInstr CMP 3 4 1); (0xC1, mkInstr CMP 2 6 0);
   (0xD1, mkInstr CMP 2 5 1); (0xE0, mkInstr CPX 2 2 0); (0xE4, mkInstr CPX 2 3 0);
   (0xEC, mkInstr CPX 3 4 0); (0xC0, mkInstr CPY 2 2 0); (0xC4, mkInstr CPY 2 3 0);
   (0xCC, mkInstr CPY 3 4 0); (0xC6, mkInstr DEC 2 5 0); (0xD6, mkInstr DEC 2 6 0);
   (0xCE, mkInstr DEC 3 6 0); (0xDE, mkInstr DEC 3 7 0); (0x49, mkInstr EOR 2 2 0);
   (0x45, mkInstr EOR 2 3 0); (0x55, mkInstr EOR 2 4 0); (0x4D, mkInstr EOR 3 4 0);
   (0x5D, mkInstr EOR 3 4 1); (0x59, mkInstr EOR 3 4 1); (0x41, mkInstr EOR 2 6 0);
   (0x51, mkInstr EOR 2 5 1); (0x18, mkInstr CLC 1 2 0); (0x38, mkInstr SEC 1 2 0);
   (0x58, mkInstr CLI 1 2 0); (0x78, mkInstr SEI 1 2 0); (0xB8, mkInstr CLV 1 2 0);
   (0xD8, mkInstr CLD 1 2 0); (0xF8, mkInstr SED 1 2 0); (0xE6, mkInstr INC 2 5 0);
   (0xF6, mkInstr INC 2 6 0); (0xEE, mkInstr INC 3 6 0); (0xFE, mkInstr INC 3 7 0);
   (0x4C, mkInstr JMP 3 3 0); (0x6C, mkInstr JMP 3 5 0); (0x20, mkInstr JSR 3 6 0);
   (0xA9, mkInstr LDA 2 2 0); (0xA5, mkInstr LDA 2 3 0); (0xB5, mkInstr LDA 2 4 0);
   (0xAD, mkInstr LDA 3 4 0); (0xBD, mkInstr LDA 3 4 1); (0xB9, mkInstr LDA 3 4 1);
   (0xA1, mkInstr LDA 2 6 0); (0xB1, mkInstr LDA 2 5 1); (0xA2, mkInstr LDX 2 2 0);
   (0xA6, mkInstr LDX 2 3 0); (0xB6, mkInstr LDX 2 4 0); (0xAE, mkInstr LDX 3 4 0);
   (0xBE, mkInstr LDX 3 4 1); (0xA0, mkInstr LDY 2 2 0); (0xA4, mkInstr LDY 2 3 0);
   (0xB4, mkInstr LDY 2 4 0); (0xAC, mkInstr LDY 3 4 0); (0xBC, mkInstr LDY 3 4 1);
   (0x4A, mkInstr LSR 1 2 0); (0x46, mkInstr LSR 2 5 0); (0x56, mkInstr LSR 2 6 0);
   (0x4E, mkInstr LSR 3 6 0); (0x5E, mkInstr LSR 3 7 0); (0xEA, mkInstr NOP 1 2 0);
   (0x09, mkInstr ORA 2 2 0); (0x05, mkInstr ORA 2 3 0); (0x15, mkInstr ORA 2 4 0);
   (0x0D, mkInstr ORA 3 4 0); (0x1D, mkInstr ORA 3 4 1); (0x19, mkInstr ORA 3 4 1);
   (0x01, mkInstr ORA 2 6 0); (0x11, mkInstr ORA 2 5 1); (0xAA, mkInstr TAX 1 2 0);
   (0x8A, mkInstr TXA 1 2 0); (0xCA, mkInstr DEX 1 2 0); (0xE8, mkInstr INX 1 2 0);
   (0xA8, mkInstr TAY 1 2 0); (0x98, mkInstr TYA 1 2 0); (0x88, mkInstr DEY 1 2 0);
   (0xC8, mkInstr INY 1 2 0); (0x2A, mkInstr ROL 1 2 0); (0x26, mkInstr ROL 2 5 0);
   (0x36, mkInstr ROL 2 6 0); (0x2E, mkInstr ROL 3 6 0); (0x3E, mkInstr ROL 3 7 0);
   (0x6A, mkInstr ROR 1 2 0); (0x66, mkInstr ROR 2 5 0); (0x76, mkInstr ROR 2 6 0);
   (0x6E, mkInstr ROR 3 6 0); (0x7E, mkInstr ROR 3 7 0); (0x40, mkInstr RTI 1 6 0);
   (0x60, mkInstr RTS 1 6 0); (0xE9, mkInstr SBC 2 2 0); (0xE5, mkInstr SBC 2 3 0);
   (0xF5, mkInstr SBC 2 4 0); (0xED, mkInstr SBC 3 4 0); (0xFD, mkInstr SBC 3 4 1);
   (0xF9, mkInstr SBC 3 4 1); (0xE1, mkInstr SBC 2 6 0); (0xF1, mkInstr SBC 2 5 1);
   (0x85, mkInstr STA 2 3 0); (0x95, mkInstr STA 2 4 0); (0x8D, mkInstr STA 3 4 0);
   (0x9D, mkInstr STA 3 5 0); (0x99, mkInstr STA 3 5 0); (0x81, mkInstr STA 2 6 0);
   (0x91, mkInstr STA 2 6 0); (0x9A, mkInstr TXS 1 2 0); (0xBA, mkInstr TSX 1 2 0);
   (0x48, mkInstr PHA 1 3 0); (0x68, mkInstr PLA 1 4 0); (0x08, mkInstr PHP 1 3 0);
   (0x28, mkInstr PLP 1 4 0); (0x86, mkInstr STX 2 3 0); (0x96, mkInstr STX 2 4 0);
   (0x8E, mkInstr STX 3 4 0); (0x84, mkInstr STY 2 3 0); (0x94, mkInstr STY 2 4 0);
   (0x8C, mkInstr STY 3 4 0); (0x07, mkInstr iSLO 2 5 0); (0x17, mkInstr iSLO 2 6 0);
   (0x03, mkInstr iSLO 2 8 0); (0x13, mkInstr iSLO 2 8 0); (0x0F, mkInstr iSLO 3 6 0);
   (0x1F, mkInstr iSLO 3 7 0); (0x1B, mkInstr iSLO 3 7 0); (0x27, mkInstr iRLA 2 5 0);
   (0x37, mkInstr iRLA 2 6 0); (0x23, mkInstr iRLA 2 8 0); (0x33, mkInstr iRLA 2 8 0);
   (0x2F, mkInstr iRLA 3 6 0); (0x3F, mkInstr iRLA 3 7 0); (0x3B, mkInstr iRLA 3 7 0);
   (0x47, mkInstr iSRE 2 5 0); (0x57, mkInstr iSRE 2 6 0); (0x43, mkInstr iSRE 2 8 0);
   (0x53, mkInstr iSRE 2 8 0); (0x4F, mkInstr iSRE 3 6 0); (0x5F, mkInstr iSRE 3 7 0);
   (0x5B, mkInstr iSRE 3 7 0); (0x67, mkInstr iRRA 2 5 0); (0x77, mkInstr iRRA 2 6 0);
   (0x63, mkInstr iRRA 2 8 0); (0x73, mkInstr iRRA 2 8 0); (0x6F, mkInstr iRRA 3 6 0);
   (0x7F, mkInstr iRRA 3 7 0); (0x7B, mkInstr iRRA 3 7 0); (0x87, mkInstr iSAX 2 3 0);
   (0x97, mkInstr iSAX 2 4 0); (0x83, mkInstr iSAX 2 6 0); (0x8F, mkInstr iSAX 3 4 0);
   (0xA7, mkInstr iLAX 2 3 0); (0xB7, mkInstr iLAX 2 4 0); (0xA3, mkInstr iLAX 2 6 0);
   (0xB3, mkInstr iLAX 2 5 1); (0xAF, mkInstr iLAX 3 4 0); (0xBF, mkInstr iLAX 3 4 1);
   (0xC7, mkInstr iDCP 2 5 0); (0xD7, mkInstr iDCP 2 6 0); (0xC3, mkInstr iDCP 2 8 0);
   (0xD3, mkInstr iDCP 2 8 0); (0xCF, mkInstr iDCP 3 6 0); (0xDF, mkInstr iDCP 3 7 0);
   (0xDB, mkInstr iDCP 3 7 0); (0xE7, mkInstr iISC 2 5 0); (0xF7, mkInstr iISC 2 6 0);
   (0xE3, mkInstr iISC 2 8 0); (0xF3, mkInstr iISC 2 8 0); (0xEF, mkInstr iISC 3 6 0);
   (0xFF, mkInstr iISC 3 7 0); (0xFB, mkInstr iISC 3 7 0); (0x0B, mkInstr iANC 2 2 0);
   (0x2B, mkInstr iANC 2 2 0); (0x4B, mkInstr iALR 2 2 0); (0x6B, mkInstr iARR 2 2 0);
   (0xCB, mkInstr iSBX 2 2 0); (0xEB, mkInstr iSBC 2 2 0); (0xBB, mkInstr iLAS 3 4 1);
   (0x1A, mkInstr iNOP 1 2 0); (0x3A, mkInstr iNOP 1 2 0); (0x5A, mkInstr iNOP 1 2 0);
   (0x7A, mkInstr iNOP 1 2 0); (0xDA, mkInstr iNOP 1 2 0); (0xFA, mkInstr iNOP 1 2 0);
   (0x80, mkInstr iNOP 2 2 0); (0x82, mkInstr iNOP 2 2 0); (0xC2, mkInstr iNOP 2 2 0);
   (0xE2, mkInstr iNOP 2 2 0); (0x89, mkInstr iNOP 2 2 0); (0x04, mkInstr iNOP 2 3 0);
   (0x44, mkInstr iNOP 2 3 0); (0x64, mkInstr iNOP 2 3 0); (0x14, mkInstr iNOP 2 4 0);
   (0x34, mkInstr iNOP 2 4 0); (0x54, mkInstr iNOP 2 4 0); (0x74, mkInstr iNOP 2 4 0);
   (0xD4, mkInstr iNOP 2 4 0); (0xF4, mkInstr iNOP 2 4 0); (0x0C, mkInstr iNOP 3 4 0);
   (0x1C, mkInstr iNOP 3 4 1); (0x3C, mkInstr iNOP 3 4 1); (0x5C, mkInstr iNOP 3 4 1);
   (0x7C, mkInstr iNOP 3 4 1); (0xDC, mkInstr iNOP 3 4 1); (0xFC, mkInstr iNOP 3 4 1);
   (0x02, mkInstr iJAM 1 0 0); (0x12, mkInstr iJAM 1 0 0); (0x22, mkInstr iJAM 1 0 0);
   (0x32, mkInstr iJAM 1 0 0); (0x42, mkInstr iJAM 1 0 0); (0x52, mkInstr iJAM 1 0 0);
   (0x62, mkInstr iJAM 1 0 0); (0x72, mkInstr iJAM 1 0 0); (0x92, mkInstr iJAM 1 0 0);
   (0xB2, mkInstr iJAM 1 0 0); (0xD2, mkInstr iJAM 1 0 0); (0xF2, mkInstr iJAM 1 0 0)].

(** [opcodes[byte]], with [None] for [byte not in opcodes]. *)
Fixpoint dict_get (d : list (Z * Instr)) (k : Z) : option Instr :=
  match d with
  | [] => None
  | (k', v) :: d' => if k' =? k then Some v else dict_get d' k
  end.

(** ** cpu_helper.py

    Each helper is a CPU-state computation because it calls [mem.read]. *)

Definition b2z (b : bool) : Z := if b then 1 else 0.

Definition imm (val : Z) : M Z := ret val.

Definition zp (addr : Z) : M Z := mem_read_int (addr mod 0x100).

Definition zpx (addr x : Z) : M Z := mem_read_int ((addr + x) mod 0x100).

Definition abs (addr : Z) : M Z := mem_read_int addr.

Definition absxy (addr x : Z) : M (Z * bool) :=
  let pc := (0xFF <? Z.land addr 0xFF + x) in
  d <- mem_read_int (addr + x) ;;
  ret (d, pc).

Definition indx (addr x : Z) : M Z :=
  let addr := addr + x in
  lower <- mem_read_int (addr mod 0x100) ;;
  upper <- mem_read_int ((addr + 1) mod 0x100) ;;
  let addr := Z.shiftl upper 8 + lower in
  mem_read_int addr.

Definition indy (addr y : Z) : M (Z * bool) :=
  lower <- mem_read_int (addr mod 0x100) ;;
  upper <- mem_read_int ((addr + 1) mod 0x100) ;;
  let addr := Z.shiftl upper 8 + lower in
  let addr := addr + y in
  let pc := (0xFF <? lower + y) in
  d <- mem_read_int addr ;;
  ret (d, pc).

(** ** cpu.py, class CPU: vectors, fetch and stack *)

Definition read_word (lo hi : Z) : M Z :=
  l <- mem_read_int lo ;;
  h <- mem_read_int hi ;;
  ret (l + Z.shiftl h 8).

Definition reset_vector : M Z := read_word 0xFFFC 0xFFFD.
Definition irq_vector : M Z := read_word 0xFFFE 0xFFFF.
Definition nmi_vector : M Z := read_word 0xFFFA 0xFFFB.

Definition get_current_pc_byte : M pyval :=
  pc <- gets cpu_pc ;; mem_read pc.

(** The byte at PC as a dictionary key: [None] is not in [opcodes]. *)
Definition get_instruction_at (loc : Z) : M Instr :=
  cur_byte <- get_current_pc_byte ;;
  match cur_byte with
  | PNone => raise InvalidOpcode
  | PInt b =>
      match dict_get opcodes b with
      | None => raise InvalidOpcode
      | Some i => ret i
      end
  end.

Definition get_current_instruction : M Instr :=
  pc <- gets cpu_pc ;; get_instruction_at pc.

Definition stack_push (val : Z) : M unit :=
  sp <- gets cpu_sp ;;
  if sp <? 0 then raise StackFull
  else
    mem_write (0x100 + sp) (val mod 0x100) ;;;
    modify (set_sp (sp - 1)).

Definition stack_pop : M Z :=
  sp <- gets cpu_sp ;;
  if sp =? 0xFF then raise StackEmpty
  else
    modify (set_sp (sp + 1)) ;;;
    mem_read_int (0x100 + (sp + 1)).

Definition handle_irq : M unit :=
  pc <- gets cpu_pc ;;
  stack_push (Z.shiftr pc 8) ;;;
  stack_push (Z.land pc 0xFF) ;;;
  p <- flag_get_byte ;;
  stack_push p ;;;
  v <- irq_vector ;;
  modify (set_pc v) ;;;
  c <- gets cpu_cycles ;;
  modify (set_cycles (c + 7)).

Definition handle_nmi : M unit :=
  pc <- gets cpu_pc ;;
  stack_push (Z.shiftr pc 8) ;;;
  stack_push (Z.land pc 0xFF) ;;;
  p <- flag_get_byte ;;
  stack_push p ;;;
  v <- nmi_vector ;;
  modify (set_pc v) ;;;
  c <- gets cpu_cycles ;;
  modify (set_cycles (c + 7)) ;;;
  raise NMIRaised.

(** ** ppu.py, PPU.run: one PPU cycle *)

Definition PPU_run : M unit :=
  p <- gets cpu_ppu ;;
  (if CYCLE_POSTRENDER <? ppu_cycles p mod CYCLES_PER_FRAME then
     (* Post render and VBlank *)
     modify (set_ppu (mkPPU (ppu_control p) (ppu_mask p)
                            (Z.lor (ppu_status p) 0x80) (ppu_cycles p))) ;;;
     when ((ppu_cycles p mod CYCLES_PER_FRAME =? CYCLE_VBLANK)
           && truthy (Z.land (ppu_control p) 0x80))
     then handle_nmi
   else
     modify (set_ppu (mkPPU (ppu_control p) (ppu_mask p)
                            (Z.land (ppu_status p) (Z.lnot 0x80)) (ppu_cycles p)))) ;;;
  p <- gets cpu_ppu ;;
  modify (set_ppu (mkPPU (ppu_control p) (ppu_mask p) (ppu_status p) (ppu_cycles p + 1))).

(** ** cpu.py, class CPU: the instruction handlers

    A handler receives the opcode [byte], its table entry [instr] and the
    operand [addr], updates the state and returns the new [(pc, cycles)],
    which [CPU.run] stores.  Where the source writes [self.acc += ...] and
    masks with [self.acc %= 0x100] a few lines later, the unmasked sum is
    kept in a local and the register is written once, masked: nothing reads
    the register in between. *)

(** [return self.pc + instr[1], self.cycles + instr[2]] *)
Definition ret_next (instr : Instr) : M (Z * Z) :=
  pc <- gets cpu_pc ;;
  c <- gets cpu_cycles ;;
  ret (pc + instr1 instr, c + instr2 instr).

(** [return self.pc + instr[1], self.cycles + instr[2] + instr[3] * pbc] *)
Definition ret_next_pbc (instr : Instr) (pbc : bool) : M (Z * Z) :=
  pc <- gets cpu_pc ;;
  c <- gets cpu_cycles ;;
  ret (pc + instr1 instr, c + instr2 instr + instr3 instr * b2z pbc).

(** [return self.pc + instr[1], self.cycles + instr[2] + instr[3] *
    (self.mem.page_num(self.pc) != self.mem.page_num(addr))] *)
Definition ret_next_page (instr : Instr) (addr : Z) : M (Z * Z) :=
  pc <- gets cpu_pc ;;
  ret_next_pbc instr (negb (page_num pc =? page_num addr)).

(** The three lines every indirect mode repeats:
    [lower = read(addr % 0x100); upper = read((addr + 1) % 0x100);
     addr = (upper << 8) + lower]. *)
Definition read_ptr (addr : Z) : M Z :=
  lower <- mem_read_int (addr mod 0x100) ;;
  upper <- mem_read_int ((addr + 1) mod 0x100) ;;
  ret (Z.shiftl upper 8 + lower).

(** The address prelude that AND, CMP, EOR, LDA, ORA, SBC and the illegal
    read-modify-write handlers each spell out with their own opcode bytes:
    add X (wrapping for zero page,X), add Y, indexed indirect, indirect
    indexed.  [absy] lists the opcodes of the "add y register" test. *)
Definition effective_addr (b_zpx b_absx b_indx : Z) (absy : list Z) (b_indy : Z)
  (byte addr : Z) : M Z :=
  x <- gets cpu_x ;;
  y <- gets cpu_y ;;
  let addr :=
    if (byte =? b_zpx) || (byte =? b_absx) || (byte =? b_indx) then
      let addr := addr + x in
      if byte =? b_zpx then addr mod 0x100 else addr
    else addr in
  let addr := if existsb (Z.eqb byte) absy then addr + y else addr in
  addr <- (if byte =? b_indx then read_ptr addr else ret addr) ;;
  addr <- (if byte =? b_indy then a <- read_ptr addr ;; ret (a + y) else ret addr) ;;
  ret addr.

(** The shorter prelude of ASL, DEC, INC, LSR, ROL, ROR, LDX and LDY: add
    one index register [r], wrapping for the zero-page opcode. *)
Definition index_addr (b_zp b_abs : Z) (r byte addr : Z) : Z :=
  if (byte =? b_zp) || (byte =? b_abs) then
    let addr := addr + r in
    if byte =? b_zp then addr mod 0x100 else addr
  else addr.

(** [v == 0] on a value that may be [None]: comparing [None] with [0] is
    [False] and does not raise. *)
Definition py_eq0 (v : pyval) : bool :=
  match v with PInt z => z =? 0 | PNone => false end.

Definition instruction_not_implemented (byte : Z) (instr : Instr) (addr : Z) : M (Z * Z) :=
  raise NotImplemented.

(** The tail shared by ADC and iRRA: add [data] and carry to A. *)
Definition adc_core (data : Z) : M unit :=
  old_acc <- gets cpu_acc ;;
  c <- flag_isset Flag_C ;;
  let acc := old_acc + (data + b2z c) in
  flag_clear Flag_N ;;;
  flag_clear Flag_Z ;;;
  flag_clear Flag_C ;;;
  flag_clear Flag_V ;;;
  when (truthy (Z.land (Z.land (Z.lxor old_acc acc) (Z.lxor data acc)) 0x80))
    then flag_set Flag_V ;;;
  when (256 <=? acc) then flag_set Flag_C ;;;
  when (truthy (Z.land acc 128)) then flag_set Flag_N ;;;
  let acc := acc mod 0x100 in
  modify (set_acc acc) ;;;
  when (acc =? 0) then flag_set Flag_Z.

Definition instruction_ADC (byte : Z) (instr : Instr) (addr : Z) : M (Z * Z) :=
  x <- gets cpu_x ;;
  y <- gets cpu_y ;;
  r <- (if byte =? 0x69 then d <- imm addr ;; ret (d, false)
        else if byte =? 0x65 then d <- zp addr ;; ret (d, false)
        else if byte =? 0x75 then d <- zpx addr x ;; ret (d, false)
        else if byte =? 0x6D then d <- abs addr ;; ret (d, false)
        else if byte =? 0x7D then absxy addr x
        else if byte =? 0x79 then absxy addr y
        else if byte =? 0x61 then d <- indx addr x ;; ret (d, false)
        else if byte =? 0x71 then indy addr y
        else raise UnboundLocalError) ;;
  adc_core (fst r) ;;;
  ret_next_pbc instr (snd r).

Definition instruction_AND (byte : Z) (instr : Instr) (addr : Z) : M (Z * Z) :=
  flag_clear Flag_N ;;;
  flag_clear Flag_Z ;;;
  addr <- effective_addr 0x35 0x3D 0x21 [0x39] 0x31 byte addr ;;
  data <- (if negb (byte =? 0x29) then mem_read_int (addr mod 0x10000) else ret addr) ;;
  acc <- gets cpu_acc ;;
  let acc := Z.land acc data in
  modify (set_acc acc) ;;;
  when (acc =? 0) then flag_set Flag_Z ;;;
  when (128 <=? acc) then flag_set Flag_N ;;;
  ret_next_page instr addr.

Definition instruction_ASL (byte : Z) (instr : Instr) (addr : Z) : M (Z * Z) :=
  flag_clear Flag_N ;;;
  flag_clear Flag_Z ;;;
  flag_clear Flag_C ;;;
  x <- gets cpu_x ;;
  let addr := index_addr 0x16 0x1E x byte addr in
  (if byte =? 0x0A then
     acc <- gets cpu_acc ;;
     when (truthy (Z.land acc 0x80)) then flag_set Flag_C ;;;
     let acc := (Z.shiftl acc 1) mod 0x100 in
     modify (set_acc acc) ;;;
     when (truthy (Z.land acc 0x80)) then flag_set Flag_N ;;;
     when (acc =? 0) then flag_set Flag_Z
   else
     data <- mem_read_int addr ;;
     when (truthy (Z.land data 0x80)) then flag_set Flag_C ;;;
     mem_write addr ((Z.shiftl data 1) mod 0x100) ;;;
     d <- mem_read_int addr ;;
     when (truthy (Z.land d 0x80)) then flag_set Flag_N ;;;
     d <- mem_read addr ;;
     when (py_eq0 d) then flag_set Flag_Z) ;;;
  ret_next instr.

(** The eight branch handlers differ only in the flag tested and its
    polarity: [taken] is the value of the source's [if] condition. *)
Definition branch (taken : bool) (instr : Instr) (addr : Z) : M (Z * Z) :=
  pc <- gets cpu_pc ;;
  c <- gets cpu_cycles ;;
  let add_cycles := instr2 instr in
  let new_pc := pc + instr1 instr in
  if taken then
    let new_pc := new_pc + signed_byte_to_int addr 8 in
    let add_cycles := add_cycles + 1 in
    let add_cycles :=
      if negb (page_num pc =? page_num new_pc) then add_cycles + instr3 instr
      else add_cycles in
    ret (new_pc, c + add_cycles)
  else ret (new_pc, c + add_cycles).

Definition instruction_BCC (byte : Z) (instr : Instr) (addr : Z) : M (Z * Z) :=
  f <- flag_isset Flag_C ;; branch (negb f) instr addr.

Definition instruction_BCS (byte : Z) (instr : Instr) (addr : Z) : M (Z * Z) :=
  f <- flag_isset Flag_C ;; branch f instr addr.

Definition instruction_BEQ (byte : Z) (instr : Instr) (addr : Z) : M (Z * Z) :=
  f <- flag_isset Flag_Z ;; branch f instr addr.

Definition instruction_BIT (byte : Z) (instr : Instr) (addr : Z) : M (Z * Z) :=
  flag_clear Flag_N ;;;
  flag_clear Flag_V ;;;
  flag_clear Flag_Z ;;;
  data <- mem_read_int addr ;;
  acc <- gets cpu_acc ;;
  when (Z.land acc data =? 0) then flag_set Flag_Z ;;;
  when (truthy (Z.land data 128)) then flag_set Flag_N ;;;
  when (truthy (Z.land data 64)) then flag_set Flag_V ;;;
  ret_next instr.

Definition instruction_BMI (byte : Z) (instr : Instr) (addr : Z) : M (Z * Z) :=
  f <- flag_isset Flag_N ;; branch f instr addr.

Definition instruction_BNE (byte : Z) (instr : Instr) (addr : Z) : M (Z * Z) :=
  f <- flag_isset Flag_Z ;; branch (negb f) instr addr.

Definition instruction_BPL (byte : Z) (instr : Instr) (addr : Z) : M (Z * Z) :=
  f <- flag_isset Flag_N ;; branch (negb f) instr addr.

Definition instruction_BRK (byte : Z) (instr : Instr) (addr : Z) : M (Z * Z) :=
  pc <- gets cpu_pc ;;
  let tostack := pc + instr1 instr + 2 in
  stack_push (Z.shiftr tostack 8) ;;;
  stack_push (Z.land tostack 0xFF) ;;;
  p <- flag_get_byte ;;
  stack_push (Z.lor p Flag_B) ;;;
  flag_set Flag_B ;;;
  v <- nmi_vector ;;
  c <- gets cpu_cycles ;;
  ret (v, c + instr2 instr).

Definition instruction_BVC (byte : Z) (instr : Instr) (addr : Z) : M (Z * Z) :=
  f <- flag_isset Flag_V ;; branch (negb f) instr addr.

Definition instruction_BVS (byte : Z) (instr : Instr) (addr : Z) : M (Z * Z) :=
  f <- flag_isset Flag_V ;; branch f instr addr.

Definition instruction_CLC (byte : Z) (instr : Instr) (addr : Z) : M (Z * Z) :=
  flag_clear Flag_C ;;; ret_next instr.

Definition instruction_CLD (byte : Z) (instr : Instr) (addr : Z) : M (Z * Z) :=
  flag_clear Flag_D ;;; ret_next instr.

Definition instruction_CLI (byte : Z) (instr : Instr) (addr : Z) : M (Z * Z) :=
  flag_clear Flag_I ;;; ret_next instr.

Definition instruction_CLV (byte : Z) (instr : Instr) (addr : Z) : M (Z * Z) :=
  flag_clear Flag_V ;;; ret_next instr.

(** The comparison shared by CMP and iDCP ([reg] is A) *)
Definition compare_mod (reg data : Z) : M unit :=
  when (data <=? reg) then flag_set Flag_C ;;;
  when (reg =? data) then flag_set Flag_Z ;;;
  when (truthy (Z.land ((reg - data) mod 0x100) 128)) then flag_set Flag_N.

Definition instruction_CMP (byte : Z) (instr : Instr) (addr : Z) : M (Z * Z) :=
  flag_clear Flag_N ;;;
  flag_clear Flag_Z ;;;
  flag_clear Flag_C ;;;
  addr <- effective_addr 0xD5 0xDD 0xC1 [0xD9] 0xD1 byte addr ;;
  data <- (if negb (byte =? 0xC9) then mem_read_int (addr mod 0x10000) else ret addr) ;;
  acc <- gets cpu_acc ;;
  compare_mod acc data ;;;
  ret_next_page instr addr.

(** CPX and CPY test the sign of the unmasked difference. *)
Definition compare_xy (imm_byte : Z) (reg : CPU -> Z)
  (byte : Z) (instr : Instr) (addr : Z) : M (Z * Z) :=
  flag_clear Flag_N ;;;
  flag_clear Flag_Z ;;;
  flag_clear Flag_C ;;;
  data <- (if negb (byte =? imm_byte) then mem_read_int (addr mod 0x10000) else ret addr) ;;
  r <- gets reg ;;
  when (data <=? r) then flag_set Flag_C ;;;
  when (r =? data) then flag_set Flag_Z ;;;
  when (truthy (Z.land (r - data) 128)) then flag_set Flag_N ;;;
  ret_next instr.

Definition instruction_CPX : Z -> Instr -> Z -> M (Z * Z) := compare_xy 0xE0 cpu_x.
Definition instruction_CPY : Z -> Instr -> Z -> M (Z * Z) := compare_xy 0xC0 cpu_y.

(** The flag update that follows a register load or transfer:
    [if r == 0: set Z] and [if r >= 0x80: set N]. *)
Definition set_zn_ge (r : Z) : M unit :=
  when (r =? 0) then flag_set Flag_Z ;;;
  when (0x80 <=? r) then flag_set Flag_N.

(** The same with the sign tested by [r & 0x80]. *)
Definition set_zn_and (r : Z) : M unit :=
  when (r =? 0) then flag_set Flag_Z ;;;
  when (truthy (Z.land r 0x80)) then flag_set Flag_N.

(** DEC and INC: [delta] is [-1] or [1]. *)
Definition inc_dec_mem (b_zp b_abs delta : Z) (byte : Z) (instr : Instr) (addr : Z)
  : M (Z * Z) :=
  flag_clear Flag_N ;;;
  flag_clear Flag_Z ;;;
  x <- gets cpu_x ;;
  let addr := index_addr b_zp b_abs x byte addr in
  d <- mem_read_int addr ;;
  mem_write addr ((d + delta) mod 0x100) ;;;
  d <- mem_read addr ;;
  when (py_eq0 d) then flag_set Flag_Z ;;;
  d <- mem_read_int addr ;;
  when (truthy (Z.land d 0x80)) then flag_set Flag_N ;;;
  ret_next instr.

Definition instruction_DEC : Z -> Instr -> Z -> M (Z * Z) := inc_dec_mem 0xD6 0xDE (-1).
Definition instruction_INC : Z -> Instr -> Z -> M (Z * Z) := inc_dec_mem 0xF6 0xFE 1.

(** DEX, DEY, INX, INY: [r = (r + delta) % 0x100], then Z and N. *)
Definition inc_dec_reg (get : CPU -> Z) (set : Z -> CPU -> CPU) (delta : Z)
  (instr : Instr) : M (Z * Z) :=
  flag_clear Flag_N ;;;
  flag_clear Flag_Z ;;;
  r <- gets get ;;
  let r := (r + delta) mod 0x100 in
  modify (set r) ;;;
  set_zn_and r ;;;
  ret_next instr.

Definition instruction_DEX (byte : Z) (instr : Instr) (addr : Z) : M (Z * Z) :=
  inc_dec_reg cpu_x set_x (-1) instr.
Definition instruction_DEY (byte : Z) (instr : Instr) (addr : Z) : M (Z * Z) :=
  inc_dec_reg cpu_y set_y (-1) instr.
Definition instruction_INX (byte : Z) (instr : Instr) (addr : Z) : M (Z * Z) :=
  inc_dec_reg cpu_x set_x 1 instr.
Definition instruction_INY (byte : Z) (instr : Instr) (addr : Z) : M (Z * Z) :=
  inc_dec_reg cpu_y set_y 1 instr.

Definition instruction_EOR (byte : Z) (instr : Instr) (addr : Z) : M (Z * Z) :=
  flag_clear Flag_N ;;;
  flag_clear Flag_Z ;;;
  addr <- effective_addr 0x55 0x5D 0x41 [0x59] 0x51 byte addr ;;
  data <- (if negb (byte =? 0x49) then mem_read_int (addr mod 0x10000) else ret addr) ;;
  acc <- gets cpu_acc ;;
  let acc := Z.lxor acc data in
  modify (set_acc acc) ;;;
  when (acc =? 0) then flag_set Flag_Z ;;;
  when (128 <=? acc) then flag_set Flag_N ;;;
  ret_next_page instr addr.

Definition instruction_JMP (byte : Z) (instr : Instr) (addr : Z) : M (Z * Z) :=
  new_pc <- (if byte =? 0x4C then ret addr
             else
               let broken_addr := Z.land addr 0xFF00 + Z.land (addr + 1) 0x00FF in
               low <- mem_read_int addr ;;
               high <- mem_read_int broken_addr ;;
               ret (Z.shiftl high 8 + low)) ;;
  c <- gets cpu_cycles ;;
  ret (new_pc, c + instr2 instr).

Definition instruction_JSR (byte : Z) (instr : Instr) (addr : Z) : M (Z * Z) :=
  pc <- gets cpu_pc ;;
  let tostack := pc + instr1 instr - 1 in
  stack_push (Z.shiftr tostack 8) ;;;
  stack_push (Z.land tostack 0xFF) ;;;
  c <- gets cpu_cycles ;;
  ret (addr, c + instr2 instr).

Definition instruction_LDA (byte : Z) (instr : Instr) (addr : Z) : M (Z * Z) :=
  flag_clear Flag_N ;;;
  flag_clear Flag_Z ;;;
  addr <- effective_addr 0xB5 0xBD 0xA1 [0xB9] 0xB1 byte addr ;;
  data <- (if negb (byte =? 0xA9) then mem_read_int (addr mod 0x10000) else ret addr) ;;
  modify (set_acc data) ;;;
  when (data =? 0) then flag_set Flag_Z ;;;
  when (128 <=? data) then flag_set Flag_N ;;;
  ret_next_page instr addr.

(** LDX and LDY: the index register is the other one, and the read is at
    the unmasked address. *)
Definition load_xy (b_zp b_abs b_imm : Z) (index : CPU -> Z) (set : Z -> CPU -> CPU)
  (byte : Z) (instr : Instr) (addr : Z) : M (Z * Z) :=
  flag_clear Flag_N ;;;
  flag_clear Flag_Z ;;;
  r <- gets index ;;
  let addr := index_addr b_zp b_abs r byte addr in
  data <- (if negb (byte =? b_imm) then mem_read_int addr else ret addr) ;;
  modify (set data) ;;;
  set_zn_ge data ;;;
  ret_next_page instr addr.

Definition instruction_LDX : Z -> Instr -> Z -> M (Z * Z) :=
  load_xy 0xB6 0xBE 0xA2 cpu_y set_x.
Definition instruction_LDY : Z -> Instr -> Z -> M (Z * Z) :=
  load_xy 0xB4 0xBC 0xA0 cpu_x set_y.

Definition instruction_LSR (byte : Z) (instr : Instr) (addr : Z) : M (Z * Z) :=
  flag_clear Flag_N ;;;
  flag_clear Flag_Z ;;;
  flag_clear Flag_C ;;;
  x <- gets cpu_x ;;
  let addr := index_addr 0x56 0x5E x byte addr in
  r <- (if byte =? 0x4A then
          old_data <- gets cpu_acc ;;
          modify (set_acc (Z.shiftr old_data 1)) ;;;
          new_data <- gets cpu_acc ;;
          ret (old_data, new_data)
        else
          old_data <- mem_read_int addr ;;
          mem_write addr (Z.shiftr old_data 1) ;;;
          new_data <- mem_read_int addr ;;
          ret (old_data, new_data)) ;;
  let '(old_data, new_data) := r in
  when (truthy (Z.land old_data 0x01)) then flag_set Flag_C ;;;
  when (new_data =? 0) then flag_set Flag_Z ;;;
  when (truthy (Z.land new_data 0x80)) then flag_set Flag_N ;;;
  ret_next_page instr addr.

Definition instruction_NOP (byte : Z) (instr : Instr) (addr : Z) : M (Z * Z) :=
  ret_next instr.

Definition instruction_ORA (byte : Z) (instr : Instr) (addr : Z) : M (Z * Z) :=
  flag_clear Flag_N ;;;
  flag_clear Flag_Z ;;;
  addr <- effective_addr 0x15 0x1D 0x01 [0x19] 0x11 byte addr ;;
  data <- (if negb (byte =? 0x09) then mem_read_int (addr mod 0x10000) else ret addr) ;;
  acc <- gets cpu_acc ;;
  let acc := Z.lor acc data in
  modify (set_acc acc) ;;;
  when (acc =? 0) then flag_set Flag_Z ;;;
  when (128 <=? acc) then flag_set Flag_N ;;;
  ret_next_page instr addr.

Definition instruction_PHA (byte : Z) (instr : Instr) (addr : Z) : M (Z * Z) :=
  acc <- gets cpu_acc ;;
  stack_push acc ;;;
  ret_next instr.

Definition instruction_PHP (byte : Z) (instr : Instr) (addr : Z) : M (Z * Z) :=
  p <- flag_get_byte ;;
  stack_push (Z.lor p Flag_B) ;;;
  ret_next instr.

Definition instruction_PLA (byte : Z) (instr : Instr) (addr : Z) : M (Z * Z) :=
  flag_clear Flag_Z ;;;
  flag_clear Flag_N ;;;
  acc <- stack_pop ;;
  modify (set_acc acc) ;;;
  set_zn_and acc ;;;
  ret_next instr.

Definition instruction_PLP (byte : Z) (instr : Instr) (addr : Z) : M (Z * Z) :=
  v <- stack_pop ;;
  flag_set_byte (Z.land v (Z.lnot Flag_B)) ;;;
  ret_next instr.

(** The tail of ROL and ROR (and of iRLA's rotate): clear N, Z, C, then C
    from the bit shifted out ([out_mask]), Z and N from the new value. *)
Definition rotate_flags (out_mask old_data new_data : Z) : M unit :=
  flag_clear Flag_N ;;;
  flag_clear Flag_Z ;;;
  flag_clear Flag_C ;;;
  when (truthy (Z.land old_data out_mask)) then flag_set Flag_C ;;;
  when (new_data =? 0) then flag_set Flag_Z ;;;
  when (truthy (Z.land new_data 0x80)) then flag_set Flag_N.

Definition instruction_ROL (byte : Z) (instr : Instr) (addr : Z) : M (Z * Z) :=
  x <- gets cpu_x ;;
  let addr := index_addr 0x36 0x3E x byte addr in
  c <- flag_isset Flag_C ;;
  r <- (if byte =? 0x2A then
          old_data <- gets cpu_acc ;;
          modify (set_acc ((Z.shiftl old_data 1 + b2z c) mod 0x100)) ;;;
          new_data <- gets cpu_acc ;;
          ret (old_data, new_data)
        else
          old_data <- mem_read_int addr ;;
          mem_write addr ((Z.shiftl old_data 1 + b2z c) mod 0x100) ;;;
          new_data <- mem_read_int addr ;;
          ret (old_data, new_data)) ;;
  rotate_flags 0x80 (fst r) (snd r) ;;;
  ret_next_page instr addr.

Definition instruction_ROR (byte : Z) (instr : Instr) (addr : Z) : M (Z * Z) :=
  x <- gets cpu_x ;;
  let addr := index_addr 0x76 0x7E x byte addr in
  c <- flag_isset Flag_C ;;
  r <- (if byte =? 0x6A then
          old_data <- gets cpu_acc ;;
          modify (set_acc (Z.shiftr old_data 1 + Z.shiftl (b2z c) 7)) ;;;
          new_data <- gets cpu_acc ;;
          ret (old_data, new_data)
        else
          old_data <- mem_read_int addr ;;
          mem_write addr (Z.shiftr old_data 1 + Z.shiftl (b2z c) 7) ;;;
          new_data <- mem_read_int addr ;;
          ret (old_data, new_data)) ;;
  rotate_flags 0x01 (fst r) (snd r) ;;;
  ret_next_page instr addr.

Definition instruction_RTI (byte : Z) (instr : Instr) (addr : Z) : M (Z * Z) :=
  v <- stack_pop ;;
  let flags := Z.land v (Z.lnot Flag_B) in
  lo <- stack_pop ;;
  hi <- stack_pop ;;
  let new_pc := lo + Z.shiftl hi 8 in
  flag_set_byte flags ;;;
  c <- gets cpu_cycles ;;
  ret (new_pc, c + instr2 instr).

Definition instruction_RTS (byte : Z) (instr : Instr) (addr : Z) : M (Z * Z) :=
  lower <- stack_pop ;;
  higher <- stack_pop ;;
  let new_pc := lower + Z.shiftl higher 8 in
  c <- gets cpu_cycles ;;
  ret (new_pc + instr1 instr, c + instr2 instr).

(** The tail shared by SBC, iISC and iSBC: subtract [data] and borrow. *)
Definition sbc_core (data : Z) : M unit :=
  old_acc <- gets cpu_acc ;;
  c <- flag_isset Flag_C ;;
  let acc := old_acc + (Z.lnot data + b2z c) in
  flag_clear Flag_N ;;;
  flag_clear Flag_Z ;;;
  flag_set Flag_C ;;;
  flag_clear Flag_V ;;;
  when (acc <? 0) then flag_clear Flag_C ;;;
  when (truthy (Z.land acc 128)) then flag_set Flag_N ;;;
  let acc := acc mod 0x100 in
  modify (set_acc acc) ;;;
  when (acc =? 0) then flag_set Flag_Z ;;;
  when (truthy (Z.land (Z.land (Z.lxor old_acc acc) (Z.lnot (Z.lxor data acc))) 0x80))
    then flag_set Flag_V.

Definition instruction_SBC (byte : Z) (instr : Instr) (addr : Z) : M (Z * Z) :=
  addr <- effective_addr 0xF5 0xFD 0xE1 [0xF9] 0xF1 byte addr ;;
  data <- (if negb (byte =? 0xE9) then mem_read_int (addr mod 0x10000) else ret addr) ;;
  sbc_core data ;;;
  ret_next_page instr addr.

Definition instruction_SEC (byte : Z) (instr : Instr) (addr : Z) : M (Z * Z) :=
  flag_set Flag_C ;;; ret_next instr.

Definition instruction_SED (byte : Z) (instr : Instr) (addr : Z) : M (Z * Z) :=
  flag_set Flag_D ;;; ret_next instr.

Definition instruction_SEI (byte : Z) (instr : Instr) (addr : Z) : M (Z * Z) :=
  flag_set Flag_I ;;; ret_next instr.

(** STA tests [byte == 0x95] for the zero-page wrap outside the "add x"
    test; 0x95 is one of the three opcodes of that test, so the prelude is
    the shared one. *)
Definition instruction_STA (byte : Z) (instr : Instr) (addr : Z) : M (Z * Z) :=
  addr <- effective_addr 0x95 0x9D 0x81 [0x99] 0x91 byte addr ;;
  let addr := addr mod 0x10000 in
  acc <- gets cpu_acc ;;
  mem_write addr acc ;;;
  ret_next instr.

(** STX and STY: index by the other register for the zero-page opcode. *)
Definition store_xy (b_zp : Z) (index reg : CPU -> Z)
  (byte : Z) (instr : Instr) (addr : Z) : M (Z * Z) :=
  i <- gets index ;;
  let addr := if byte =? b_zp then (addr + i) mod 0x100 else addr in
  let addr := addr mod 0x10000 in
  r <- gets reg ;;
  mem_write addr r ;;;
  ret_next instr.

Definition instruction_STX : Z -> Instr -> Z -> M (Z * Z) := store_xy 0x96 cpu_y cpu_x.
Definition instruction_STY : Z -> Instr -> Z -> M (Z * Z) := store_xy 0x94 cpu_x cpu_y.

(** TAX, TAY, TXA, TYA: copy, then Z and N by [== 0] and [>= 0x80]. *)
Definition transfer (src : CPU -> Z) (set : Z -> CPU -> CPU) (instr : Instr) : M (Z * Z) :=
  flag_clear Flag_N ;;;
  flag_clear Flag_Z ;;;
  r <- gets src ;;
  modify (set r) ;;;
  set_zn_ge r ;;;
  ret_next instr.

Definition instruction_TAX (byte : Z) (instr : Instr) (addr : Z) : M (Z * Z) :=
  transfer cpu_acc set_x instr.
Definition instruction_TAY (byte : Z) (instr : Instr) (addr : Z) : M (Z * Z) :=
  transfer cpu_acc set_y instr.
Definition instruction_TXA (byte : Z) (instr : Instr) (addr : Z) : M (Z * Z) :=
  transfer cpu_x set_acc instr.
Definition instruction_TYA (byte : Z) (instr : Instr) (addr : Z) : M (Z * Z) :=
  transfer cpu_y set_acc instr.

Definition instruction_TSX (byte : Z) (instr : Instr) (addr : Z) : M (Z * Z) :=
  flag_clear Flag_Z ;;;
  flag_clear Flag_N ;;;
  sp <- gets cpu_sp ;;
  modify (set_x sp) ;;;
  set_zn_and sp ;;;
  ret_next instr.

Definition instruction_TXS (byte : Z) (instr : Instr) (addr : Z) : M (Z * Z) :=
  x <- gets cpu_x ;;
  modify (set_sp x) ;;;
  ret_next instr.

(** *** Illegal opcodes *)

Definition instruction_iDCP (byte : Z) (instr : Instr) (addr : Z) : M (Z * Z) :=
  flag_clear Flag_N ;;;
  flag_clear Flag_Z ;;;
  flag_clear Flag_C ;;;
  addr <- effective_addr 0xD7 0xDF 0xC3 [0xD8; 0xDB] 0xD3 byte addr ;;
  d <- mem_read_int addr ;;
  let data := (d - 1) mod 0x100 in
  mem_write addr data ;;;
  acc <- gets cpu_acc ;;
  compare_mod acc data ;;;
  ret_next instr.

Definition instruction_iISC (byte : Z) (instr : Instr) (addr : Z) : M (Z * Z) :=
  addr <- effective_addr 0xF7 0xFF 0xE3 [0xFB] 0xF3 byte addr ;;
  d <- mem_read_int addr ;;
  let data := (d + 1) mod 0x100 in
  mem_write addr data ;;;
  sbc_core data ;;;
  ret_next instr.

Definition instruction_iLAX (byte : Z) (instr : Instr) (addr : Z) : M (Z * Z) :=
  flag_clear Flag_N ;;;
  flag_clear Flag_Z ;;;
  x <- gets cpu_x ;;
  y <- gets cpu_y ;;
  let addr := index_addr 0xB7 0xBF y byte addr in
  addr <- (if byte =? 0xA3 then read_ptr (addr + x) else ret addr) ;;
  addr <- (if byte =? 0xB3 then a <- read_ptr addr ;; ret (a + y) else ret addr) ;;
  data <- mem_read_int (addr mod 0x10000) ;;
  modify (set_x data) ;;;
  modify (set_acc data) ;;;
  set_zn_ge data ;;;
  ret_next_page instr addr.

Definition instruction_iNOP (byte : Z) (instr : Instr) (addr : Z) : M (Z * Z) :=
  ret_next_page instr addr.

Definition instruction_iRLA (byte : Z) (instr : Instr) (addr : Z) : M (Z * Z) :=
  addr <- effective_addr 0x37 0x3F 0x23 [0x3B] 0x33 byte addr ;;
  old_data <- mem_read_int addr ;;
  c <- flag_isset Flag_C ;;
  mem_write addr ((Z.shiftl old_data 1 + b2z c) mod 0x100) ;;;
  new_data <- mem_read_int addr ;;
  flag_clear Flag_N ;;;
  flag_clear Flag_Z ;;;
  flag_clear Flag_C ;;;
  when (truthy (Z.land old_data 0x80)) then flag_set Flag_C ;;;
  acc <- gets cpu_acc ;;
  let acc := Z.land acc new_data in
  modify (set_acc acc) ;;;
  when (acc =? 0) then flag_set Flag_Z ;;;
  when (128 <=? acc) then flag_set Flag_N ;;;
  ret_next instr.

Definition instruction_iRRA (byte : Z) (instr : Instr) (addr : Z) : M (Z * Z) :=
  addr <- effective_addr 0x77 0x7F 0x63 [0x7B] 0x73 byte addr ;;
  old_data <- mem_read_int addr ;;
  c <- flag_isset Flag_C ;;
  mem_write addr (Z.shiftr old_data 1 + Z.shiftl (b2z c) 7) ;;;
  new_data <- mem_read_int addr ;;
  when (truthy (Z.land old_data 0x01)) then flag_set Flag_C ;;;
  when (new_data =? 0) then flag_set Flag_Z ;;;
  when (truthy (Z.land new_data 0x80)) then flag_set Flag_N ;;;
  adc_core new_data ;;;
  ret_next instr.

Definition instruction_iSAX (byte : Z) (instr : Instr) (addr : Z) : M (Z * Z) :=
  x <- gets cpu_x ;;
  y <- gets cpu_y ;;
  let addr := if byte =? 0x97 then (addr + y) mod 0x100 else addr in
  addr <- (if byte =? 0x83 then read_ptr (addr + x) else ret addr) ;;
  acc <- gets cpu_acc ;;
  let data := Z.land acc x in
  mem_write addr data ;;;
  ret_next instr.

Definition instruction_iSBC (byte : Z) (instr : Instr) (data : Z) : M (Z * Z) :=
  sbc_core data ;;;
  ret_next instr.

Definition instruction_iSLO (byte : Z) (instr : Instr) (addr : Z) : M (Z * Z) :=
  flag_clear Flag_N ;;;
  flag_clear Flag_Z ;;;
  flag_clear Flag_C ;;;
  addr <- effective_addr 0x17 0x1F 0x03 [0x1B] 0x13 byte addr ;;
  data <- mem_read_int addr ;;
  when (truthy (Z.land data 0x80)) then flag_set Flag_C ;;;
  let data := (Z.shiftl data 1) mod 0x100 in
  mem_write addr data ;;;
  acc <- gets cpu_acc ;;
  let acc := Z.lor acc data in
  modify (set_acc acc) ;;;
  when (acc =? 0) then flag_set Flag_Z ;;;
  when (128 <=? acc) then flag_set Flag_N ;;;
  ret_next instr.

Definition instruction_iSRE (byte : Z) (instr : Instr) (addr : Z) : M (Z * Z) :=
  flag_clear Flag_N ;;;
  flag_clear Flag_Z ;;;
  flag_clear Flag_C ;;;
  addr <- effective_addr 0x57 0x5F 0x43 [0x5B] 0x53 byte addr ;;
  old_data <- mem_read_int addr ;;
  mem_write addr (Z.shiftr old_data 1) ;;;
  new_data <- mem_read_int addr ;;
  when (truthy (Z.land old_data 0x01)) then flag_set Flag_C ;;;
  acc <- gets cpu_acc ;;
  let acc := Z.lxor acc new_data in
  modify (set_acc acc) ;;;
  when (acc =? 0) then flag_set Flag_Z ;;;
  when (0x80 <=? acc) then flag_set Flag_N ;;;
  ret_next instr.

(** ** CPU.run and CPU.__init__ *)

(** [getattr(self, "instruction_" + instr[0], self.instruction_not_implemented)]:
    the class defines no handler for iANC, iALR, iARR, iSBX, iLAS and iJAM. *)
Definition handler_of (name : mnemonic) : Z -> Instr -> Z -> M (Z * Z) :=
  match name with
  | ADC => instruction_ADC | AND => instruction_AND | ASL => instruction_ASL
  | BCC => instruction_BCC | BCS => instruction_BCS | BEQ => instruction_BEQ
  | BIT => instruction_BIT | BMI => instruction_BMI | BNE => instruction_BNE
  | BPL => instruction_BPL | BRK => instruction_BRK | BVC => instruction_BVC
  | BVS => instruction_BVS | CLC => instruction_CLC | CLD => instruction_CLD
  | CLI => instruction_CLI | CLV => instruction_CLV | CMP => instruction_CMP
  | CPX => instruction_CPX | CPY => instruction_CPY | DEC => instruction_DEC
  | DEX => instruction_DEX | DEY => instruction_DEY | EOR => instruction_EOR
  | INC => instruction_INC | INX => instruction_INX | INY => instruction_INY
  | JMP => instruction_JMP | JSR => instruction_JSR | LDA => instruction_LDA
  | LDX => instruction_LDX | LDY => instruction_LDY | LSR => instruction_LSR
  | NOP => instruction_NOP | ORA => instruction_ORA | PHA => instruction_PHA
  | PHP => instruction_PHP | PLA => instruction_PLA | PLP => instruction_PLP
  | ROL => instruction_ROL | ROR => instruction_ROR | RTI => instruction_RTI
  | RTS => instruction_RTS | SBC => instruction_SBC | SEC => instruction_SEC
  | SED => instruction_SED | SEI => instruction_SEI | STA => instruction_STA
  | STX => instruction_STX | STY => instruction_STY | TAX => instruction_TAX
  | TAY => instruction_TAY | TSX => instruction_TSX | TXA => instruction_TXA
  | TXS => instruction_TXS | TYA => instruction_TYA
  | iDCP => instruction_iDCP | iISC => instruction_iISC | iLAX => instruction_iLAX
  | iNOP => instruction_iNOP | iRLA => instruction_iRLA | iRRA => instruction_iRRA
  | iSAX => instruction_iSAX | iSBC => instruction_iSBC | iSLO => instruction_iSLO
  | iSRE => instruction_iSRE
  | iANC | iALR | iARR | iSBX | iLAS | iJAM => instruction_not_implemented
  end.

Definition is_BRK (name : mnemonic) : bool :=
  match name with BRK => true | _ => false end.

(** [[self.mem.read(i) for i in range(start, start + n)]]; a [None] in the
    list makes [int.from_bytes] raise [TypeError]. *)
Fixpoint read_bytes (start : Z) (n : nat) : M (list Z) :=
  match n with
  | O => ret []
  | S n' =>
      b <- mem_read_int start ;;
      bs <- read_bytes (start + 1) n' ;;
      ret (b :: bs)
  end.

(** [int.from_bytes(bs, byteorder="little")] *)
Definition from_bytes_little (bs : list Z) : Z :=
  fold_right (fun b acc => b + 256 * acc) 0 bs.

(** [for _ in range(n): body] *)
Fixpoint repeat_M (n : nat) (body : M unit) : M unit :=
  match n with
  | O => ret tt
  | S n' => body ;;; repeat_M n' body
  end.

(** [handler(self.get_current_pc_byte(), instr, data)] reads the opcode byte
    a second time; the table lookup has succeeded on it, so it is an
    integer.  The two [print]s are left out. *)
Definition CPU_run : M unit :=
  cur_cycles <- gets cpu_cycles ;;
  instr <- get_current_instruction ;;
  pc <- gets cpu_pc ;;
  instr_bytes <- read_bytes (pc + 1) (Z.to_nat (instr1 instr - 1)) ;;
  let data := from_bytes_little instr_bytes in
  if is_BRK (instr0 instr) then raise Die
  else
    byte <- mem_read_int pc ;;
    r <- handler_of (instr0 instr) byte instr data ;;
    modify (set_pc (fst r)) ;;;
    modify (set_cycles (snd r)) ;;;
    (* Let the PPU catch up. 1 CPU cycle is approx. 3 PPU cycles *)
    cycles <- gets cpu_cycles ;;
    repeat_M (Z.to_nat (cycles - cur_cycles)) PPU_run.

(** [CPU.__init__]: the reset vector is read before the PPU object exists
    ([mem.ppu] is still [None]); the other registers are the class
    attributes, which are integers, and [self.flag = Flag()] sees the list
    [Flag.enabled_flags] holds, passed as [enabled_flags]. *)
Definition Memory_read_int (m : Memory) (ppu : option PPU) (a : Z) : res Z :=
  match Memory_read m ppu a with
  | Ok (PInt z) => Ok z
  | Ok PNone => Raise TypeError
  | Raise e => Raise e
  end.

Definition CPU_init (m : Memory) (enabled_flags : Flag) : res CPU :=
  match Memory_read_int m None 0xFFFC with
  | Raise e => Raise e
  | Ok lo =>
      match Memory_read_int m None 0xFFFD with
      | Raise e => Raise e
      | Ok hi =>
          Ok (mkCPU 0xFD (lo + Z.shiftl hi 8) 0 0 0 0 m (Flag_new enabled_flags) PPU_new)
      end
  end.

(** ** The class attribute [Flag.enabled_flags] from one CPU to the next

    A Python process holds the class attribute, and each CPU it constructs
    has a Flag instance that shares it until [set_byte] is called on that
    instance: [self.enabled_flags = Flag.INIT_FLAGS[:]] then gives the
    instance its own list and leaves the class's list as it is.  [set_byte]
    is called by PLP and RTI (and by nothing else), as the first access to
    the flags in both. *)
Record Process : Type := mkProcess {
  class_enabled_flags : Flag;   (* what Flag.enabled_flags holds *)
  flag_own : bool;              (* cpu.flag has an enabled_flags of its own *)
  process_cpu : CPU             (* the CPU constructed last *)
}.

Definition calls_set_byte (name : mnemonic) : bool :=
  match name with PLP | RTI => true | _ => false end.

(** [cpu = CPU(mem)] in a process whose class attribute holds
    [enabled_flags] *)
Definition Process_new (enabled_flags : Flag) (m : Memory) : res Process :=
  match CPU_init m enabled_flags with
  | Ok s => Ok (mkProcess enabled_flags false s)
  | Raise e => Raise e
  end.

(** [cpu.run()]: as long as the instance shares the class's list, the
    flags the call leaves are what the class attribute holds. *)
Definition Process_run (p : Process) : res Process :=
  match get_current_instruction (process_cpu p) with
  | Raise e => Raise e
  | Ok (i, _) =>
      match CPU_run (process_cpu p) with
      | Raise e => Raise e
      | Ok (_, s') =>
          let own := flag_own p || calls_set_byte (instr0 i) in
          Ok (mkProcess (if own then class_enabled_flags p else cpu_flag s') own s')
      end
  end.

(** [for _ in range(n): cpu.run()] *)
Fixpoint Process_runs (n : nat) (p : Process) : res Process :=
  match n with
  | O => Ok p
  | S n' =>
      match Process_run p with
      | Ok p' => Process_runs n' p'
      | Raise e => Raise e
      end
  end.

(** [cpu = CPU(mem)] once more in the same process *)
Definition Process_again (p : Process) (m : Memory) : res Process :=
  Process_new (class_enabled_flags p) m.

(** ** main.py: the header and the memory map *)

(** [raw[6] & 0b00001000] *)
Definition flag_trainer (raw6 : Z) : Z := Z.land raw6 8.

(** [(raw[7] & 0b11110000) << 4 + raw[6] & 0b11110000]: in Python [+] binds
    tighter than [<<], and [<<] tighter than [&]. *)
Definition flag_mapper (raw6 raw7 : Z) : Z :=
  Z.land (Z.shiftl (Z.land raw7 240) (4 + raw6)) 240.

Definition prg_start (raw6 : Z) : Z := 16 + flag_trainer raw6 * 512.
Definition prg_len (prg_size : Z) : Z := 16384 * prg_size.

(** [l[:a]] for [a >= 0], and [l[a:] = xs] on a bytearray *)
Definition slice_to {A} (l : list A) (a : Z) : list A := firstn (Z.to_nat a) l.
Definition assign_from {A} (l : list A) (a : Z) (xs : list A) : list A :=
  slice_to l a ++ xs.

(** [raw_mem = bytearray(0xFFFF+1); raw_mem[0x8000:] = PRG;
     if prg_size == 1: raw_mem[0xC000:] = PRG] *)
Definition raw_mem_of (prg_size : Z) (PRG : list Z) : list Z :=
  let raw_mem := repeat 0 (Z.to_nat (0xFFFF + 1)) in
  let raw_mem := assign_from raw_mem 0x8000 PRG in
  if prg_size =? 1 then assign_from raw_mem 0xC000 PRG else raw_mem.

(** * Specification vocabulary

    Predicates, the reachable states and the concrete ROM images the
    theorems below are stated with. *)

(** The ranges the invariant speaks of: a byte, and what a register can
    hold once a stack pointer of -1 has been copied into it (see
    [register_bounds_attained]). *)
Definition byte_ok (v : Z) : Prop := 0 <= v <= 255.
Definition reg_ok (v : Z) : Prop := -256 <= v <= 255.

(** The 256 byte values, to check a decidable property of a byte on each. *)
Definition all_bytes : list Z := map Z.of_nat (seq 0 256).

(** Partial correctness of a CPU computation: if [m] returns from [s], its
    result and final state satisfy [Q]. *)
Definition wp {A} (m : M A) (Q : A -> CPU -> Prop) (s : CPU) : Prop :=
  match m s with
  | Ok (a, s') => Q a s'
  | Raise _ => True
  end.

(** The bytearray holds bytes and PPUSTATUS is a byte. *)
Definition store_ok (s : CPU) : Prop :=
  (forall i, 0 <= i < MEM_LEN -> byte_ok (mem (cpu_mem s) i)) /\
  byte_ok (ppu_status (cpu_ppu s)).

(** [good s0 s]: [s] is a state met while a handler runs from [s0]. *)
Record good (s0 s : CPU) : Prop := mkGood {
  g_store : store_ok s;
  g_acc : reg_ok (cpu_acc s);
  g_x : reg_ok (cpu_x s);
  g_y : reg_ok (cpu_y s);
  g_sp : reg_ok (cpu_sp s);
  g_pc : cpu_pc s = cpu_pc s0;
  g_cycles : cpu_cycles s = cpu_cycles s0;
  g_ppu : ppu_cycles (cpu_ppu s) = ppu_cycles (cpu_ppu s0)
}.

(** PC is never masked: a fetch succeeds for indices [-0x10000 .. 0xFFFF]
    (Python wraps negative indices), the instruction length and a branch
    offset are added as they are. *)
Definition pc_ok (v : Z) : Prop := -65662 <= v <= 65663.

(** What a handler guarantees when it returns [r = (pc, cycles)] *)
Definition hpost (s0 : CPU) (r : Z * Z) (s : CPU) : Prop :=
  good s0 s /\ pc_ok (fst r) /\ cpu_cycles s0 <= snd r.

(** The operand [CPU.run] assembles from [len - 1] bytes *)
Definition operand_ok (len data : Z) : Prop :=
  (len = 2 -> byte_ok data) /\ (len = 3 -> 0 <= data <= 65535).

(** The opcode and operand reads at [pc .. pc + len - 1] succeeded. *)
Definition fetch_ok (s : CPU) (len : Z) : Prop :=
  -65536 <= cpu_pc s /\ cpu_pc s + len - 1 <= 65535.

(** The invariant of the reachable states. *)
Definition inv (s : CPU) : Prop :=
  store_ok s /\ reg_ok (cpu_acc s) /\ reg_ok (cpu_x s) /\ reg_ok (cpu_y s) /\
  reg_ok (cpu_sp s) /\ pc_ok (cpu_pc s).

(** Every table entry has length 1, 2 or 3. *)
Definition len_ok (e : Z * Instr) : bool :=
  let l := instr1 (snd e) in (l =? 1) || (l =? 2) || (l =? 3).

(** What one PPU cycle keeps and changes *)
Record ppu_step (n : Z) (s s' : CPU) : Prop := mkPpuStep {
  ps_store : store_ok s';
  ps_acc : cpu_acc s' = cpu_acc s;
  ps_x : cpu_x s' = cpu_x s;
  ps_y : cpu_y s' = cpu_y s;
  ps_sp : cpu_sp s' = cpu_sp s;
  ps_pc : cpu_pc s' = cpu_pc s;
  ps_cycles : cpu_cycles s' = cpu_cycles s;
  ps_ppu : ppu_cycles (cpu_ppu s') = ppu_cycles (cpu_ppu s) + n
}.

(** What a successful [CPU.run] guarantees *)
Definition run_post (s : CPU) (s' : CPU) : Prop :=
  inv s' /\ cpu_cycles s <= cpu_cycles s' /\
  ppu_cycles (cpu_ppu s') = ppu_cycles (cpu_ppu s) + (cpu_cycles s' - cpu_cycles s).

(** A prepared image: every cell of the bytearray holds a byte. *)
Definition valid_image (m : Memory) : Prop :=
  forall i, 0 <= i < MEM_LEN -> byte_ok (mem m i).

(** The states the emulator goes through: [CPU(mem)] on a prepared image,
    the one construction of the process as in [main.py], so that
    [Flag.enabled_flags] holds the list of the class body; then [cpu.run()]
    again and again as long as it returns. *)
Inductive reachable : CPU -> Prop :=
| reach_init m s : valid_image m -> CPU_init m INIT_FLAGS = Ok s -> reachable s
| reach_run s s' : reachable s -> CPU_run s = Ok (tt, s') -> reachable s'.

(** A, X and Y hold bytes, SP is an index of the stack page or the -1 a
    push at SP = 0 leaves behind, and the bus holds bytes. *)
Record masked (s : CPU) : Prop := mkMasked {
  m_store : store_ok s;
  m_acc : byte_ok (cpu_acc s);
  m_x : byte_ok (cpu_x s);
  m_y : byte_ok (cpu_y s);
  m_sp : -1 <= cpu_sp s <= 255
}.

(** The call of [cpu.run()] from [s] executes TSX while SP is below the
    stack page, that is after a push at SP = 0. *)
Definition runs_TSX_below_stack (s : CPU) : bool :=
  (cpu_sp s <? 0)
  && match get_current_instruction s with
     | Ok (i, _) => match instr0 i with TSX => true | _ => false end
     | Raise _ => false
     end.


(** None of the first [n] calls of [cpu.run()] from [s] executes TSX while
    SP is below the stack page. *)
Fixpoint never_TSX_below_stack (n : nat) (s : CPU) : bool :=
  match n with
  | O => true
  | S n' =>
      negb (runs_TSX_below_stack s)
      && match CPU_run s with
         | Ok (_, s') => never_TSX_below_stack n' s'
         | Raise _ => true
         end
  end.

(** [raw_mem[a:a+len(bs)] = bs] *)
Fixpoint load_bytes (bs : list Z) (a : Z) (f : Z -> Z) : Z -> Z :=
  match bs with
  | [] => f
  | b :: t => load_bytes t (a + 1) (mem_update f a b)
  end.

(** [raw_mem = bytearray(0xFFFF+1)] with byte strings stored at the given
    addresses, as [main.py] stores PRG; [Memory(raw_mem)] *)
Definition image (parts : list (Z * list Z)) : Memory :=
  mkMemory (fold_right (fun p f => load_bytes (snd p) (fst p) f) (fun _ => 0) parts) false.

Definition is_byte (b : Z) : bool := (0 <=? b) && (b <=? 255).

(** The first [CPU(mem)] of a process followed by [n] calls of
    [cpu.run()] *)
Definition boot (m : Memory) (n : nat) : res (unit * CPU) :=
  match CPU_init m INIT_FLAGS with
  | Ok s => repeat_M n CPU_run s
  | Raise e => Raise e
  end.

(** The same of the first [n] calls after the first [CPU(mem)] *)
Definition boot_never_TSX_below_stack (m : Memory) (n : nat) : bool :=
  match CPU_init m INIT_FLAGS with
  | Ok s => never_TSX_below_stack n s
  | Raise _ => true
  end.

(** pc, sp, acc, x, y, cycles, P, PPU cycles *)
Definition regs_of (s : CPU) : Z * Z * Z * Z * Z * Z * Z * Z :=
  (cpu_pc s, cpu_sp s, cpu_acc s, cpu_x s, cpu_y s, cpu_cycles s,
   Flag_get_byte (cpu_flag s), ppu_cycles (cpu_ppu s)).

(** The registers a run ends with, [None] if it raised. *)
Definition observe (r : res (unit * CPU)) : option (Z * Z * Z * Z * Z * Z * Z * Z) :=
  match r with
  | Ok (_, s) => Some (regs_of s)
  | Raise _ => None
  end.

(** A program at 0x8000, which is also the reset vector *)
Definition program (bs : list Z) : Memory :=
  image [(0x8000, bs); (0xFFFC, [0x00; 0x80])].

(** JSR $9000 at 0x8000, RTS at 0x9000 *)
Definition image_jsr_rts : Memory :=
  image [(0x8000, [0x20; 0x00; 0x90]); (0x9000, [0x60]); (0xFFFC, [0x00; 0x80])].

(** The two cells JSR pushed, after [n] steps *)
Definition stack_top_of (r : res (unit * CPU)) : option (Z * Z) :=
  match r with
  | Ok (_, s) => Some (mem (cpu_mem s) 0x1FD, mem (cpu_mem s) 0x1FC)
  | Raise _ => None
  end.

(** NOP at the reset address 0x8000 *)
Definition image_nop : Memory := image [(0x8000, [0xEA]); (0xFFFC, [0x00; 0x80])].

(** CLI; BRK at 0x8000, with NMI vector 0x9000, reset vector 0x8000 and
    IRQ/BRK vector 0xA000 *)
Definition image_brk : Memory :=
  image [(0x8000, [0x58; 0x00]); (0xFFFA, [0x00; 0x90; 0x00; 0x80; 0x00; 0xA0])].

(** new pc, new cycles, sp, the three stack cells, P and the I flag after
    [instruction_BRK] is called in the state [r] ends in *)
Definition observe_BRK (r : res (unit * CPU))
  : option (Z * Z * Z * Z * Z * Z * Z * bool) :=
  match r with
  | Ok (_, s) =>
      match instruction_BRK 0x00 (mkInstr BRK 1 7 0) 0 s with
      | Ok ((pc', c'), s') =>
          Some (pc', c', cpu_sp s',
                mem (cpu_mem s') 0x1FD, mem (cpu_mem s') 0x1FC, mem (cpu_mem s') 0x1FB,
                Flag_get_byte (cpu_flag s'), Flag_isset (cpu_flag s') Flag_I)
      | Raise _ => None
      end
  | Raise _ => None
  end.

(** LDA #$00; BEQ +0 at 0x807C *)
Definition image_beq_rom : Memory :=
  image [(0x807C, [0xA9; 0x00; 0xF0; 0x00]); (0xFFFC, [0x7C; 0x80])].

(** A program that stores BEQ +2 at 0x01FE, clears A (setting Z) and jumps
    there: LDA #$F0; STA $01FE; LDA #$02; STA $01FF; LDA #$00; JMP $01FE *)
Definition image_beq_ram : Memory :=
  image [(0x8000, [0xA9; 0xF0; 0x8D; 0xFE; 0x01; 0xA9; 0x02; 0x8D; 0xFF; 0x01;
                   0xA9; 0x00; 0x4C; 0xFE; 0x01]);
         (0xFFFC, [0x00; 0x80])].

(** The same with the branch stored at 0x01FC, so that 0x01FE is the
    address after it: LDA #$F0; STA $01FC; LDA #$02; STA $01FD; LDA #$00;
    JMP $01FC *)
Definition image_beq_ram_after : Memory :=
  image [(0x8000, [0xA9; 0xF0; 0x8D; 0xFC; 0x01; 0xA9; 0x02; 0x8D; 0xFD; 0x01;
                   0xA9; 0x00; 0x4C; 0xFC; 0x01]);
         (0xFFFC, [0x00; 0x80])].

(** LDA $0010,X at 0x8000 *)
Definition image_lda_absx : Memory :=
  image [(0x8000, [0xBD; 0x10; 0x00]); (0xFFFC, [0x00; 0x80])].

(** The cycle count [instruction_LDA] returns for opcode 0xBD with operand
    [op16], called in the state [r] ends in with PC replaced by [pc] *)
Definition LDA_absx_cycles_at (pc op16 : Z) (r : res (unit * CPU)) : option Z :=
  match r with
  | Ok (_, s) =>
      match instruction_LDA 0xBD (mkInstr LDA 3 4 1) op16 (set_pc pc s) with
      | Ok ((_, c'), _) => Some (c' - cpu_cycles s)
      | Raise _ => None
      end
  | Raise _ => None
  end.

(** LDA #$00; PHA; PLP *)
Definition image_pla_zero : Memory :=
  image [(0x8000, [0xA9; 0x00; 0x48; 0x28]); (0xFFFC, [0x00; 0x80])].

(** CLI; PHP; PLP *)
Definition image_cli_php_plp : Memory :=
  image [(0x8000, [0x58; 0x08; 0x28]); (0xFFFC, [0x00; 0x80])].

(** What PLP makes of a byte PHP pushed *)
Definition pulled_ok (v : Z) : bool :=
  (Flag_get_byte (Flag_set_byte (Z.land v (Z.lnot Flag_B))) =? Z.lor (Z.land v 0xCB) 0x24)
  && negb (Flag_isset (Flag_set_byte (Z.land v (Z.lnot Flag_B))) Flag_B).

(** LDX #$00; TXS; PHA; TSX; TXA; EOR #$FF; TAX; TXS *)
Definition image_stack_full : Memory :=
  image [(0x8000, [0xA2; 0x00; 0x9A; 0x48; 0xBA; 0x8A; 0x49; 0xFF; 0xAA; 0x9A]);
         (0xFFFC, [0x00; 0x80])].

(** SEC; CLI *)
Definition image_sec_cli : Memory :=
  image [(0x8000, [0x38; 0x58]); (0xFFFC, [0x00; 0x80])].



(** Reset vector 0xFFFE, BNE +127 in the last two cells *)
Definition image_branch_top : Memory :=
  image [(0xFFFC, [0xFE; 0xFF; 0xD0; 0x7F])].

(** BNE -128 at 0x0000 and at every address 0x10000 - 126 k below it, which
    the PC -126 k indexes from the end of the bytearray; BNE -18 at 0x0010,
    which PC = -0xFFF0 indexes, leads to PC = -0x10000 and so to the BNE of
    cell 0 once more. *)
Definition image_branch_chain : Memory :=
  image ((0xFFFC, [0x00; 0x00]) :: (0x0000, [0xD0; 0x80]) :: (0x0010, [0xD0; 0xEE])
         :: map (fun k => (0x10000 - 126 * Z.of_nat k, [0xD0; 0x80])) (seq 1 519)).

(** [image_stack_full] followed by INC $0000,X, run with X = -256 *)
Definition image_inc_negative : Memory :=
  image [(0x8000, [0xA2; 0x00; 0x9A; 0x48; 0xBA; 0x8A; 0x49; 0xFF; 0xAA; 0xFE; 0x00; 0x00]);
         (0xFFFC, [0x00; 0x80])].

(** X and the memory cell [a] a run ends with, [None] if it raised. *)
Definition x_and_cell (a : Z) (r : res (unit * CPU)) : option (Z * Z) :=
  match r with
  | Ok (_, s) => Some (cpu_x s, mem (cpu_mem s) a)
  | Raise _ => None
  end.

(** * Vocabulary of the flag, bus and handler properties *)

(** The list holds flag values of the class, each at most once. *)
Definition flags_wf (f : Flag) : Prop := NoDup f /\ incl f VALUES.

(** The sum [get_byte] computes when each flag occurs once *)
Definition flags_byte (f : Flag) : Z :=
  fold_right Z.add 0 (filter (Flag_isset f) VALUES).

Definition set_byte_ok (d : Z) : bool :=
  (Flag_get_byte (Flag_set_byte d) =? Z.lor d 0x24)
  && forallb (fun v => Bool.eqb (Flag_isset (Flag_set_byte d) v)
                                (truthy (Z.land (Z.lor d 0x24) v))) VALUES.

(** The flag list of the states [CPU.run] goes through: well formed, with
    the reserved flag in it and the B flag not. *)
Definition flag_inv (f : Flag) : Prop :=
  flags_wf f /\ In Flag__ f /\ ~ In Flag_B f.

(** [fgood s0 s]: the flags of [s] are as above and no cycle has been
    counted since [s0]. *)
Record fgood (s0 s : CPU) : Prop := mkFgood {
  fg_flag : flag_inv (cpu_flag s);
  fg_cycles : cpu_cycles s = cpu_cycles s0
}.

(** What a handler guarantees for the flags and the cycles it returns *)
Definition fpost (s0 : CPU) (r : Z * Z) (s : CPU) : Prop :=
  flag_inv (cpu_flag s) /\ 2 <= snd r - cpu_cycles s0 <= 8.

(** The flags the handlers set: every flag but B *)
Definition settable (F : Z) : Prop :=
  F = Flag_N \/ F = Flag_V \/ F = Flag_D \/ F = Flag_I \/ F = Flag_Z \/ F = Flag_C.

(** [twp m Q s]: run from [s], [m] returns, in a result and state that
    satisfy [Q]. *)
Definition twp {A} (m : M A) (Q : A -> CPU -> Prop) (s : CPU) : Prop :=
  match m s with
  | Ok (a, s') => Q a s'
  | Raise _ => False
  end.

(** [if c: self.flag.clear(flag)] on the list *)
Definition clear_if (c : bool) (f : Flag) (flag : Z) : Flag :=
  if c then fst (Flag_clear f flag) else f.

(** Two's complement reading of a byte *)
Definition signed8 (b : Z) : Z := if b <? 128 then b else b - 256.

Definition signed_ok (d : Z) : bool := signed_byte_to_int d 8 =? signed8 d.

(** Everything but A, X, Y and the flags is as before. *)
Definition regs_frame (s s' : CPU) : Prop :=
  cpu_sp s' = cpu_sp s /\ cpu_pc s' = cpu_pc s /\ cpu_cycles s' = cpu_cycles s /\
  cpu_mem s' = cpu_mem s /\ cpu_ppu s' = cpu_ppu s.

(** The flag list is still duplicate free and the flags of [keep] are as
    before. *)
Definition flags_frame (keep : list Z) (s s' : CPU) : Prop :=
  NoDup (cpu_flag s') /\
  forall F, In F keep -> Flag_isset (cpu_flag s') F = Flag_isset (cpu_flag s) F.

(** What a comparison of the register value [r] with [d] leaves: C for
    [r >= d], Z for [r = d], N for bit 7 of the difference; registers,
    memory and the other flags are as before. *)
Definition compared (r d : Z) (s s' : CPU) : Prop :=
  Flag_isset (cpu_flag s') Flag_C = (d <=? r) /\
  Flag_isset (cpu_flag s') Flag_Z = (r =? d) /\
  Flag_isset (cpu_flag s') Flag_N = (0x80 <=? (r - d) mod 0x100) /\
  flags_frame [Flag_V; Flag__; Flag_B; Flag_D; Flag_I] s s' /\
  cpu_acc s' = cpu_acc s /\ cpu_x s' = cpu_x s /\ cpu_y s' = cpu_y s /\
  regs_frame s s'.

(** What a load or transfer of [v] leaves in the flags: Z for [v = 0], N
    for [v >= 0x80]. *)
Definition loaded (v : Z) (s s' : CPU) : Prop :=
  Flag_isset (cpu_flag s') Flag_Z = (v =? 0) /\
  Flag_isset (cpu_flag s') Flag_N = (0x80 <=? v) /\
  flags_frame [Flag_V; Flag__; Flag_B; Flag_D; Flag_I; Flag_C] s s' /\
  regs_frame s s'.

(** The registers after a load, transfer, increment or decrement: A, X and
    Y hold [a], [x] and [y], and Z and N describe [v]. *)
Definition moved (v a x y : Z) (s s' : CPU) : Prop :=
  cpu_acc s' = a /\ cpu_x s' = x /\ cpu_y s' = y /\ loaded v s s'.

(** The handler returns from [s]: the next PC is [len] further, the cycle
    count [cyc] higher, and the state it leaves satisfies [post]. *)
Definition returns (m : M (Z * Z)) (s : CPU) (len cyc : Z) (post : CPU -> Prop) : Prop :=
  exists s', m s = Ok ((cpu_pc s + len, cpu_cycles s + cyc), s') /\ post s'.

Definition rti_flags_ok (p : Z) : bool :=
  Z.land p (Z.lnot Flag_B) mod 0x100 =? Z.land p 0xEF.

(** The mnemonics the class has a handler for *)
Definition implemented (name : mnemonic) : bool :=
  match name with
  | iANC | iALR | iARR | iSBX | iLAS | iJAM => false
  | _ => true
  end.

(** The opcode bytes on which [CPU.run] can return *)
Definition runnable (b : Z) : bool :=
  match dict_get opcodes b with
  | Some i => implemented (instr0 i) && negb (is_BRK (instr0 i))
  | None => false
  end.

(** The PPU after one more cycle, with status bit 7 set or cleared *)
Definition PPU_after (p : PPU) (vblank : bool) (n : Z) : PPU :=
  mkPPU (ppu_control p) (ppu_mask p)
        (if vblank then Z.lor (ppu_status p) 0x80 else Z.land (ppu_status p) (Z.lnot 0x80))
        (ppu_cycles p + n).

(** * Bounds on bytes and on the registers *)

Lemma byte_reg v : byte_ok v -> reg_ok v.
Proof. unfold byte_ok, reg_ok; lia. Qed.

Lemma byte_mod v : byte_ok (v mod 0x100).
Proof. unfold byte_ok. pose proof (Z.mod_pos_bound v 0x100). lia. Qed.

Lemma byte_of_log2 a : 0 <= a -> Z.log2 a < 8 -> byte_ok a.
Proof.
  intros Ha Hl. unfold byte_ok. split; [assumption|].
  destruct (Z.eq_dec a 0) as [->|Hn]; [lia|].
  assert (a < 2 ^ 8) by (apply Z.log2_lt_pow2; lia). lia.
Qed.

Lemma log2_of_byte a : byte_ok a -> Z.log2 a < 8.
Proof.
  unfold byte_ok. intros [H0 H1].
  destruct (Z.eq_dec a 0) as [->|Hn]; [reflexivity|].
  apply Z.log2_lt_pow2; lia.
Qed.

Lemma byte_lor a b : byte_ok a -> byte_ok b -> byte_ok (Z.lor a b).
Proof.
  intros Ha Hb. pose proof (log2_of_byte _ Ha). pose proof (log2_of_byte _ Hb).
  unfold byte_ok in Ha, Hb.
  apply byte_of_log2.
  - apply Z.lor_nonneg; lia.
  - rewrite Z.log2_lor by lia. lia.
Qed.

Lemma byte_lxor a b : byte_ok a -> byte_ok b -> byte_ok (Z.lxor a b).
Proof.
  intros Ha Hb. pose proof (log2_of_byte _ Ha). pose proof (log2_of_byte _ Hb).
  unfold byte_ok in Ha, Hb.
  apply byte_of_log2.
  - apply Z.lxor_nonneg; lia.
  - pose proof (Z.log2_lxor a b). lia.
Qed.

Lemma byte_land_r a d : byte_ok d -> byte_ok (Z.land a d).
Proof.
  intros Hd.
  assert (Hm : Z.land d (Z.ones 8) = d).
  { rewrite Z.land_ones by lia. apply Z.mod_small. unfold byte_ok in Hd. lia. }
  rewrite <- Hm, (Z.land_comm d), Z.land_assoc.
  rewrite Z.land_ones by lia.
  pose proof (byte_mod a) as Ha. change (2 ^ 8) with 0x100.
  pose proof (log2_of_byte _ Ha). pose proof (log2_of_byte _ Hd).
  unfold byte_ok in Ha, Hd.
  apply byte_of_log2.
  - apply Z.land_nonneg; lia.
  - pose proof (Z.log2_land (a mod 0x100) d). lia.
Qed.

Lemma byte_land_l a d : byte_ok a -> byte_ok (Z.land a d).
Proof. intros. rewrite Z.land_comm. now apply byte_land_r. Qed.

Lemma lnot_eq a : Z.lnot a = - a - 1.
Proof. unfold Z.lnot. lia. Qed.

Lemma reg_cases a : reg_ok a -> byte_ok a \/ exists a', byte_ok a' /\ a = Z.lnot a'.
Proof.
  unfold reg_ok, byte_ok. intros H.
  destruct (Z_lt_ge_dec a 0); [right|left; lia].
  exists (Z.lnot a). rewrite Z.lnot_involutive. rewrite lnot_eq. lia.
Qed.

Lemma reg_lnot_byte a : byte_ok a -> reg_ok (Z.lnot a).
Proof. unfold byte_ok, reg_ok. rewrite lnot_eq. lia. Qed.

Lemma reg_lxor a d : reg_ok a -> byte_ok d -> reg_ok (Z.lxor a d).
Proof.
  intros Ha Hd. destruct (reg_cases _ Ha) as [Hb | (a' & Hb & ->)].
  - apply byte_reg, byte_lxor; assumption.
  - rewrite <- Z.lnot_lxor_l. apply reg_lnot_byte, byte_lxor; assumption.
Qed.

Lemma reg_lor a d : reg_ok a -> byte_ok d -> reg_ok (Z.lor a d).
Proof.
  intros Ha Hd. destruct (reg_cases _ Ha) as [Hb | (a' & Hb & ->)].
  - apply byte_reg, byte_lor; assumption.
  - replace (Z.lor (Z.lnot a') d) with (Z.lnot (Z.land a' (Z.lnot d))).
    + apply reg_lnot_byte, byte_land_l; assumption.
    + rewrite Z.lnot_land, Z.lnot_involutive. reflexivity.
Qed.

Lemma reg_land a d : byte_ok d -> reg_ok (Z.land a d).
Proof. intros. now apply byte_reg, byte_land_r. Qed.

Lemma reg_shiftr1 a : reg_ok a -> reg_ok (Z.shiftr a 1).
Proof.
  unfold reg_ok. intros H. rewrite Z.shiftr_div_pow2 by lia.
  change (2 ^ 1) with 2. Z.div_mod_to_equations. lia.
Qed.

Lemma reg_ror a c : reg_ok a -> reg_ok (Z.shiftr a 1 + Z.shiftl (b2z c) 7).
Proof.
  unfold reg_ok. intros H. rewrite Z.shiftr_div_pow2 by lia.
  change (2 ^ 1) with 2. destruct c; cbn [b2z]; [change (Z.shiftl 1 7) with 128 | change (Z.shiftl 0 7) with 0];
  Z.div_mod_to_equations; lia.
Qed.

Lemma byte_forall (P : Z -> bool) :
  forallb P all_bytes = true -> forall d, byte_ok d -> P d = true.
Proof.
  intros H d Hd. rewrite forallb_forall in H. apply H.
  unfold all_bytes. apply in_map_iff. exists (Z.to_nat d).
  unfold byte_ok in Hd. split; [lia|]. apply in_seq. lia.
Qed.

Lemma signed_byte_range d :
  byte_ok d -> -128 <= signed_byte_to_int d 8 <= 127.
Proof.
  intros Hd.
  pose proof (byte_forall
    (fun d => (-128 <=? signed_byte_to_int d 8) && (signed_byte_to_int d 8 <=? 127))
    eq_refl d Hd) as H.
  cbv beta in H. apply andb_true_iff in H. lia.
Qed.

(** * Weakest preconditions for CPU computations *)

Lemma wp_ret {A} (a : A) Q s : Q a s -> wp (ret a) Q s.
Proof. exact (fun H => H). Qed.

Lemma wp_bind {A B} (m : M A) (k : A -> M B) Q s :
  wp m (fun a s' => wp (k a) Q s') s -> wp (bind m k) Q s.
Proof. unfold wp, bind. destruct (m s) as [[a s']|e]; auto. Qed.

Lemma wp_raise {A} e (Q : A -> CPU -> Prop) s : wp (raise e) Q s.
Proof. exact I. Qed.

Lemma wp_gets {A} (f : CPU -> A) Q s : Q (f s) s -> wp (gets f) Q s.
Proof. exact (fun H => H). Qed.

Lemma wp_modify f Q s : Q tt (f s) -> wp (modify f) Q s.
Proof. exact (fun H => H). Qed.

Lemma wp_mono {A} (m : M A) (Q Q' : A -> CPU -> Prop) s :
  wp m Q s -> (forall a s', Q a s' -> Q' a s') -> wp m Q' s.
Proof. unfold wp. destruct (m s) as [[a s']|e]; auto. Qed.

Lemma wp_ok {A} (m : M A) Q s a s' : wp m Q s -> m s = Ok (a, s') -> Q a s'.
Proof. unfold wp. intros H E. rewrite E in H. exact H. Qed.

(** * The state invariant

    ** What the bus returns *)

Lemma in_registers_range m a :
  in_registers (map_byte m a) = true -> 0x2000 <= a <= 0x4014.
Proof.
  unfold map_byte.
  destruct ((0 <=? a) && (a <=? 0x1FFF)) eqn:E1.
  { intros H. exfalso. apply andb_true_iff in E1.
    pose proof (Z.mod_pos_bound a 0x800 eq_refl) as Hb.
    unfold in_registers, REGISTERS in H. cbn [existsb] in H.
    repeat (apply orb_true_iff in H; destruct H as [H|H]); try discriminate; lia. }
  destruct ((0x2000 <=? a) && (a <=? 0x3FFF)) eqn:E2.
  { intros _. apply andb_true_iff in E2. lia. }
  destruct (is_mirror m && (0xC000 <=? a) && (a <=? 0xFFFF)) eqn:E3.
  { intros H. exfalso. apply andb_true_iff in E3. destruct E3 as [E3 E4].
    apply andb_true_iff in E3. destruct E3 as [_ E3].
    unfold in_registers, REGISTERS in H. cbn [existsb] in H.
    repeat (apply orb_true_iff in H; destruct H as [H|H]); try discriminate; lia. }
  intros H. unfold in_registers, REGISTERS in H. cbn [existsb] in H.
  repeat (apply orb_true_iff in H; destruct H as [H|H]); try discriminate; lia.
Qed.

Lemma py_index_range i j : py_index i = Ok j -> 0 <= j < MEM_LEN /\ - MEM_LEN <= i < MEM_LEN.
Proof.
  unfold py_index, MEM_LEN.
  destruct ((0 <=? i) && (i <? 0xFFFF + 1)) eqn:E1.
  { intros [= <-]. apply andb_true_iff in E1. lia. }
  destruct ((- (0xFFFF + 1) <=? i) && (i <? 0)) eqn:E2; [|discriminate].
  intros [= <-]. apply andb_true_iff in E2. lia.
Qed.

Lemma map_byte_range m a j :
  py_index (map_byte m a) = Ok j -> - MEM_LEN <= a < MEM_LEN.
Proof.
  unfold map_byte, MEM_LEN.
  destruct ((0 <=? a) && (a <=? 0x1FFF)) eqn:E1.
  { intros _. apply andb_true_iff in E1. lia. }
  destruct ((0x2000 <=? a) && (a <=? 0x3FFF)) eqn:E2.
  { intros _. apply andb_true_iff in E2. lia. }
  destruct (is_mirror m && (0xC000 <=? a) && (a <=? 0xFFFF)) eqn:E3.
  { intros _. apply andb_true_iff in E3. destruct E3 as [E3 E4].
    apply andb_true_iff in E3. lia. }
  intros H. apply py_index_range in H. unfold MEM_LEN in H. lia.
Qed.

Lemma Memory_read_spec m p a v :
  Memory_read m (Some p) a = Ok v ->
  -65536 <= a <= 65535 /\
  (v = PNone \/ v = PInt (ppu_status p) \/
   exists j, 0 <= j < MEM_LEN /\ v = PInt (mem m j)).
Proof.
  unfold Memory_read.
  destruct (in_registers (map_byte m a)) eqn:E.
  - apply in_registers_range in E. intros [= <-]. split; [lia|].
    unfold PPU_handle_read. destruct (a =? 0x2002); auto.
  - destruct (py_index (map_byte m a)) as [j|e] eqn:Ej; [|discriminate].
    intros [= <-]. pose proof (map_byte_range _ _ _ Ej) as Hr.
    apply py_index_range in Ej. unfold MEM_LEN in Hr. split; [lia|].
    right; right. exists j. tauto.
Qed.

Lemma wp_mem_read a Q s :
  (forall v, -65536 <= a <= 65535 -> Q v s) -> wp (mem_read a) Q s.
Proof.
  intros H. unfold wp, mem_read.
  destruct (Memory_read (cpu_mem s) (Some (cpu_ppu s)) a) as [v|e] eqn:E; [|exact I].
  apply Memory_read_spec in E. apply H. tauto.
Qed.

(** ** Rules for the primitives of the handlers

    Throughout a handler the state stays [good] with respect to the state
    [s0] the handler started in: the rules thread that fact, so that a
    handler is verified by running through its statements once. *)

Section HandlerRules.

Variable s0 : CPU.

Lemma wp_mem_read_int a Q s :
  good s0 s ->
  (forall v, byte_ok v -> -65536 <= a <= 65535 -> Q v s) ->
  wp (mem_read_int a) Q s.
Proof.
  intros G H. unfold wp, mem_read_int, bind, mem_read.
  destruct (Memory_read (cpu_mem s) (Some (cpu_ppu s)) a) as [v|e] eqn:E; [|exact I].
  apply Memory_read_spec in E. destruct E as [Hr Hv].
  destruct (g_store _ _ G) as [Hm Hs].
  destruct Hv as [-> | [-> | (j & Hj & ->)]]; cbn; auto.
Qed.

Lemma store_ok_write s a d m' p' :
  store_ok s ->
  Memory_write (cpu_mem s) (Some (cpu_ppu s)) a d = Ok (m', Some p') ->
  (forall i, 0 <= i < MEM_LEN -> byte_ok (mem m' i)) /\
  byte_ok (ppu_status p') /\ ppu_cycles p' = ppu_cycles (cpu_ppu s).
Proof.
  intros [Hm Hs]. unfold Memory_write.
  destruct (0x8000 <=? a); [intros [= <- <-]; auto|].
  destruct (in_registers (map_byte (cpu_mem s) a)).
  - intros [= <- <-]. split; [assumption|]. unfold PPU_handle_write.
    destruct (a =? 0x2000); [cbn; auto|]. destruct (a =? 0x2001); cbn; auto.
  - destruct (py_index (map_byte (cpu_mem s) a)) as [j|e]; [|discriminate].
    intros [= <- <-]. split; [|auto]. cbn [mem]. intros i Hi. unfold mem_update.
    destruct (i =? j); [apply byte_mod | auto].
Qed.

Lemma Memory_write_some m p a d m' o :
  Memory_write m (Some p) a d = Ok (m', o) -> exists p', o = Some p'.
Proof.
  unfold Memory_write.
  destruct (0x8000 <=? a); [intros [= <- <-]; eauto|].
  destruct (in_registers (map_byte m a)); [intros [= <- <-]; eauto|].
  destruct (py_index (map_byte m a)); [intros [= <- <-]; eauto|discriminate].
Qed.

Lemma wp_mem_write a d Q s :
  good s0 s ->
  (forall s', good s0 s' -> Q tt s') ->
  wp (mem_write a d) Q s.
Proof.
  intros G H. unfold wp, mem_write.
  destruct (Memory_write (cpu_mem s) (Some (cpu_ppu s)) a d) as [[m' o]|e] eqn:E; [|exact I].
  destruct (Memory_write_some _ _ _ _ _ _ E) as [p' ->].
  destruct (store_ok_write _ _ _ _ _ (g_store _ _ G) E) as (Hm & Hs & Hc).
  apply H. destruct G. constructor; cbn; try assumption.
  - split; assumption.
  - congruence.
Qed.

Lemma good_set_flag s f : good s0 s -> good s0 (set_flag f s).
Proof. intros []. constructor; assumption. Qed.

Lemma wp_flag_set F Q s :
  good s0 s -> (forall s', good s0 s' -> Q tt s') -> wp (flag_set F) Q s.
Proof. intros G H. apply H, good_set_flag, G. Qed.

Lemma wp_flag_clear F Q s :
  good s0 s -> (forall s', good s0 s' -> Q tt s') -> wp (flag_clear F) Q s.
Proof. intros G H. apply H, good_set_flag, G. Qed.

Lemma wp_flag_set_byte b Q s :
  good s0 s -> (forall s', good s0 s' -> Q tt s') -> wp (flag_set_byte b) Q s.
Proof. intros G H. apply H, good_set_flag, G. Qed.

Lemma wp_when_flag_set (c : bool) F Q s :
  good s0 s -> (forall s', good s0 s' -> Q tt s') ->
  wp (if c then flag_set F else ret tt) Q s.
Proof. intros G H. destruct c; [eapply wp_flag_set; eassumption | apply H, G]. Qed.

Lemma wp_when_flag_clear (c : bool) F Q s :
  good s0 s -> (forall s', good s0 s' -> Q tt s') ->
  wp (if c then flag_clear F else ret tt) Q s.
Proof. intros G H. destruct c; [eapply wp_flag_clear; eassumption | apply H, G]. Qed.

Lemma wp_set_acc v Q s :
  good s0 s -> reg_ok v -> (forall s', good s0 s' -> Q tt s') -> wp (modify (set_acc v)) Q s.
Proof. intros [] Hv H. apply H. constructor; assumption. Qed.

Lemma wp_set_x v Q s :
  good s0 s -> reg_ok v -> (forall s', good s0 s' -> Q tt s') -> wp (modify (set_x v)) Q s.
Proof. intros [] Hv H. apply H. constructor; assumption. Qed.

Lemma wp_set_y v Q s :
  good s0 s -> reg_ok v -> (forall s', good s0 s' -> Q tt s') -> wp (modify (set_y v)) Q s.
Proof. intros [] Hv H. apply H. constructor; assumption. Qed.

Lemma wp_set_sp v Q s :
  good s0 s -> reg_ok v -> (forall s', good s0 s' -> Q tt s') -> wp (modify (set_sp v)) Q s.
Proof. intros [] Hv H. apply H. constructor; assumption. Qed.

Lemma wp_stack_push v Q s :
  good s0 s -> (forall s', good s0 s' -> Q tt s') -> wp (stack_push v) Q s.
Proof.
  intros G H. unfold stack_push. apply wp_bind, wp_gets.
  destruct (cpu_sp s <? 0) eqn:E; [apply wp_raise|].
  apply wp_bind. eapply wp_mem_write; [eassumption|]. intros s1 G1.
  eapply wp_set_sp; [eassumption| |assumption].
  pose proof (g_sp _ _ G). unfold reg_ok in *. lia.
Qed.

Lemma wp_stack_pop Q s :
  good s0 s -> (forall v s', byte_ok v -> good s0 s' -> Q v s') -> wp stack_pop Q s.
Proof.
  intros G H. unfold stack_pop. apply wp_bind, wp_gets.
  destruct (cpu_sp s =? 0xFF) eqn:E; [apply wp_raise|].
  apply wp_bind. eapply wp_set_sp; [eassumption| |].
  { pose proof (g_sp _ _ G). unfold reg_ok in *. lia. }
  intros s1 G1. eapply wp_mem_read_int; [eassumption|]. intros v Hv _. auto.
Qed.

End HandlerRules.

Create HintDb regs.
#[local] Hint Resolve g_acc g_x g_y g_sp byte_reg byte_mod reg_lxor reg_lor reg_land
  reg_shiftr1 reg_ror : regs.

(** ** Running through a handler

    [wp_step] applies the rule of the statement at the head of the goal;
    the side conditions on a value written to a register are closed with
    the bounds above ([reg_side]), the final ones on the returned PC and
    cycle count with linear arithmetic ([hpost_side]). *)

Lemma b2z_range b : 0 <= b2z b <= 1.
Proof. destruct b; cbn; lia. Qed.

Ltac reg_side :=
  solve [ eauto 6 with regs
        | match goal with G : good _ ?s |- _ =>
            pose proof (g_sp _ _ G); unfold reg_ok, byte_ok in *; lia end ].

Ltac wp_step :=
  lazymatch goal with
  | |- wp (bind _ _) _ _ => apply wp_bind
  | |- wp (ret _) _ _ => apply wp_ret
  | |- wp (raise _) _ _ => apply wp_raise
  | |- wp (gets _) _ _ => apply wp_gets
  | |- wp (mem_read _) _ _ => apply wp_mem_read; intros ? ?
  | |- wp (mem_read_int _) _ _ => eapply wp_mem_read_int; [eassumption | intros ? ? ?]
  | |- wp (mem_write _ _) _ _ => eapply wp_mem_write; [eassumption | intros ? ?]
  | |- wp (flag_set _) _ _ => eapply wp_flag_set; [eassumption | intros ? ?]
  | |- wp (flag_clear _) _ _ => eapply wp_flag_clear; [eassumption | intros ? ?]
  | |- wp (flag_set_byte _) _ _ => eapply wp_flag_set_byte; [eassumption | intros ? ?]
  | |- wp (if _ then flag_set _ else ret tt) _ _ =>
      eapply wp_when_flag_set; [eassumption | intros ? ?]
  | |- wp (if _ then flag_clear _ else ret tt) _ _ =>
      eapply wp_when_flag_clear; [eassumption | intros ? ?]
  | |- wp (modify (set_acc _)) _ _ =>
      eapply wp_set_acc; [eassumption | reg_side | intros ? ?]
  | |- wp (modify (set_x _)) _ _ =>
      eapply wp_set_x; [eassumption | reg_side | intros ? ?]
  | |- wp (modify (set_y _)) _ _ =>
      eapply wp_set_y; [eassumption | reg_side | intros ? ?]
  | |- wp (modify (set_sp _)) _ _ =>
      eapply wp_set_sp; [eassumption | reg_side | intros ? ?]
  | |- wp (stack_push _) _ _ => eapply wp_stack_push; [eassumption | intros ? ?]
  | |- wp stack_pop _ _ => eapply wp_stack_pop; [eassumption | intros ? ? ? ?]
  end; cbv beta iota.

Ltac hpost_side :=
  repeat match goal with
         | |- context [b2z ?b] =>
             let H := fresh in pose proof (b2z_range b) as H;
             generalize dependent (b2z b); intros
         end;
  repeat match goal with
         | G : good _ ?s |- context [cpu_pc ?s] => rewrite (g_pc _ _ G)
         | G : good _ ?s |- context [cpu_cycles ?s] => rewrite (g_cycles _ _ G)
         end;
  rewrite ?Z.shiftl_mul_pow2 by lia;
  unfold pc_ok, fetch_ok, byte_ok in *; cbn [fst snd]; lia.

Ltac wp_finish :=
  lazymatch goal with
  | |- hpost _ _ _ => split; [eassumption | split; hpost_side]
  end.

Lemma wp_branch_rule s0 taken i data s :
  good s0 s -> instr1 i = 2 -> 0 <= instr2 i -> 0 <= instr3 i ->
  fetch_ok s0 2 -> byte_ok data ->
  wp (branch taken i data) (hpost s0) s.
Proof.
  intros G H1 H2 H3 Hf Hd. unfold branch.
  pose proof (signed_byte_range _ Hd).
  repeat wp_step.
  destruct taken.
  - destruct (negb _); wp_step; rewrite H1; wp_finish.
  - wp_step; rewrite H1; wp_finish.
Qed.

Ltac wp_branch_step :=
  lazymatch goal with
  | |- wp (branch _ _ _) (hpost _) _ =>
      eapply wp_branch_rule; [eassumption | reflexivity | cbn; lia | cbn; lia
                             | assumption | assumption]
  end.

Ltac wp_go := repeat wp_step; first [wp_finish | wp_branch_step].

Ltac unfold_handler :=
  cbv [handler_of
       instruction_ADC instruction_AND instruction_ASL instruction_BCC instruction_BCS
       instruction_BEQ instruction_BIT instruction_BMI instruction_BNE instruction_BPL
       instruction_BVC instruction_BVS instruction_CLC instruction_CLD
       instruction_CLI instruction_CLV instruction_CMP instruction_CPX instruction_CPY
       instruction_DEC instruction_DEX instruction_DEY instruction_EOR instruction_INC
       instruction_INX instruction_INY instruction_JMP instruction_JSR instruction_LDA
       instruction_LDX instruction_LDY instruction_LSR instruction_NOP instruction_ORA
       instruction_PHA instruction_PHP instruction_PLA instruction_PLP instruction_ROL
       instruction_ROR instruction_RTI instruction_RTS instruction_SBC instruction_SEC
       instruction_SED instruction_SEI instruction_STA instruction_STX instruction_STY
       instruction_TAX instruction_TAY instruction_TSX instruction_TXA instruction_TXS
       instruction_TYA instruction_iDCP instruction_iISC instruction_iLAX instruction_iNOP
       instruction_iRLA instruction_iRRA instruction_iSAX instruction_iSBC instruction_iSLO
       instruction_iSRE instruction_not_implemented
       adc_core sbc_core compare_mod compare_xy inc_dec_mem inc_dec_reg load_xy store_xy
       transfer rotate_flags set_zn_ge set_zn_and effective_addr index_addr read_ptr
       ret_next ret_next_pbc ret_next_page imm zp zpx abs absxy indx indy
       flag_isset flag_get_byte];
  cbn [Z.eqb Pos.eqb orb andb negb existsb instr0 instr1 instr2 instr3 fst snd].

(** Every handler [CPU.run] can dispatch to, on every opcode of the table:
    each of the 249 entries fixes the opcode byte, so the handler's tests on
    [byte] compute and its body is a straight line of statements. *)
Lemma handler_ok b i :
  In (b, i) opcodes -> is_BRK (instr0 i) = false ->
  forall s data, good s s -> fetch_ok s (instr1 i) -> operand_ok (instr1 i) data ->
  wp (handler_of (instr0 i) b i data) (hpost s) s.
Proof.
  intros HIn.
  unfold opcodes in HIn. cbn [In] in HIn.
  repeat (destruct HIn as [HIn|HIn]; [injection HIn as <- <-|]); [..|contradiction];
  intros HB s data G Hf [Hd2 Hd3]; cbn [instr1] in *;
  try discriminate HB;
  try (specialize (Hd2 eq_refl)); try (specialize (Hd3 eq_refl));
  clear HB.
  all: unfold_handler; wp_go.
Qed.

(** ** CPU.run keeps the invariant *)

Lemma good_refl s : inv s -> good s s.
Proof. intros (H1 & H2 & H3 & H4 & H5 & H6). constructor; auto. Qed.

Lemma dict_get_In d k v : dict_get d k = Some v -> In (k, v) d.
Proof.
  induction d as [|[k' v'] d IH]; cbn; [discriminate|].
  destruct (k' =? k) eqn:E.
  - intros [= <-]. apply Z.eqb_eq in E. subst. now left.
  - intros H. right. auto.
Qed.

Lemma opcodes_len b i : In (b, i) opcodes -> instr1 i = 1 \/ instr1 i = 2 \/ instr1 i = 3.
Proof.
  intros H.
  assert (Hall : forallb len_ok opcodes = true) by reflexivity.
  rewrite forallb_forall in Hall. specialize (Hall _ H).
  unfold len_ok in Hall. cbn [snd] in Hall.
  repeat (apply orb_true_iff in Hall; destruct Hall as [Hall|Hall]);
    apply Z.eqb_eq in Hall; auto.
Qed.

(** A computation that ends in a raise satisfies every postcondition. *)
Lemma wp_bind_any {A B} (m : M A) (k : A -> M B) Q s :
  (forall a s', wp (k a) Q s') -> wp (bind m k) Q s.
Proof. intros H. unfold wp, bind. destruct (m s) as [[a s']|e]; [apply H|exact I]. Qed.

Lemma wp_handle_nmi Q s : wp handle_nmi Q s.
Proof.
  unfold handle_nmi.
  repeat (apply wp_bind_any; intros). apply wp_raise.
Qed.

Lemma byte_status_set v : byte_ok v -> byte_ok (Z.lor v 0x80).
Proof. intros. apply byte_lor; [assumption | unfold byte_ok; lia]. Qed.

Lemma byte_status_clear v : byte_ok v -> byte_ok (Z.land v (Z.lnot 0x80)).
Proof. intros. now apply byte_land_l. Qed.

Lemma wp_PPU_run s : store_ok s -> wp PPU_run (fun _ s' => ppu_step 1 s s') s.
Proof.
  intros [Hm Hs]. unfold PPU_run.
  apply wp_bind, wp_gets. apply wp_bind.
  destruct (CYCLE_POSTRENDER <? ppu_cycles (cpu_ppu s) mod CYCLES_PER_FRAME).
  - apply wp_bind, wp_modify.
    destruct (_ && _); [apply wp_handle_nmi|].
    apply wp_ret. apply wp_bind, wp_gets, wp_modify.
    constructor; cbn; auto. split; [assumption|]. cbn. now apply byte_status_set.
  - apply wp_modify. apply wp_bind, wp_gets, wp_modify.
    constructor; cbn; auto. split; [assumption|]. cbn. now apply byte_status_clear.
Qed.

Lemma wp_repeat_PPU_run n s :
  store_ok s -> wp (repeat_M n PPU_run) (fun _ s' => ppu_step (Z.of_nat n) s s') s.
Proof.
  revert s. induction n as [|n IH]; intros s Hs.
  - cbn [repeat_M]. apply wp_ret. constructor; auto. cbn. lia.
  - cbn [repeat_M]. apply wp_bind.
    eapply wp_mono; [apply wp_PPU_run; assumption|].
    intros [] s1 H1. cbv beta.
    eapply wp_mono; [apply IH; apply (ps_store _ _ _ H1)|].
    intros [] s2 H2. cbv beta.
    constructor;
      [ apply (ps_store _ _ _ H2)
      | rewrite (ps_acc _ _ _ H2); apply (ps_acc _ _ _ H1)
      | rewrite (ps_x _ _ _ H2); apply (ps_x _ _ _ H1)
      | rewrite (ps_y _ _ _ H2); apply (ps_y _ _ _ H1)
      | rewrite (ps_sp _ _ _ H2); apply (ps_sp _ _ _ H1)
      | rewrite (ps_pc _ _ _ H2); apply (ps_pc _ _ _ H1)
      | rewrite (ps_cycles _ _ _ H2); apply (ps_cycles _ _ _ H1)
      | rewrite (ps_ppu _ _ _ H2), (ps_ppu _ _ _ H1); lia ].
Qed.

Lemma wp_mem_read_eq a Q s :
  (forall v, Memory_read (cpu_mem s) (Some (cpu_ppu s)) a = Ok v -> Q v s) ->
  wp (mem_read a) Q s.
Proof.
  intros H. unfold wp, mem_read.
  destruct (Memory_read (cpu_mem s) (Some (cpu_ppu s)) a) as [v|e] eqn:E; [|exact I].
  now apply H.
Qed.

Lemma wp_reread {B} a b (k : Z -> M B) Q s :
  Memory_read (cpu_mem s) (Some (cpu_ppu s)) a = Ok (PInt b) ->
  wp (k b) Q s -> wp (bind (mem_read_int a) k) Q s.
Proof.
  intros E H. unfold wp, bind, mem_read_int, mem_read, bind. rewrite E. exact H.
Qed.

Lemma wp_after_handler s b i data :
  In (b, i) opcodes -> inv s ->
  Memory_read (cpu_mem s) (Some (cpu_ppu s)) (cpu_pc s) = Ok (PInt b) ->
  fetch_ok s (instr1 i) -> operand_ok (instr1 i) data ->
  wp (if is_BRK (instr0 i) then raise Die
      else
        byte <- mem_read_int (cpu_pc s) ;;
        r <- handler_of (instr0 i) byte i data ;;
        modify (set_pc (fst r)) ;;;
        modify (set_cycles (snd r)) ;;;
        cycles <- gets cpu_cycles ;;
        repeat_M (Z.to_nat (cycles - cpu_cycles s)) PPU_run)
     (fun _ s' => run_post s s') s.
Proof.
  intros HIn Hi Hb Hf Hd.
  destruct (is_BRK (instr0 i)) eqn:EB; [apply wp_raise|].
  eapply wp_reread; [eassumption|].
  apply wp_bind.
  eapply wp_mono; [apply handler_ok; auto using good_refl|].
  intros r s1 (G & Hpc & Hc). cbv beta.
  apply wp_bind, wp_modify, wp_bind, wp_modify, wp_bind, wp_gets.
  eapply wp_mono; [apply wp_repeat_PPU_run; apply (g_store _ _ G)|].
  intros [] s2 H2. cbv beta. cbn [cpu_cycles set_cycles set_pc] in H2.
  destruct H2 as [P1 P2 P3 P4 P5 P6 P7 P8]. cbn in P2, P3, P4, P5, P6, P7, P8.
  unfold run_post, inv.
  rewrite P2, P3, P4, P5, P6, P7, P8, (g_ppu _ _ G).
  rewrite Z2Nat.id by lia.
  pose proof (g_acc _ _ G). pose proof (g_x _ _ G). pose proof (g_y _ _ G).
  pose proof (g_sp _ _ G).
  split; [exact (conj P1 (conj H (conj H0 (conj H1 (conj H2 Hpc))))) | split; lia].
Qed.

Lemma from_bytes_1 b : from_bytes_little [b] = b.
Proof. unfold from_bytes_little. cbn [fold_right]. lia. Qed.

Lemma from_bytes_2 b0 b1 : from_bytes_little [b0; b1] = b0 + 256 * b1.
Proof. unfold from_bytes_little. cbn [fold_right]. lia. Qed.

(** One [CPU.run] that returns keeps the invariant and advances the PPU
    counter by the CPU cycles of the instruction. *)
Theorem CPU_run_inv s : inv s -> wp CPU_run (fun _ s' => run_post s s') s.
Proof.
  intros Hi. pose proof (good_refl _ Hi) as G.
  unfold CPU_run. apply wp_bind, wp_gets.
  unfold get_current_instruction, get_instruction_at, get_current_pc_byte.
  apply wp_bind, wp_bind, wp_gets, wp_bind, wp_bind, wp_gets.
  apply wp_mem_read_eq. intros v Hv.
  destruct v as [b|]; [|apply wp_raise].
  destruct (dict_get opcodes b) as [i|] eqn:Ei; [|apply wp_raise].
  apply dict_get_In in Ei. apply wp_ret, wp_bind, wp_gets.
  pose proof (Memory_read_spec _ _ _ _ Hv) as [Hr _].
  apply wp_bind.
  destruct (opcodes_len _ _ Ei) as [Hl | [Hl | Hl]]; rewrite Hl.
  - change (Z.to_nat (1 - 1)) with 0%nat. cbn [read_bytes]. apply wp_ret.
    apply wp_after_handler with (b := b); try assumption.
    + unfold fetch_ok. lia.
    + unfold operand_ok. lia.
  - change (Z.to_nat (2 - 1)) with 1%nat. cbn [read_bytes].
    repeat wp_step. rewrite from_bytes_1.
    apply wp_after_handler with (b := b); try assumption.
    + unfold fetch_ok. lia.
    + unfold operand_ok. split; [auto | lia].
  - change (Z.to_nat (3 - 1)) with 2%nat. cbn [read_bytes].
    repeat wp_step. rewrite from_bytes_2.
    apply wp_after_handler with (b := b); try assumption.
    + unfold fetch_ok. lia.
    + unfold operand_ok, byte_ok in *. split; [lia | lia].
Qed.

(** ** CPU.__init__ and the reachable states *)

Lemma Memory_read_int_vector m a :
  0xC000 <= a <= 0xFFFF ->
  exists j, 0 <= j < MEM_LEN /\ Memory_read m None a = Ok (PInt (mem m j)).
Proof.
  intros Ha. unfold Memory_read, map_byte.
  replace ((0 <=? a) && (a <=? 0x1FFF)) with false by lia.
  replace ((0x2000 <=? a) && (a <=? 0x3FFF)) with false by lia.
  replace (0xC000 <=? a) with true by lia.
  replace (a <=? 0xFFFF) with true by lia.
  rewrite !andb_true_r.
  assert (Hreg : forall v, 0x8000 <= v <= 0xFFFF -> in_registers v = false).
  { intros v Hv. unfold in_registers, REGISTERS. cbn [existsb].
    repeat (apply orb_false_iff; split); try reflexivity; lia. }
  destruct (is_mirror m).
  - rewrite Hreg by lia. exists (a - 0x4000). unfold py_index, MEM_LEN.
    replace ((0 <=? a - 0x4000) && (a - 0x4000 <? 0xFFFF + 1)) with true by lia.
    split; [lia | reflexivity].
  - rewrite Hreg by lia. exists a. unfold py_index, MEM_LEN.
    replace ((0 <=? a) && (a <? 0xFFFF + 1)) with true by lia.
    split; [lia | reflexivity].
Qed.

Lemma CPU_init_ok m f :
  exists jl jh,
    0 <= jl < MEM_LEN /\ 0 <= jh < MEM_LEN /\
    Memory_read m None 0xFFFC = Ok (PInt (mem m jl)) /\
    Memory_read m None 0xFFFD = Ok (PInt (mem m jh)) /\
    CPU_init m f =
      Ok (mkCPU 0xFD (mem m jl + Z.shiftl (mem m jh) 8) 0 0 0 0 m f PPU_new).
Proof.
  destruct (Memory_read_int_vector m 0xFFFC ltac:(lia)) as (jl & Hjl & El).
  destruct (Memory_read_int_vector m 0xFFFD ltac:(lia)) as (jh & Hjh & Eh).
  exists jl, jh. repeat split; try lia; try assumption.
  unfold CPU_init, Memory_read_int. rewrite El, Eh. reflexivity.
Qed.

Lemma word_range lo hi :
  byte_ok lo -> byte_ok hi -> 0 <= lo + Z.shiftl hi 8 <= 0xFFFF.
Proof. unfold byte_ok. intros. rewrite Z.shiftl_mul_pow2 by lia. lia. Qed.



(** * Concrete images and runs *)

Lemma load_bytes_valid bs : forall a f,
  forallb is_byte bs = true -> (forall i, byte_ok (f i)) ->
  forall i, byte_ok (load_bytes bs a f i).
Proof.
  induction bs as [|b t IH]; intros a f Hb Hf i; cbn [load_bytes]; [apply Hf|].
  cbn [forallb] in Hb. apply andb_true_iff in Hb. destruct Hb as [Hb Ht].
  apply IH; [assumption|]. intros j. unfold mem_update.
  destruct (j =? a); [|apply Hf].
  unfold is_byte in Hb. unfold byte_ok. lia.
Qed.

Lemma image_valid parts :
  forallb (fun p => forallb is_byte (snd p)) parts = true -> valid_image (image parts).
Proof.
  intros H i _. unfold image. cbn [mem]. revert i.
  induction parts as [|p ps IH]; intros i; cbn [fold_right].
  - unfold byte_ok. lia.
  - cbn [forallb] in H. apply andb_true_iff in H. destruct H as [Hp Hps].
    apply load_bytes_valid; auto.
Qed.

Lemma repeat_run_reachable n : forall s s',
  reachable s -> repeat_M n CPU_run s = Ok (tt, s') -> reachable s'.
Proof.
  induction n as [|n IH]; intros s s' Hs; cbn [repeat_M].
  - intros [= <-]. assumption.
  - unfold bind at 1. destruct (CPU_run s) as [[[] s1]|e] eqn:E; [|discriminate].
    apply IH. eapply reach_run; eassumption.
Qed.

Lemma observe_boot m n o :
  valid_image m -> observe (boot m n) = Some o ->
  exists s, reachable s /\ regs_of s = o.
Proof.
  intros Hm. unfold boot. destruct (CPU_init m INIT_FLAGS) as [s0|e] eqn:E0; [|discriminate].
  destruct (repeat_M n CPU_run s0) as [[[] s]|e] eqn:E; [|discriminate].
  cbn [observe]. intros [= <-]. exists s. split; [|reflexivity].
  eapply repeat_run_reachable; [|eassumption]. eapply reach_init; eassumption.
Qed.

(** * The scenarios of the specification

    The end-to-end scenarios and boundary cases the specification lists,
    run on the model: LDA #$42; ADC #$10 on A = 0x20; ASL A on A = 0x81;
    JMP $1234; JSR $9000 and the RTS there; ADC 0x50 + 0x50; SBC
    0x50 - 0xF0 with carry set. *)

Example scenario_lda_imm :
  observe (boot (program [0xA9; 0x42]) 1) = Some (0x8002, 0xFD, 0x42, 0, 0, 2, 0x24, 2).
Proof. vm_compute; reflexivity. Qed.

Example scenario_adc :
  observe (boot (program [0xA9; 0x20; 0x18; 0x69; 0x10]) 3)
  = Some (0x8005, 0xFD, 0x30, 0, 0, 6, 0x24, 6).
Proof. vm_compute; reflexivity. Qed.

Example scenario_asl_acc :
  observe (boot (program [0xA9; 0x81; 0x0A]) 2) = Some (0x8003, 0xFD, 0x02, 0, 0, 4, 0x25, 4).
Proof. vm_compute; reflexivity. Qed.

Example scenario_jmp_abs :
  observe (boot (program [0x4C; 0x34; 0x12]) 1) = Some (0x1234, 0xFD, 0, 0, 0, 3, 0x24, 3).
Proof. vm_compute; reflexivity. Qed.

Example scenario_jsr_rts :
  observe (boot image_jsr_rts 1) = Some (0x9000, 0xFB, 0, 0, 0, 6, 0x24, 6) /\
  stack_top_of (boot image_jsr_rts 1) = Some (0x80, 0x02) /\
  observe (boot image_jsr_rts 2) = Some (0x8003, 0xFD, 0, 0, 0, 12, 0x24, 12).
Proof. repeat split; vm_compute; reflexivity. Qed.

Example scenario_adc_overflow :
  observe (boot (program [0xA9; 0x50; 0x18; 0x69; 0x50]) 3)
  = Some (0x8005, 0xFD, 0xA0, 0, 0, 6, 0xE4, 6).
Proof. vm_compute; reflexivity. Qed.

Example scenario_sbc_borrow :
  observe (boot (program [0xA9; 0x50; 0x38; 0xE9; 0xF0]) 3)
  = Some (0x8005, 0xFD, 0x60, 0, 0, 6, 0x24, 6).
Proof. vm_compute; reflexivity. Qed.

(** * The PPU catch-up of CPU.run

    The loop of [CPU.run] calls [PPU.run] once for each CPU cycle the
    instruction took, although its comment says that one CPU cycle is about
    three PPU cycles. *)

(** C1 (refuted on the code): a [CPU.run] that advances the CPU cycle counter
    by d is claimed to advance the PPU cycle counter by 3*d.  After reset on
    an image with NOP at 0x8000, one [CPU.run] takes the CPU cycles from 0
    to 2 and the PPU cycles from 0 to 2, not to 6. *)
Theorem C1_ppu_advances_once_per_cpu_cycle :
  observe (boot image_nop 0) = Some (0x8000, 0xFD, 0, 0, 0, 0, 0x24, 0) /\
  observe (boot image_nop 1) = Some (0x8001, 0xFD, 0, 0, 0, 2, 0x24, 2).
Proof. split; vm_compute; reflexivity. Qed.

(** In general: whenever [CPU.run] returns, the PPU counter has advanced by
    exactly the number of CPU cycles of the instruction. *)
Lemma CPU_run_ppu_catch_up s s' :
  inv s -> CPU_run s = Ok (tt, s') ->
  ppu_cycles (cpu_ppu s') - ppu_cycles (cpu_ppu s) = cpu_cycles s' - cpu_cycles s.
Proof.
  intros Hi Hr. pose proof (wp_ok _ _ _ _ _ (CPU_run_inv s Hi) Hr) as (_ & _ & H). lia.
Qed.

(** * BRK *)

(** C2 (refuted on the code): BRK is claimed to push the high and low byte
    of PC+2 and P with B set, to set I and to load PC from the IRQ/BRK vector
    at 0xFFFE.  After CLI at 0x8000 (PC = 0x8001, P = 0x20), [CPU.run]
    raises "die" on the BRK at 0x8001.  The handler, called in that state,
    pushes 0x80, 0x04 (PC+3) and 0x30, leaves I clear (P = 0x30: reserved
    and B) and returns the NMI vector 0x9000, not the IRQ vector 0xA000. *)
Theorem C2_brk_dies_and_handler_differs :
  observe (boot image_brk 1) = Some (0x8001, 0xFD, 0, 0, 0, 2, 0x20, 2) /\
  boot image_brk 2 = Raise Die /\
  observe_BRK (boot image_brk 1) =
    Some (0x9000, 9, 0xFA, 0x80, 0x04, 0x30, 0x30, false).
Proof. repeat split; vm_compute; reflexivity. Qed.

(** [CPU.run] never dispatches BRK: it raises as soon as the opcode at PC
    is 0x00. *)
Lemma CPU_run_BRK_dies s :
  Memory_read (cpu_mem s) (Some (cpu_ppu s)) (cpu_pc s) = Ok (PInt 0x00) ->
  CPU_run s = Raise Die.
Proof.
  intros H.
  unfold CPU_run, get_current_instruction, get_instruction_at, get_current_pc_byte,
    mem_read, bind, gets.
  rewrite H. reflexivity.
Qed.

(** * Branches *)

(** What a taken branch returns: the page test is on the branch's own
    address [self.pc] and through [page_num]. *)
Lemma branch_taken i data s :
  branch true i data s =
    Ok ((cpu_pc s + instr1 i + signed_byte_to_int data 8,
         cpu_cycles s +
           (if negb (page_num (cpu_pc s) =?
                     page_num (cpu_pc s + instr1 i + signed_byte_to_int data 8))
            then instr2 i + 1 + instr3 i else instr2 i + 1)), s).
Proof.
  unfold branch, bind, gets, ret.
  destruct (negb _); reflexivity.
Qed.

(** C5 (refuted on the code): a taken branch is claimed to cost base + 1
    cycles, plus 1 exactly when the target and the address after the
    instruction lie on different 256-byte pages, and BEQ at 0x01FE with
    offset 2 is claimed to cost 4.  The handler compares [page_num] of the
    branch's own address with that of the target, and [page_num] divides by
    0xFF.  BEQ +0 at 0x807E (Z set) goes to 0x8080, the address after the
    instruction, and costs 4 cycles (2 to 6).  BEQ +2 stored at 0x01FE (Z
    set) goes to 0x0202 and costs 3 cycles (17 to 20); stored at 0x01FC, so
    that 0x01FE is the address after it, it goes to 0x0200 and costs 4
    cycles (17 to 21). *)
Theorem C5_branch_page_penalty :
  (observe (boot image_beq_rom 1) = Some (0x807E, 0xFD, 0, 0, 0, 2, 0x26, 2) /\
   observe (boot image_beq_rom 2) = Some (0x8080, 0xFD, 0, 0, 0, 6, 0x26, 6)) /\
  (observe (boot image_beq_ram 6) = Some (0x01FE, 0xFD, 0, 0, 0, 17, 0x26, 17) /\
   observe (boot image_beq_ram 7) = Some (0x0202, 0xFD, 0, 0, 0, 20, 0x26, 20)) /\
  (observe (boot image_beq_ram_after 6) = Some (0x01FC, 0xFD, 0, 0, 0, 17, 0x26, 17) /\
   observe (boot image_beq_ram_after 7) = Some (0x0200, 0xFD, 0, 0, 0, 21, 0x26, 21)).
Proof. repeat split; vm_compute; reflexivity. Qed.

(** * LDA absolute,X *)

(** C6 (refuted on the code): for opcode 0xBD the page-cross penalty is
    claimed to be added exactly when (op16 & 0xFF) + X > 0xFF, whatever PC
    is.  LDA $0010,X at 0x8000 with X = 0 crosses no page and takes 5
    cycles; the handler called with the same operand and registers returns
    5 cycles at PC = 0x8000 and 4 cycles at PC = 0x00F0. *)
Theorem C6_lda_absx_penalty_depends_on_pc :
  observe (boot image_lda_absx 0) = Some (0x8000, 0xFD, 0, 0, 0, 0, 0x24, 0) /\
  observe (boot image_lda_absx 1) = Some (0x8003, 0xFD, 0, 0, 0, 5, 0x26, 5) /\
  LDA_absx_cycles_at 0x8000 0x0010 (boot image_lda_absx 0) = Some 5 /\
  LDA_absx_cycles_at 0x00F0 0x0010 (boot image_lda_absx 0) = Some 4.
Proof. repeat split; vm_compute; reflexivity. Qed.

(** The rule the handler implements: the penalty compares [page_num] of PC
    with [page_num] of the unmasked effective address. *)
Lemma LDA_absx_cycles s op16 r s' :
  instruction_LDA 0xBD (mkInstr LDA 3 4 1) op16 s = Ok (r, s') ->
  snd r = cpu_cycles s + 4 +
          1 * b2z (negb (page_num (cpu_pc s) =? page_num (op16 + cpu_x s))).
Proof.
  unfold instruction_LDA, effective_addr, ret_next_page, ret_next_pbc, flag_clear, bind, gets,
    modify, ret.
  cbn [Z.eqb Pos.eqb orb andb negb existsb instr1 instr2 instr3].
  destruct (mem_read_int _ _) as [[d s1]|e] eqn:E; [|discriminate].
  unfold mem_read_int, mem_read, bind in E.
  destruct (Memory_read _ _ _) as [[z|]|e]; try discriminate.
  unfold ret in E. injection E as <- <-.
  destruct (z =? 0), (128 <=? z); cbn; intros [= <- <-]; reflexivity.
Qed.

(** * The PPU register mirrors *)

(** C7 (refuted on the code): a read in 0x2000-0x3FFF is claimed to return
    what the read of 0x2000 + (a - 0x2000) mod 8 returns.  [Memory.read]
    maps the address to decide that the PPU is addressed, but hands the
    unmapped address to [PPU.handle_read]: reading 0x2002 returns PPUSTATUS,
    reading its mirror 0x200A returns [None]. *)
Theorem C7_ppustatus_mirror_reads_none m p :
  Memory_read m (Some p) 0x2002 = Ok (PInt (ppu_status p)) /\
  Memory_read m (Some p) 0x200A = Ok PNone /\
  0x2000 + (0x200A - 0x2000) mod 8 = 0x2002.
Proof. repeat split. Qed.

(** Over the whole region, only the address 0x2002 itself reads PPUSTATUS. *)
Lemma Memory_read_ppu_region m p a :
  0x2000 <= a <= 0x3FFF ->
  Memory_read m (Some p) a = Ok (if a =? 0x2002 then PInt (ppu_status p) else PNone).
Proof.
  intros Ha. unfold Memory_read, map_byte.
  replace ((0 <=? a) && (a <=? 0x1FFF)) with false by lia.
  replace ((0x2000 <=? a) && (a <=? 0x3FFF)) with true by lia.
  assert (Hin : in_registers ((a - 0x2000) mod 8 + 0x2000) = true).
  { pose proof (Z.mod_pos_bound (a - 0x2000) 8 eq_refl) as Hb.
    unfold in_registers, REGISTERS. cbn [existsb].
    assert (Hc : (a - 0x2000) mod 8 = 0 \/ (a - 0x2000) mod 8 = 1 \/
                 (a - 0x2000) mod 8 = 2 \/ (a - 0x2000) mod 8 = 3 \/
                 (a - 0x2000) mod 8 = 4 \/ (a - 0x2000) mod 8 = 5 \/
                 (a - 0x2000) mod 8 = 6 \/ (a - 0x2000) mod 8 = 7) by lia.
    repeat (destruct Hc as [Hc|Hc]; [rewrite Hc; reflexivity|]).
    rewrite Hc; reflexivity. }
  rewrite Hin. reflexivity.
Qed.

(** * Writes to ROM *)

(** C8: for every address a >= 0x8000 and every data d, [Memory.write]
    returns with the memory array (and the PPU) unchanged, so that a read of
    a after the write gives what the read gave before it. *)
Theorem C8_rom_write_suppressed m ppu a d (Ha : 0x8000 <= a) :
  Memory_write m ppu a d = Ok (m, ppu) /\
  (forall s, bind (mem_write a d) (fun _ => mem_read a) s = mem_read a s).
Proof.
  assert (E : forall m ppu, Memory_write m ppu a d = Ok (m, ppu)).
  { intros m0 p0. unfold Memory_write. replace (0x8000 <=? a) with true by lia. reflexivity. }
  split; [apply E|].
  intros s. unfold bind, mem_write. rewrite E. destruct s; reflexivity.
Qed.

(** C8 at a = 0x8000, d = 0x42. *)
Lemma C8_witness :
  Memory_write image_nop (Some PPU_new) 0x8000 0x42 = Ok (image_nop, Some PPU_new) /\
  (forall s, bind (mem_write 0x8000 0x42) (fun _ => mem_read 0x8000) s = mem_read 0x8000 s).
Proof. apply (C8_rom_write_suppressed image_nop (Some PPU_new) 0x8000 0x42). lia. Defined.

(** * Flag.set_byte, PLP and RTI *)

Lemma Flag_set_byte_I_reserved b :
  Flag_isset (Flag_set_byte b) Flag_I = true /\
  Flag_isset (Flag_set_byte b) Flag__ = true /\
  Z.land (Flag_get_byte (Flag_set_byte b)) 0x24 = 0x24.
Proof.
  unfold Flag_set_byte.
  destruct (truthy (Z.land b Flag_N)), (truthy (Z.land b Flag_V)),
    (truthy (Z.land b Flag__)), (truthy (Z.land b Flag_B)),
    (truthy (Z.land b Flag_D)), (truthy (Z.land b Flag_I)),
    (truthy (Z.land b Flag_Z)), (truthy (Z.land b Flag_C));
    repeat split; reflexivity.
Qed.

(** C10: after [Flag.set_byte(b)], for any b, the flags I (0x04) and reserved
    (0x20) are set and read as set in [get_byte]; the same holds in the state
    every PLP and every RTI returns in. *)
Theorem C10_set_byte_forces_I_and_reserved :
  (forall b,
     Flag_isset (Flag_set_byte b) Flag_I = true /\
     Flag_isset (Flag_set_byte b) Flag__ = true /\
     Z.land (Flag_get_byte (Flag_set_byte b)) 0x24 = 0x24) /\
  (forall byte instr addr s,
     match instruction_PLP byte instr addr s with
     | Ok (_, s') =>
         Flag_isset (cpu_flag s') Flag_I = true /\
         Z.land (Flag_get_byte (cpu_flag s')) 0x24 = 0x24
     | Raise _ => True
     end) /\
  (forall byte instr addr s,
     match instruction_RTI byte instr addr s with
     | Ok (_, s') =>
         Flag_isset (cpu_flag s') Flag_I = true /\
         Z.land (Flag_get_byte (cpu_flag s')) 0x24 = 0x24
     | Raise _ => True
     end).
Proof.
  split; [exact Flag_set_byte_I_reserved|]. split.
  - intros byte instr addr s. unfold instruction_PLP, bind at 1.
    destruct (stack_pop s) as [[v s1]|e]; [|exact I].
    cbn. pose proof (Flag_set_byte_I_reserved (Z.land v (Z.lnot Flag_B))). tauto.
  - intros byte instr addr s. unfold instruction_RTI, bind at 1.
    destruct (stack_pop s) as [[v s1]|e]; [|exact I].
    unfold bind at 1. destruct (stack_pop s1) as [[lo s2]|e]; [|exact I].
    unfold bind at 1. destruct (stack_pop s2) as [[hi s3]|e]; [|exact I].
    cbn. pose proof (Flag_set_byte_I_reserved (Z.land v (Z.lnot Flag_B))). tauto.
Qed.

(** PLP does return, with I set, when the byte it pulls is zero; so does
    RTI (LDA #$80; PHA; LDA #$10; PHA; LDA #$00; PHA; RTI returns to
    0x8010). *)
Example PLP_of_zero_sets_I :
  observe (boot image_pla_zero 3) = Some (0x8004, 0xFD, 0, 0, 0, 9, 0x24, 9).
Proof. vm_compute; reflexivity. Qed.

Example RTI_of_zero_sets_I :
  observe (boot (program [0xA9; 0x80; 0x48; 0xA9; 0x10; 0x48; 0xA9; 0x00; 0x48; 0x40]) 7)
  = Some (0x8010, 0xFD, 0, 0, 0, 21, 0x24, 21).
Proof. vm_compute; reflexivity. Qed.

(** * PHP followed by PLP *)

(** C3 fails as stated: after CLI the status is 0x20 (I clear); PHP then PLP
    leave it at 0x24 (I set), which differs from 0x20 also when B is
    ignored. *)
Lemma C3_counterexample :
  observe (boot image_cli_php_plp 1) = Some (0x8001, 0xFD, 0, 0, 0, 2, 0x20, 2) /\
  observe (boot image_cli_php_plp 2) = Some (0x8002, 0xFC, 0, 0, 0, 5, 0x20, 5) /\
  observe (boot image_cli_php_plp 3) = Some (0x8003, 0xFD, 0, 0, 0, 9, 0x24, 9) /\
  Z.land 0x24 (Z.lnot Flag_B) <> Z.land 0x20 (Z.lnot Flag_B).
Proof. repeat split; try (vm_compute; reflexivity). vm_compute. discriminate. Qed.

Lemma in_registers_ram a : 0 <= a < 0x800 -> in_registers a = false.
Proof.
  intros Ha. unfold in_registers, REGISTERS. cbn [existsb].
  repeat (apply orb_false_iff; split); try reflexivity; lia.
Qed.

Lemma map_byte_ram m a : 0 <= a < 0x800 -> map_byte m a = a.
Proof.
  intros Ha. unfold map_byte.
  replace ((0 <=? a) && (a <=? 0x1FFF)) with true by lia.
  apply Z.mod_small. lia.
Qed.

Lemma py_index_ram a : 0 <= a < 0x800 -> py_index a = Ok a.
Proof.
  intros Ha. unfold py_index, MEM_LEN.
  replace ((0 <=? a) && (a <? 0xFFFF + 1)) with true by lia. reflexivity.
Qed.

Lemma Memory_write_ram m p a d :
  0 <= a < 0x800 ->
  Memory_write m p a d =
    Ok (mkMemory (mem_update (mem m) a (d mod 0x100)) (is_mirror m), p).
Proof.
  intros Ha. unfold Memory_write.
  replace (0x8000 <=? a) with false by lia.
  rewrite map_byte_ram, in_registers_ram, py_index_ram by assumption. reflexivity.
Qed.

Lemma Memory_read_ram m p a : 0 <= a < 0x800 -> Memory_read m p a = Ok (PInt (mem m a)).
Proof.
  intros Ha. unfold Memory_read.
  rewrite map_byte_ram, in_registers_ram, py_index_ram by assumption. reflexivity.
Qed.

Lemma pushed_P_bits p : Z.land ((Z.lor p Flag_B) mod 0x100) 0xCB = Z.land p 0xCB.
Proof.
  change 0x100 with (2 ^ 8). rewrite <- Z.land_ones by lia.
  rewrite <- Z.land_assoc. change (Z.land (Z.ones 8) 0xCB) with 0xCB.
  rewrite Z.land_lor_distr_l. change (Z.land Flag_B 0xCB) with 0.
  apply Z.lor_0_r.
Qed.

(** C3 (amended): in every state with 0 <= SP <= 0xFF, PHP followed by PLP
    returns, restores SP and leaves P = (P_before & 0xCB) | 0x24: N, V, D, Z
    and C are restored, B is clear, I and the reserved bit are set whatever
    they were before. *)
Theorem C3_php_plp_round_trip s (Hsp : 0 <= cpu_sp s <= 0xFF) :
  exists r s',
    (instruction_PHP 0x08 (mkInstr PHP 1 3 0) 0 ;;;
     instruction_PLP 0x28 (mkInstr PLP 1 4 0) 0) s = Ok (r, s') /\
    Flag_get_byte (cpu_flag s') = Z.lor (Z.land (Flag_get_byte (cpu_flag s)) 0xCB) 0x24 /\
    Flag_isset (cpu_flag s') Flag_B = false /\
    cpu_sp s' = cpu_sp s.
Proof.
  set (p := Flag_get_byte (cpu_flag s)).
  set (v := (Z.lor p Flag_B) mod 0x100).
  assert (Hv : byte_ok v) by apply byte_mod.
  pose proof (byte_forall pulled_ok eq_refl v Hv) as Hp.
  unfold pulled_ok in Hp. apply andb_true_iff in Hp. destruct Hp as [Hp1 Hp2].
  apply Z.eqb_eq in Hp1. apply negb_true_iff in Hp2.
  unfold v in Hp1 at 2. rewrite pushed_P_bits in Hp1.
  unfold instruction_PHP, instruction_PLP, stack_push, stack_pop, flag_get_byte,
    flag_set_byte, ret_next, mem_write, mem_read_int, mem_read, bind, gets, modify, ret, raise.
  replace (cpu_sp s <? 0) with false by lia.
  rewrite Memory_write_ram by lia.
  cbn [cpu_sp set_sp set_ppu set_mem cpu_mem cpu_ppu cpu_flag].
  replace (cpu_sp s - 1 =? 0xFF) with false by lia.
  replace (0x100 + (cpu_sp s - 1 + 1)) with (0x100 + cpu_sp s) by lia.
  rewrite Memory_read_ram by lia.
  do 2 eexists. split; [reflexivity|].
  cbn [cpu_flag set_flag cpu_sp set_sp cpu_mem set_mem set_ppu mem].
  unfold mem_update. rewrite Z.eqb_refl, Z.mod_mod by lia. fold p. fold v.
  split; [exact Hp1 | split; [exact Hp2 | lia]].
Qed.

(** C3 (amended) in the state after reset and CLI. *)
Lemma C3_witness :
  exists r s',
    (instruction_PHP 0x08 (mkInstr PHP 1 3 0) 0 ;;;
     instruction_PLP 0x28 (mkInstr PLP 1 4 0) 0)
      (mkCPU 0xFD 0x8000 0 0 0 0 image_cli_php_plp [Flag__] PPU_new) = Ok (r, s') /\
    Flag_get_byte (cpu_flag s') = Z.lor (Z.land (Flag_get_byte [Flag__]) 0xCB) 0x24 /\
    Flag_isset (cpu_flag s') Flag_B = false /\
    cpu_sp s' = 0xFD.
Proof.
  apply (C3_php_plp_round_trip (mkCPU 0xFD 0x8000 0 0 0 0 image_cli_php_plp [Flag__] PPU_new)).
  cbn [cpu_sp]. lia.
Defined.

(** * Reset *)

(** What [CPU(mem)] leaves on a prepared image: PC is the little-endian
    16-bit word read from the bus at 0xFFFC/0xFFFD, SP = 0xFD,
    A = X = Y = 0, the cycle counter is 0, and the flags are the list
    [Flag.enabled_flags] holds at that moment, whatever it is. *)
Lemma CPU_init_state m enabled_flags :
  valid_image m ->
  exists lo hi s,
    Memory_read m None 0xFFFC = Ok (PInt lo) /\
    Memory_read m None 0xFFFD = Ok (PInt hi) /\
    CPU_init m enabled_flags = Ok s /\
    cpu_pc s = lo + Z.shiftl hi 8 /\ 0 <= cpu_pc s <= 0xFFFF /\
    cpu_sp s = 0xFD /\
    cpu_flag s = enabled_flags /\
    cpu_acc s = 0 /\ cpu_x s = 0 /\ cpu_y s = 0 /\ cpu_cycles s = 0.
Proof.
  intros Hm.
  destruct (CPU_init_ok m enabled_flags) as (jl & jh & Hjl & Hjh & El & Eh & E).
  exists (mem m jl), (mem m jh). eexists.
  split; [exact El|]. split; [exact Eh|]. split; [exact E|].
  cbn [cpu_pc cpu_sp cpu_flag cpu_acc cpu_x cpu_y cpu_cycles].
  split; [reflexivity|]. split; [apply word_range; apply Hm; assumption|].
  repeat split.
Qed.

(** In the first CPU of a process the list is the one of the class body,
    and P = 0x24. *)
Lemma CPU_init_first m s :
  CPU_init m INIT_FLAGS = Ok s ->
  cpu_flag s = [Flag__; Flag_I] /\ Flag_get_byte (cpu_flag s) = 0x24.
Proof.
  intros Hs.
  destruct (CPU_init_ok m INIT_FLAGS) as (jl & jh & _ & _ & _ & _ & E).
  rewrite E in Hs. injection Hs as <-. split; reflexivity.
Qed.

(** As long as the Flag instance of the CPU has no list of its own, the
    class attribute holds the flags of that CPU. *)
Lemma Process_new_shares f m p :
  Process_new f m = Ok p ->
  flag_own p = false /\ class_enabled_flags p = cpu_flag (process_cpu p).
Proof.
  unfold Process_new. intros Hp.
  destruct (CPU_init_ok m f) as (jl & jh & _ & _ & _ & _ & E).
  rewrite E in Hp. injection Hp as <-. split; reflexivity.
Qed.

Lemma Process_run_shares p p' :
  Process_run p = Ok p' -> flag_own p' = false ->
  flag_own p = false /\ class_enabled_flags p' = cpu_flag (process_cpu p').
Proof.
  unfold Process_run. intros Hp.
  destruct (get_current_instruction (process_cpu p)) as [[i d]|e]; [|discriminate].
  destruct (CPU_run (process_cpu p)) as [[u s']|e]; [|discriminate].
  injection Hp as <-. cbn [flag_own class_enabled_flags process_cpu].
  intros Ho. rewrite Ho. apply orb_false_iff in Ho. split; [tauto | reflexivity].
Qed.

(** A CPU constructed with the class attribute left by another one starts
    with the flags of that one. *)
Lemma Process_again_flags p m p' :
  Process_again p m = Ok p' ->
  cpu_flag (process_cpu p') = class_enabled_flags p.
Proof.
  unfold Process_again, Process_new. intros Hp.
  destruct (CPU_init_ok m (class_enabled_flags p)) as (jl & jh & _ & _ & _ & _ & E).
  rewrite E in Hp. injection Hp as <-. reflexivity.
Qed.

(** C4 fails on the code for a CPU that is not the first of its process:
    [Flag] has no [__init__], so [Flag()] shares the class-level list that
    [set] and [clear] of the CPUs before it have mutated.  The first CPU on
    the image with SEC; CLI starts as the claim says, with P = 0x24; after
    its two instructions P = 0x21, and a second [CPU(mem)] on the same
    image starts with PC, SP, A, X, Y and the cycle counter as claimed but
    P = 0x21 (reserved and C, with I clear). *)
Theorem C4_reset_flags_inherited :
  exists p1 p2 p3,
    Process_new INIT_FLAGS image_sec_cli = Ok p1 /\
    regs_of (process_cpu p1) = (0x8000, 0xFD, 0, 0, 0, 0, 0x24, 0) /\
    Process_runs 2 p1 = Ok p2 /\
    regs_of (process_cpu p2) = (0x8002, 0xFD, 0, 0, 0, 4, 0x21, 4) /\
    Process_again p2 image_sec_cli = Ok p3 /\
    regs_of (process_cpu p3) = (0x8000, 0xFD, 0, 0, 0, 0, 0x21, 0) /\
    cpu_flag (process_cpu p3) = [Flag__; Flag_C] /\
    Flag_isset (cpu_flag (process_cpu p3)) Flag_I = false.
Proof.
  do 3 eexists.
  split; [vm_compute; reflexivity|].
  split; [vm_compute; reflexivity|].
  split; [vm_compute; reflexivity|].
  split; [vm_compute; reflexivity|].
  split; [vm_compute; reflexivity|].
  split; [vm_compute; reflexivity|].
  split; vm_compute; reflexivity.
Qed.

(** * Register widths *)

(** ** A, X and Y are bytes and SP is at least -1

    Every handler masks what it writes to A, X and Y, and the stack pointer
    moves by the guarded push and pop, with one exception: TSX copies SP as
    it is, so that after a push at SP = 0 it puts -1 into X.  The rules
    below follow the handlers with [masked] as the invariant; TSX keeps it
    when SP is not negative. *)

Lemma byte_shiftr1 a : byte_ok a -> byte_ok (Z.shiftr a 1).
Proof.
  unfold byte_ok. intros H. rewrite Z.shiftr_div_pow2 by lia.
  change (2 ^ 1) with 2. Z.div_mod_to_equations. lia.
Qed.

Lemma byte_ror a c : byte_ok a -> byte_ok (Z.shiftr a 1 + Z.shiftl (b2z c) 7).
Proof.
  unfold byte_ok. intros H. rewrite Z.shiftr_div_pow2 by lia.
  change (2 ^ 1) with 2.
  destruct c; cbn [b2z];
    [change (Z.shiftl 1 7) with 128 | change (Z.shiftl 0 7) with 0];
    Z.div_mod_to_equations; lia.
Qed.




Lemma mwp_flag (f : CPU -> CPU) (Q : unit -> CPU -> Prop) s :
  (forall s, masked s -> masked (f s)) ->
  masked s -> (forall s', masked s' -> Q tt s') -> wp (modify f) Q s.
Proof. intros Hf G H. apply H, Hf, G. Qed.













Create HintDb bytes.
#[local] Hint Resolve m_acc m_x m_y byte_mod byte_lxor byte_lor byte_land_l byte_land_r
  byte_shiftr1 byte_ror : bytes.

















(** The bounds of PC are met: BNE +127 at 0xFFFE leaves PC = 65663, and a
    chain of backward branches, fetched through negative indices of the
    bytearray, leaves PC = -65662. *)
Example pc_bounds_attained :
  observe (boot image_branch_top 1) = Some (65663, 0xFD, 0, 0, 0, 4, 0x24, 4) /\
  boot_never_TSX_below_stack image_branch_chain 522 = true /\
  option_map (fun r => fst (fst (fst (fst (fst (fst (fst r)))))))
    (observe (boot image_branch_chain 522)) = Some (-65662).
Proof. split; [|split]; vm_compute; reflexivity. Qed.

(** What the runs above leave out: TSX after a push at SP = 0 copies -1
    into X; TXA and EOR #$FF turn it into -256, which TAX and TXS copy on. *)
Example register_bounds_attained :
  observe (boot image_stack_full 4) = Some (0x8005, -1, 0, -1, 0, 9, 0xA4, 9) /\
  observe (boot image_stack_full 8) = Some (0x800A, -256, -256, -256, 0, 17, 0x24, 17).
Proof. split; vm_compute; reflexivity. Qed.


(** * The bus: mirrors, round trips and frames *)

Lemma map_byte_low m a : 0 <= a <= 0x1FFF -> map_byte m a = a mod 0x800.
Proof.
  intros Ha. unfold map_byte.
  replace ((0 <=? a) && (a <=? 0x1FFF)) with true by lia. reflexivity.
Qed.

Lemma in_registers_iff a :
  in_registers a = true <-> (0x2000 <= a <= 0x2007 \/ a = 0x4014).
Proof.
  unfold in_registers, REGISTERS. cbn [existsb]. rewrite !orb_true_iff, !Z.eqb_eq. lia.
Qed.

Lemma in_registers_false a :
  ~ (0x2000 <= a <= 0x2007 \/ a = 0x4014) -> in_registers a = false.
Proof.
  intros H. destruct (in_registers a) eqn:E; [|reflexivity].
  apply in_registers_iff in E. contradiction.
Qed.

Lemma Memory_read_low m ppu b :
  0 <= b <= 0x1FFF -> Memory_read m ppu b = Ok (PInt (mem m (b mod 0x800))).
Proof.
  intros Hb. pose proof (Z.mod_pos_bound b 0x800 eq_refl).
  unfold Memory_read. rewrite map_byte_low by assumption.
  rewrite in_registers_false by lia. rewrite py_index_ram by lia. reflexivity.
Qed.

(** X1: the 2 KiB of RAM are read through every address of 0x0000 .. 0x1FFF:
    a read returns the cell at the address modulo 0x800, and so the same
    value as a read at that reduced address. *)
Theorem Memory_read_ram_mirror m ppu a (Ha : 0 <= a <= 0x1FFF) :
  Memory_read m ppu a = Ok (PInt (mem m (a mod 0x800))) /\
  Memory_read m ppu a = Memory_read m ppu (a mod 0x800).
Proof.
  pose proof (Z.mod_pos_bound a 0x800 eq_refl) as Hb.
  split; [apply Memory_read_low; assumption|].
  rewrite (Memory_read_low m ppu a Ha), (Memory_read_low m ppu (a mod 0x800)) by lia.
  rewrite Z.mod_mod by lia. reflexivity.
Qed.

Lemma Memory_read_ram_mirror_witness :
  Memory_read image_nop None 0x1805 = Ok (PInt (mem image_nop (0x1805 mod 0x800))) /\
  Memory_read image_nop None 0x1805 = Memory_read image_nop None (0x1805 mod 0x800).
Proof. apply (Memory_read_ram_mirror image_nop None 0x1805). lia. Defined.

(** X2: a byte written at an address of 0x0000 .. 0x1FFF is what a read
    returns at every address of that range with the same remainder modulo
    0x800: the value written, reduced modulo 256. *)
Theorem Memory_write_read_ram m ppu a b d
  (Ha : 0 <= a <= 0x1FFF) (Hb : 0 <= b <= 0x1FFF) (Hab : a mod 0x800 = b mod 0x800) :
  exists m',
    Memory_write m ppu a d = Ok (m', ppu) /\
    Memory_read m' ppu b = Ok (PInt (d mod 0x100)) /\
    is_mirror m' = is_mirror m.
Proof.
  pose proof (Z.mod_pos_bound a 0x800 eq_refl) as Hma.
  eexists. split; [|split].
  - unfold Memory_write. replace (0x8000 <=? a) with false by lia.
    rewrite map_byte_low by assumption. rewrite in_registers_false by lia.
    rewrite py_index_ram by lia. reflexivity.
  - rewrite (Memory_read_low _ ppu b Hb). cbn [mem].
    unfold mem_update. rewrite Hab, Z.eqb_refl. reflexivity.
  - reflexivity.
Qed.

Lemma Memory_write_read_ram_witness :
  exists m',
    Memory_write image_nop None 0x0005 0x1AB = Ok (m', None) /\
    Memory_read m' None 0x1805 = Ok (PInt (0x1AB mod 0x100)) /\
    is_mirror m' = is_mirror image_nop.
Proof.
  apply (Memory_write_read_ram image_nop None 0x0005 0x1805 0x1AB); [lia | lia | reflexivity].
Defined.

Lemma map_byte_nonneg m a : 0 <= a -> 0 <= map_byte m a.
Proof.
  intros Ha. unfold map_byte.
  destruct ((0 <=? a) && (a <=? 0x1FFF)).
  { pose proof (Z.mod_pos_bound a 0x800 eq_refl). lia. }
  destruct ((0x2000 <=? a) && (a <=? 0x3FFF)).
  { pose proof (Z.mod_pos_bound (a - 0x2000) 8 eq_refl). lia. }
  destruct (is_mirror m && (0xC000 <=? a) && (a <=? 0xFFFF)) eqn:E; [|lia].
  apply andb_true_iff in E. destruct E as [E _]. apply andb_true_iff in E. lia.
Qed.

Lemma py_index_nonneg i j : 0 <= i -> py_index i = Ok j -> j = i.
Proof.
  intros Hi. unfold py_index.
  destruct ((0 <=? i) && (i <? MEM_LEN)); [congruence|].
  replace ((- MEM_LEN <=? i) && (i <? 0)) with false by lia. discriminate.
Qed.

(** X3: a write that returns, at an address from 0 on, changes the result
    of no read at an address from 0 on that is mapped to another cell; a
    write that goes to the PPU changes the result of no read at all. *)
Theorem Memory_write_frame m ppu a d m' ppu' b
  (Ha : 0 <= a) (Hb : 0 <= b)
  (Hw : Memory_write m (Some ppu) a d = Ok (m', ppu'))
  (Hab : map_byte m b <> map_byte m a \/ in_registers (map_byte m a) = true) :
  exists p', ppu' = Some p' /\
    Memory_read m' (Some p') b = Memory_read m (Some ppu) b.
Proof.
  unfold Memory_write in Hw.
  destruct (0x8000 <=? a) eqn:Ea.
  { injection Hw as <- <-. eauto. }
  destruct (in_registers (map_byte m a)) eqn:Er.
  - injection Hw as <- <-. eexists. split; [reflexivity|].
    unfold Memory_read. destruct (in_registers (map_byte m b)); [|reflexivity].
    unfold PPU_handle_read, PPU_handle_write.
    destruct (b =? 0x2002); [|reflexivity].
    destruct (a =? 0x2000); [reflexivity|]. destruct (a =? 0x2001); reflexivity.
  - destruct Hab as [Hab|Hab]; [|discriminate].
    destruct (py_index (map_byte m a)) as [i|e] eqn:Ei; [|discriminate].
    injection Hw as <- <-. eexists. split; [reflexivity|].
    unfold Memory_read.
    change (map_byte {| mem := mem_update (mem m) i (d mod 256); is_mirror := is_mirror m |} b)
      with (map_byte m b).
    destruct (in_registers (map_byte m b)); [reflexivity|].
    destruct (py_index (map_byte m b)) as [j|e] eqn:Ej; [|reflexivity].
    cbn [mem]. unfold mem_update.
    destruct (j =? i) eqn:Eji; [|reflexivity].
    exfalso. apply Z.eqb_eq in Eji. subst j.
    apply py_index_nonneg in Ei; [|apply map_byte_nonneg; assumption].
    apply py_index_nonneg in Ej; [|apply map_byte_nonneg; assumption].
    congruence.
Qed.

(** A write to the RAM cell 5 and a read of the cell 6 *)
Lemma Memory_write_frame_witness :
  exists p', Some PPU_new = Some p' /\
    Memory_read (mkMemory (mem_update (mem image_nop) 0x5 (0x42 mod 0x100)) false)
                (Some p') 0x6
    = Memory_read image_nop (Some PPU_new) 0x6.
Proof.
  apply (Memory_write_frame image_nop PPU_new 0x5 0x42 _ (Some PPU_new) 0x6);
    [lia | lia | reflexivity | left; vm_compute; discriminate].
Defined.

(** X4: with [is_mirror] set, a read in 0xC000 .. 0xFFFF returns the cell
    0x4000 below, the same value as a read at that lower address. *)
Theorem Memory_read_rom_mirror m ppu a
  (Hm : is_mirror m = true) (Ha : 0xC000 <= a <= 0xFFFF) :
  Memory_read m ppu a = Ok (PInt (mem m (a - 0x4000))) /\
  Memory_read m ppu a = Memory_read m ppu (a - 0x4000).
Proof.
  assert (E1 : map_byte m a = a - 0x4000).
  { unfold map_byte. rewrite Hm.
    replace ((0 <=? a) && (a <=? 0x1FFF)) with false by lia.
    replace ((0x2000 <=? a) && (a <=? 0x3FFF)) with false by lia.
    replace (true && (0xC000 <=? a) && (a <=? 0xFFFF)) with true by lia. reflexivity. }
  assert (E2 : map_byte m (a - 0x4000) = a - 0x4000).
  { unfold map_byte. rewrite Hm.
    replace ((0 <=? a - 0x4000) && (a - 0x4000 <=? 0x1FFF)) with false by lia.
    replace ((0x2000 <=? a - 0x4000) && (a - 0x4000 <=? 0x3FFF)) with false by lia.
    replace (true && (0xC000 <=? a - 0x4000) && (a - 0x4000 <=? 0xFFFF)) with false by lia.
    reflexivity. }
  assert (E3 : py_index (a - 0x4000) = Ok (a - 0x4000)).
  { unfold py_index, MEM_LEN.
    replace ((0 <=? a - 0x4000) && (a - 0x4000 <? 0xFFFF + 1)) with true by lia. reflexivity. }
  unfold Memory_read. rewrite E1, E2, in_registers_false, E3 by lia. split; reflexivity.
Qed.

Lemma Memory_read_rom_mirror_witness :
  Memory_read (mkMemory (mem image_nop) true) None 0xFFFC
    = Ok (PInt (mem (mkMemory (mem image_nop) true) (0xFFFC - 0x4000))) /\
  Memory_read (mkMemory (mem image_nop) true) None 0xFFFC
    = Memory_read (mkMemory (mem image_nop) true) None (0xFFFC - 0x4000).
Proof.
  apply (Memory_read_rom_mirror (mkMemory (mem image_nop) true) None 0xFFFC);
    [reflexivity | lia].
Defined.

Lemma map_byte_range16 m a : 0 <= a <= 0xFFFF -> 0 <= map_byte m a <= 0xFFFF.
Proof.
  intros Ha. split; [apply map_byte_nonneg; lia|]. unfold map_byte.
  destruct ((0 <=? a) && (a <=? 0x1FFF)).
  { pose proof (Z.mod_pos_bound a 0x800 eq_refl). lia. }
  destruct ((0x2000 <=? a) && (a <=? 0x3FFF)).
  { pose proof (Z.mod_pos_bound (a - 0x2000) 8 eq_refl). lia. }
  destruct (is_mirror m && (0xC000 <=? a) && (a <=? 0xFFFF)); lia.
Qed.

Lemma map_byte_outside m a : a < 0 \/ 0xFFFF < a -> map_byte m a = a.
Proof.
  intros Ha. unfold map_byte.
  replace ((0 <=? a) && (a <=? 0x1FFF)) with false by lia.
  replace ((0x2000 <=? a) && (a <=? 0x3FFF)) with false by lia.
  replace (is_mirror m && (0xC000 <=? a) && (a <=? 0xFFFF)) with false
    by (destruct (is_mirror m); lia).
  reflexivity.
Qed.

(** X5: with the PPU attached, a read returns exactly on the addresses
    -0x10000 .. 0xFFFF; on every other address it raises IndexError, and it
    raises nothing else. *)
Theorem Memory_read_domain m p a :
  match Memory_read m (Some p) a with
  | Ok _ => - MEM_LEN <= a <= 0xFFFF
  | Raise e => e = IndexError /\ (a < - MEM_LEN \/ 0xFFFF < a)
  end.
Proof.
  unfold MEM_LEN.
  destruct (Z_lt_dec a 0) as [Hn|Hn]; [|destruct (Z_le_dec a 0xFFFF) as [Hu|Hu]].
  - unfold Memory_read. rewrite map_byte_outside, in_registers_false by lia.
    unfold py_index, MEM_LEN.
    replace ((0 <=? a) && (a <? 0xFFFF + 1)) with false by lia.
    destruct ((- (0xFFFF + 1) <=? a) && (a <? 0)) eqn:E; [lia|].
    split; [reflexivity | lia].
  - unfold Memory_read.
    destruct (in_registers (map_byte m a)); [lia|].
    pose proof (map_byte_range16 m a ltac:(lia)) as Hr.
    unfold py_index, MEM_LEN.
    replace ((0 <=? map_byte m a) && (map_byte m a <? 0xFFFF + 1)) with true by lia. lia.
  - unfold Memory_read. rewrite map_byte_outside, in_registers_false by lia.
    unfold py_index, MEM_LEN.
    replace ((0 <=? a) && (a <? 0xFFFF + 1)) with false by lia.
    replace ((- (0xFFFF + 1) <=? a) && (a <? 0)) with false by lia.
    split; [reflexivity | lia].
Qed.

(** X6: a negative address down to -0x10000 is not mapped: it reads and
    writes the cell counted from the end of the array, without mirroring,
    without the PPU and without the guard on the ROM area. *)
Theorem Memory_negative_address m ppu a d (Ha : - MEM_LEN <= a < 0) :
  Memory_read m ppu a = Ok (PInt (mem m (a + MEM_LEN))) /\
  Memory_write m ppu a d =
    Ok (mkMemory (mem_update (mem m) (a + MEM_LEN) (d mod 0x100)) (is_mirror m), ppu).
Proof.
  unfold MEM_LEN in *.
  assert (Ei : py_index a = Ok (a + MEM_LEN)).
  { unfold py_index, MEM_LEN.
    replace ((0 <=? a) && (a <? 0xFFFF + 1)) with false by lia.
    replace ((- (0xFFFF + 1) <=? a) && (a <? 0)) with true by lia. reflexivity. }
  split.
  - unfold Memory_read. rewrite map_byte_outside, in_registers_false, Ei by lia. reflexivity.
  - unfold Memory_write. replace (0x8000 <=? a) with false by lia.
    rewrite map_byte_outside, in_registers_false, Ei by lia. reflexivity.
Qed.

(** At a = -1 the write reaches the last cell of the ROM area, the high byte
    of the IRQ vector. *)
Lemma Memory_negative_address_witness :
  Memory_read image_nop None (-1) = Ok (PInt (mem image_nop (-1 + MEM_LEN))) /\
  Memory_write image_nop None (-1) 0x42 =
    Ok (mkMemory (mem_update (mem image_nop) (-1 + MEM_LEN) (0x42 mod 0x100))
                 (is_mirror image_nop), None).
Proof. apply (Memory_negative_address image_nop None (-1) 0x42). unfold MEM_LEN. lia. Defined.

(** Such an address is reached by a run: after a push at SP = 0, TSX, TXA,
    EOR #$FF and TAX leave X = -256, and INC $0000,X then increments the
    cell 0xFF00 of the ROM area. *)
Example rom_cell_incremented :
  x_and_cell 0xFF00 (boot image_inc_negative 7) = Some (-256, 0) /\
  x_and_cell 0xFF00 (boot image_inc_negative 8) = Some (-256, 1).
Proof. split; vm_compute; reflexivity. Qed.

(** X7: no write at an address from 0 on changes a cell of the ROM area
    0x8000 .. 0xFFFF, nor the mirror switch. *)
Theorem Memory_write_keeps_rom m ppu a d m' ppu' j
  (Ha : 0 <= a) (Hj : 0x8000 <= j)
  (Hw : Memory_write m ppu a d = Ok (m', ppu')) :
  mem m' j = mem m j /\ is_mirror m' = is_mirror m.
Proof.
  unfold Memory_write in Hw.
  destruct (0x8000 <=? a) eqn:Ea; [injection Hw as <- <-; split; reflexivity|].
  apply Z.leb_gt in Ea.
  destruct (in_registers (map_byte m a)).
  { destruct ppu; [injection Hw as <- <-; split; reflexivity | discriminate]. }
  destruct (py_index (map_byte m a)) as [i|e] eqn:Ei; [|discriminate].
  injection Hw as <- <-. cbn [mem is_mirror]. split; [|reflexivity].
  apply py_index_nonneg in Ei; [|apply map_byte_nonneg; assumption].
  assert (Hi : map_byte m a < 0x8000).
  { unfold map_byte.
    destruct ((0 <=? a) && (a <=? 0x1FFF)).
    { pose proof (Z.mod_pos_bound a 0x800 eq_refl). lia. }
    destruct ((0x2000 <=? a) && (a <=? 0x3FFF)).
    { pose proof (Z.mod_pos_bound (a - 0x2000) 8 eq_refl). lia. }
    destruct (is_mirror m && (0xC000 <=? a) && (a <=? 0xFFFF)) eqn:E; [|lia].
    apply andb_true_iff in E. destruct E as [E _]. apply andb_true_iff in E. lia. }
  unfold mem_update. replace (j =? i) with false by lia. reflexivity.
Qed.

Lemma Memory_write_keeps_rom_witness :
  mem (mkMemory (mem_update (mem image_nop) 0x5 (0x42 mod 0x100)) false) 0x8000
    = mem image_nop 0x8000 /\
  is_mirror (mkMemory (mem_update (mem image_nop) 0x5 (0x42 mod 0x100)) false)
    = is_mirror image_nop.
Proof.
  apply (Memory_write_keeps_rom image_nop (Some PPU_new) 0x805 0x42 _ (Some PPU_new) 0x8000);
    [lia | lia | reflexivity].
Defined.

(** X8: a write anywhere in 0x2000 .. 0x3FFF or at 0x4014 leaves the memory
    array alone.  At 0x2000 and 0x2001 it stores the data, not reduced to a
    byte, in PPUCTRL and PPUMASK; at every other address of the region,
    the mirrors of those two registers included, it is dropped. *)
Theorem Memory_write_ppu_region m p a d
  (Ha : 0x2000 <= a <= 0x3FFF \/ a = 0x4014) :
  Memory_write m (Some p) a d =
    Ok (m, Some (if a =? 0x2000 then mkPPU d (ppu_mask p) (ppu_status p) (ppu_cycles p)
                 else if a =? 0x2001 then mkPPU (ppu_control p) d (ppu_status p) (ppu_cycles p)
                 else p)).
Proof.
  unfold Memory_write. replace (0x8000 <=? a) with false by lia.
  assert (Hr : in_registers (map_byte m a) = true).
  { apply in_registers_iff. unfold map_byte.
    replace ((0 <=? a) && (a <=? 0x1FFF)) with false by lia.
    destruct ((0x2000 <=? a) && (a <=? 0x3FFF)) eqn:E.
    - pose proof (Z.mod_pos_bound (a - 0x2000) 8 eq_refl). lia.
    - replace (is_mirror m && (0xC000 <=? a) && (a <=? 0xFFFF)) with false
        by (destruct (is_mirror m); lia).
      lia. }
  rewrite Hr. reflexivity.
Qed.

(** A write of 0x180 to 0x2008, the first mirror of PPUCTRL, changes
    nothing. *)
Lemma Memory_write_ppu_region_witness :
  Memory_write image_nop (Some PPU_new) 0x2008 0x180 = Ok (image_nop, Some PPU_new).
Proof. apply (Memory_write_ppu_region image_nop PPU_new 0x2008 0x180). lia. Defined.



(** * The flag list *)

Lemma Flag_isset_In f x : Flag_isset f x = true <-> In x f.
Proof.
  unfold Flag_isset. rewrite existsb_exists. split.
  - intros (y & Hy & E). apply Z.eqb_eq in E. now subst.
  - intros H. exists x. split; [assumption | apply Z.eqb_refl].
Qed.

Lemma Flag_isset_app f g x : Flag_isset (f ++ g) x = Flag_isset f x || Flag_isset g x.
Proof. unfold Flag_isset. apply existsb_app. Qed.

Lemma isset_set f x y :
  Flag_isset (fst (Flag_set f x)) y = (y =? x) || Flag_isset f y.
Proof.
  unfold Flag_set. destruct (Flag_isset f x) eqn:E; cbn [negb fst].
  - destruct (y =? x) eqn:Eyx; [|reflexivity].
    apply Z.eqb_eq in Eyx. subst. rewrite E. reflexivity.
  - rewrite Flag_isset_app. unfold Flag_isset at 2. cbn [existsb].
    rewrite orb_false_r, orb_comm. reflexivity.
Qed.

Lemma list_remove_In v l y : In y (list_remove v l) -> In y l.
Proof.
  induction l as [|h t IH]; cbn [list_remove]; [auto|].
  destruct (h =? v); [now right|]. intros [H|H]; [now left | right; auto].
Qed.

Lemma list_remove_NoDup v l : NoDup l -> NoDup (list_remove v l).
Proof.
  induction 1 as [|h t Hn Ht IH]; cbn [list_remove]; [constructor|].
  destruct (h =? v); [assumption|]. constructor; [|assumption].
  intros H. apply Hn. eapply list_remove_In; eassumption.
Qed.

Lemma isset_list_remove v l y :
  NoDup l -> Flag_isset (list_remove v l) y = Flag_isset l y && negb (y =? v).
Proof.
  induction 1 as [|h t Hn Ht IH]; [reflexivity|].
  cbn [list_remove]. destruct (h =? v) eqn:Ehv.
  - apply Z.eqb_eq in Ehv. subst h. unfold Flag_isset. cbn [existsb].
    destruct (y =? v) eqn:Eyv; cbn [orb negb].
    + apply Z.eqb_eq in Eyv. subst y. rewrite andb_false_r.
      destruct (existsb (Z.eqb v) t) eqn:E; [|reflexivity].
      exfalso. apply Hn. apply Flag_isset_In. exact E.
    + rewrite andb_true_r. reflexivity.
  - unfold Flag_isset in *. cbn [existsb]. rewrite IH.
    destruct (y =? h) eqn:Eyh; cbn [orb]; [|reflexivity].
    apply Z.eqb_eq in Eyh. subst y. rewrite Ehv. reflexivity.
Qed.

Lemma isset_clear f x y :
  NoDup f -> Flag_isset (fst (Flag_clear f x)) y = Flag_isset f y && negb (y =? x).
Proof.
  intros Hn. unfold Flag_clear. destruct (Flag_isset f x) eqn:E; cbn [fst].
  - apply isset_list_remove. assumption.
  - destruct (y =? x) eqn:Eyx; cbn [negb].
    + apply Z.eqb_eq in Eyx. subst. rewrite E. reflexivity.
    + rewrite andb_true_r. reflexivity.
Qed.

Lemma NoDup_set f x : NoDup f -> NoDup (fst (Flag_set f x)).
Proof.
  intros Hn. unfold Flag_set. destruct (Flag_isset f x) eqn:E; cbn [negb fst]; [assumption|].
  apply NoDup_app; [assumption | repeat constructor; auto |].
  intros y Hy [<-|[]]. apply Flag_isset_In in Hy. congruence.
Qed.

Lemma NoDup_clear f x : NoDup f -> NoDup (fst (Flag_clear f x)).
Proof.
  intros Hn. unfold Flag_clear. destruct (Flag_isset f x); cbn [fst]; [|assumption].
  apply list_remove_NoDup. assumption.
Qed.

Lemma incl_set f x : In x VALUES -> incl f VALUES -> incl (fst (Flag_set f x)) VALUES.
Proof.
  intros Hx Hf. unfold Flag_set. destruct (Flag_isset f x); cbn [negb fst]; [assumption|].
  apply incl_app; [assumption|]. intros y [<-|[]]. assumption.
Qed.

Lemma incl_clear f x : incl f VALUES -> incl (fst (Flag_clear f x)) VALUES.
Proof.
  intros Hf. unfold Flag_clear. destruct (Flag_isset f x); cbn [fst]; [|assumption].
  intros y Hy. apply Hf. eapply list_remove_In; eassumption.
Qed.

(** X9: on a flag list without duplicates, after [set(x)] a flag is set if
    it is x or was set, after [clear(x)] if it was set and is not x, after
    [toggle(x)] if it was set and is not x or was not set and is x; the
    three leave the list without duplicates. *)
Theorem Flag_set_clear_toggle_isset f x y (Hf : NoDup f) :
  Flag_isset (fst (Flag_set f x)) y = ((y =? x) || Flag_isset f y) /\
  Flag_isset (fst (Flag_clear f x)) y = (Flag_isset f y && negb (y =? x)) /\
  Flag_isset (fst (Flag_toggle f x)) y = xorb (Flag_isset f y) (y =? x) /\
  NoDup (fst (Flag_set f x)) /\ NoDup (fst (Flag_clear f x)) /\
  NoDup (fst (Flag_toggle f x)).
Proof.
  split; [apply isset_set|]. split; [apply isset_clear; assumption|].
  split; [|split; [apply NoDup_set; assumption|split; [apply NoDup_clear; assumption|]]].
  - unfold Flag_toggle. destruct (Flag_isset f x) eqn:E.
    + rewrite isset_clear by assumption.
      destruct (y =? x) eqn:Eyx; cbn [negb].
      * apply Z.eqb_eq in Eyx. subst. rewrite E. reflexivity.
      * rewrite andb_true_r, xorb_false_r. reflexivity.
    + rewrite isset_set.
      destruct (y =? x) eqn:Eyx; cbn [orb].
      * apply Z.eqb_eq in Eyx. subst. rewrite E. reflexivity.
      * rewrite xorb_false_r. reflexivity.
  - unfold Flag_toggle. destruct (Flag_isset f x);
      [apply NoDup_clear | apply NoDup_set]; assumption.
Qed.

Lemma Flag_set_clear_toggle_isset_witness :
  Flag_isset (fst (Flag_set INIT_FLAGS Flag_C)) Flag_C = ((Flag_C =? Flag_C) || Flag_isset INIT_FLAGS Flag_C) /\
  Flag_isset (fst (Flag_clear INIT_FLAGS Flag_C)) Flag_C = (Flag_isset INIT_FLAGS Flag_C && negb (Flag_C =? Flag_C)) /\
  Flag_isset (fst (Flag_toggle INIT_FLAGS Flag_C)) Flag_C = xorb (Flag_isset INIT_FLAGS Flag_C) (Flag_C =? Flag_C) /\
  NoDup (fst (Flag_set INIT_FLAGS Flag_C)) /\ NoDup (fst (Flag_clear INIT_FLAGS Flag_C)) /\
  NoDup (fst (Flag_toggle INIT_FLAGS Flag_C)).
Proof.
  apply (Flag_set_clear_toggle_isset INIT_FLAGS Flag_C Flag_C).
  repeat constructor; cbn; intuition discriminate.
Defined.

Lemma sum_Permutation l l' :
  Permutation l l' -> fold_right Z.add 0 l = fold_right Z.add 0 l'.
Proof. induction 1; cbn [fold_right]; lia. Qed.

Lemma NoDup_VALUES : NoDup VALUES.
Proof. repeat constructor; cbn; intuition discriminate. Qed.

Lemma get_byte_flags_byte f : flags_wf f -> Flag_get_byte f = flags_byte f.
Proof.
  intros [Hn Hi]. unfold Flag_get_byte, flags_byte. apply sum_Permutation.
  apply NoDup_Permutation; [assumption | apply NoDup_filter, NoDup_VALUES |].
  intros x. rewrite filter_In, Flag_isset_In. split; [auto | tauto].
Qed.

Lemma get_byte_range f : flags_wf f -> 0 <= Flag_get_byte f <= 255.
Proof.
  intros Hf. rewrite (get_byte_flags_byte f Hf). unfold flags_byte, VALUES. cbn [filter].
  destruct (Flag_isset f Flag_N), (Flag_isset f Flag_V), (Flag_isset f Flag__),
    (Flag_isset f Flag_B), (Flag_isset f Flag_D), (Flag_isset f Flag_I),
    (Flag_isset f Flag_Z), (Flag_isset f Flag_C);
    vm_compute; split; discriminate.
Qed.

Lemma get_byte_bit f v :
  flags_wf f -> In v VALUES ->
  Z.land (Flag_get_byte f) v = if Flag_isset f v then v else 0.
Proof.
  intros Hf Hv. rewrite (get_byte_flags_byte f Hf). unfold flags_byte, VALUES. cbn [filter].
  cbn [In VALUES] in Hv.
  repeat (destruct Hv as [<-|Hv]); try contradiction;
    destruct (Flag_isset f Flag_N), (Flag_isset f Flag_V), (Flag_isset f Flag__),
      (Flag_isset f Flag_B), (Flag_isset f Flag_D), (Flag_isset f Flag_I),
      (Flag_isset f Flag_Z), (Flag_isset f Flag_C); reflexivity.
Qed.

(** X10: when the flag list has no duplicate and holds flag values only,
    [get_byte] is a byte and its bit for each flag is set exactly when
    [isset] holds for that flag: the sum is the bitwise OR. *)
Theorem Flag_get_byte_bits f (Hf : flags_wf f) :
  0 <= Flag_get_byte f <= 255 /\
  forall v, In v VALUES ->
    Z.land (Flag_get_byte f) v = if Flag_isset f v then v else 0.
Proof.
  split; [apply get_byte_range; assumption|].
  intros v Hv. apply get_byte_bit; assumption.
Qed.

Lemma Flag_get_byte_bits_witness :
  0 <= Flag_get_byte INIT_FLAGS <= 255 /\
  forall v, In v VALUES ->
    Z.land (Flag_get_byte INIT_FLAGS) v = if Flag_isset INIT_FLAGS v then v else 0.
Proof.
  apply (Flag_get_byte_bits INIT_FLAGS).
  split; [repeat constructor; cbn; intuition discriminate
         | intros x Hx; cbn in Hx; cbn; intuition].
Defined.

(** [set_byte] looks at the low eight bits of its argument only. *)
Lemma land_flag_mod b v : In v VALUES -> Z.land b v = Z.land (b mod 0x100) v.
Proof.
  intros Hv. change 0x100 with (2 ^ 8). rewrite <- Z.land_ones by lia.
  rewrite <- Z.land_assoc. f_equal.
  cbn [In VALUES] in Hv. repeat (destruct Hv as [<-|Hv]); try contradiction; reflexivity.
Qed.

Lemma Flag_set_byte_mod b : Flag_set_byte b = Flag_set_byte (b mod 0x100).
Proof.
  unfold Flag_set_byte.
  rewrite <- !(land_flag_mod b) by (cbn; tauto). reflexivity.
Qed.

Lemma get_byte_set_byte b :
  Flag_get_byte (Flag_set_byte b) = Z.lor (b mod 0x100) 0x24.
Proof.
  rewrite Flag_set_byte_mod.
  pose proof (byte_forall set_byte_ok eq_refl (b mod 0x100) (byte_mod b)) as H.
  unfold set_byte_ok in H. apply andb_true_iff in H. destruct H as [H1 _].
  apply Z.eqb_eq in H1. exact H1.
Qed.

(** X11: [set_byte(b)] followed by [get_byte()] gives (b mod 256) | 0x24 for
    every integer b; the list it builds has no duplicate, and a flag is in
    it exactly when its bit is set in that byte. *)
Theorem Flag_set_byte_get_byte b :
  Flag_get_byte (Flag_set_byte b) = Z.lor (b mod 0x100) 0x24 /\
  flags_wf (Flag_set_byte b) /\
  forall v, In v VALUES ->
    Flag_isset (Flag_set_byte b) v = truthy (Z.land (Z.lor (b mod 0x100) 0x24) v).
Proof.
  split; [apply get_byte_set_byte|].
  rewrite Flag_set_byte_mod.
  pose proof (byte_forall set_byte_ok eq_refl (b mod 0x100) (byte_mod b)) as H.
  unfold set_byte_ok in H. apply andb_true_iff in H. destruct H as [_ H2].
  split.
  - unfold Flag_set_byte.
    destruct (truthy (Z.land (b mod 0x100) Flag_N)), (truthy (Z.land (b mod 0x100) Flag_V)),
      (truthy (Z.land (b mod 0x100) Flag__)), (truthy (Z.land (b mod 0x100) Flag_B)),
      (truthy (Z.land (b mod 0x100) Flag_D)), (truthy (Z.land (b mod 0x100) Flag_I)),
      (truthy (Z.land (b mod 0x100) Flag_Z)), (truthy (Z.land (b mod 0x100) Flag_C));
      (split; [repeat constructor; cbn; intuition discriminate
              | intros x Hx; cbn in Hx; cbn; intuition]).
  - intros v Hv. rewrite forallb_forall in H2. specialize (H2 v Hv).
    apply Bool.eqb_prop in H2. exact H2.
Qed.



(** * The flags and the cycle counter along a run *)

Lemma flag_inv_set f F : settable F -> flag_inv f -> flag_inv (fst (Flag_set f F)).
Proof.
  intros HF ((Hn & Hi) & Hr & Hb). split; [split|split].
  - apply NoDup_set; assumption.
  - apply incl_set; [|assumption].
    unfold settable in HF. unfold VALUES. cbn [In]. intuition.
  - apply Flag_isset_In. rewrite isset_set. apply Flag_isset_In in Hr. rewrite Hr.
    apply orb_true_r.
  - intros H. apply Flag_isset_In in H. rewrite isset_set in H.
    apply orb_true_iff in H. destruct H as [H|H].
    + apply Z.eqb_eq in H. unfold settable in HF. rewrite <- H in HF.
      unfold Flag_B, Flag_N, Flag_V, Flag_D, Flag_I, Flag_Z, Flag_C in HF. lia.
    + apply Hb. apply Flag_isset_In. assumption.
Qed.

Lemma flag_inv_clear f F : settable F -> flag_inv f -> flag_inv (fst (Flag_clear f F)).
Proof.
  intros HF ((Hn & Hi) & Hr & Hb). split; [split|split].
  - apply NoDup_clear; assumption.
  - apply incl_clear; assumption.
  - apply Flag_isset_In. rewrite isset_clear by assumption.
    apply Flag_isset_In in Hr. rewrite Hr. cbn [andb].
    apply negb_true_iff, Z.eqb_neq. unfold settable in HF.
    unfold Flag__, Flag_N, Flag_V, Flag_D, Flag_I, Flag_Z, Flag_C in *. lia.
  - intros H. apply Flag_isset_In in H. rewrite isset_clear in H by assumption.
    apply andb_true_iff in H. destruct H as [H _]. apply Hb, Flag_isset_In, H.
Qed.

Lemma flag_inv_set_byte v : flag_inv (Flag_set_byte (Z.land v (Z.lnot Flag_B))).
Proof.
  assert (HB : truthy (Z.land (Z.land v (Z.lnot Flag_B)) Flag_B) = false).
  { rewrite <- Z.land_assoc. change (Z.land (Z.lnot Flag_B) Flag_B) with 0.
    rewrite Z.land_0_r. reflexivity. }
  unfold Flag_set_byte. rewrite HB.
  destruct (truthy (Z.land (Z.land v (Z.lnot Flag_B)) Flag_N)),
    (truthy (Z.land (Z.land v (Z.lnot Flag_B)) Flag_V)),
    (truthy (Z.land (Z.land v (Z.lnot Flag_B)) Flag__)),
    (truthy (Z.land (Z.land v (Z.lnot Flag_B)) Flag_D)),
    (truthy (Z.land (Z.land v (Z.lnot Flag_B)) Flag_I)),
    (truthy (Z.land (Z.land v (Z.lnot Flag_B)) Flag_Z)),
    (truthy (Z.land (Z.land v (Z.lnot Flag_B)) Flag_C));
    (split; [split; [repeat constructor; cbn; intuition discriminate
                    | intros x Hx; cbn in Hx; cbn; intuition]
            | split; [cbn; intuition | cbn; intuition discriminate]]).
Qed.

Lemma flag_inv_INIT : flag_inv INIT_FLAGS.
Proof.
  split; [split; [repeat constructor; cbn; intuition discriminate
                 | intros x Hx; cbn in Hx; cbn; intuition]
         | split; [cbn; intuition | cbn; intuition discriminate]].
Qed.

Section FlagRules.

Variable s0 : CPU.

Lemma wp_mem_read_any a (Q : pyval -> CPU -> Prop) s :
  (forall v, Q v s) -> wp (mem_read a) Q s.
Proof. intros H. apply wp_mem_read. auto. Qed.

Lemma wp_mem_read_int_any a (Q : Z -> CPU -> Prop) s :
  (forall v, Q v s) -> wp (mem_read_int a) Q s.
Proof.
  intros H. unfold mem_read_int. apply wp_bind, wp_mem_read_any. intros [z|].
  - apply wp_ret, H.
  - apply wp_raise.
Qed.

Lemma fwp_mem_write a d Q s :
  fgood s0 s -> (forall s', fgood s0 s' -> Q tt s') -> wp (mem_write a d) Q s.
Proof.
  intros G H. unfold wp, mem_write.
  destruct (Memory_write (cpu_mem s) (Some (cpu_ppu s)) a d) as [[m' [p'|]]|e]; try exact I;
    apply H; destruct G; constructor; assumption.
Qed.

Lemma fwp_modify_reg (f : CPU -> CPU) Q s :
  (forall s, cpu_flag (f s) = cpu_flag s /\ cpu_cycles (f s) = cpu_cycles s) ->
  fgood s0 s -> (forall s', fgood s0 s' -> Q tt s') -> wp (modify f) Q s.
Proof.
  intros Hf [G1 G2] H. apply wp_modify, H. destruct (Hf s) as [E1 E2].
  constructor; [rewrite E1 | rewrite E2]; assumption.
Qed.

Lemma fwp_flag_set F Q s :
  settable F -> fgood s0 s -> (forall s', fgood s0 s' -> Q tt s') -> wp (flag_set F) Q s.
Proof.
  intros HF [G1 G2] H. apply H. constructor; [|assumption].
  cbn [cpu_flag set_flag]. apply flag_inv_set; assumption.
Qed.

Lemma fwp_flag_clear F Q s :
  settable F -> fgood s0 s -> (forall s', fgood s0 s' -> Q tt s') -> wp (flag_clear F) Q s.
Proof.
  intros HF [G1 G2] H. apply H. constructor; [|assumption].
  cbn [cpu_flag set_flag]. apply flag_inv_clear; assumption.
Qed.

Lemma fwp_when_flag_set (c : bool) F Q s :
  settable F -> fgood s0 s -> (forall s', fgood s0 s' -> Q tt s') ->
  wp (if c then flag_set F else ret tt) Q s.
Proof. intros HF G H. destruct c; [apply fwp_flag_set; assumption | apply H, G]. Qed.

Lemma fwp_when_flag_clear (c : bool) F Q s :
  settable F -> fgood s0 s -> (forall s', fgood s0 s' -> Q tt s') ->
  wp (if c then flag_clear F else ret tt) Q s.
Proof. intros HF G H. destruct c; [apply fwp_flag_clear; assumption | apply H, G]. Qed.

Lemma fwp_flag_set_byte v Q s :
  fgood s0 s -> (forall s', fgood s0 s' -> Q tt s') ->
  wp (flag_set_byte (Z.land v (Z.lnot Flag_B))) Q s.
Proof.
  intros [G1 G2] H. apply H. constructor; [|assumption].
  cbn [cpu_flag set_flag]. apply flag_inv_set_byte.
Qed.

Lemma fwp_stack_push v Q s :
  fgood s0 s -> (forall s', fgood s0 s' -> Q tt s') -> wp (stack_push v) Q s.
Proof.
  intros G H. unfold stack_push. apply wp_bind, wp_gets.
  destruct (cpu_sp s <? 0); [apply wp_raise|].
  apply wp_bind. apply fwp_mem_write; [assumption|]. intros s1 G1.
  apply fwp_modify_reg; [intros []; split; reflexivity | assumption | assumption].
Qed.

Lemma fwp_stack_pop Q s :
  fgood s0 s -> (forall v s', fgood s0 s' -> Q v s') -> wp stack_pop Q s.
Proof.
  intros G H. unfold stack_pop. apply wp_bind, wp_gets.
  destruct (cpu_sp s =? 0xFF); [apply wp_raise|].
  apply wp_bind. apply fwp_modify_reg; [intros []; split; reflexivity | assumption |].
  intros s1 G1. apply wp_mem_read_int_any. intros v. auto.
Qed.

End FlagRules.

Ltac settable_side := unfold settable; tauto.

Ltac reg_frame := intros []; split; reflexivity.

Ltac fl_step :=
  lazymatch goal with
  | |- wp (bind _ _) _ _ => apply wp_bind
  | |- wp (ret _) _ _ => apply wp_ret
  | |- wp (raise _) _ _ => apply wp_raise
  | |- wp (gets _) _ _ => apply wp_gets
  | |- wp (mem_read _) _ _ => apply wp_mem_read_any; intros ?
  | |- wp (mem_read_int _) _ _ => apply wp_mem_read_int_any; intros ?
  | |- wp (mem_write _ _) _ _ => eapply fwp_mem_write; [eassumption | intros ? ?]
  | |- wp (flag_set _) _ _ =>
      eapply fwp_flag_set; [settable_side | eassumption | intros ? ?]
  | |- wp (flag_clear _) _ _ =>
      eapply fwp_flag_clear; [settable_side | eassumption | intros ? ?]
  | |- wp (flag_set_byte _) _ _ => eapply fwp_flag_set_byte; [eassumption | intros ? ?]
  | |- wp (if _ then flag_set _ else ret tt) _ _ =>
      eapply fwp_when_flag_set; [settable_side | eassumption | intros ? ?]
  | |- wp (if _ then flag_clear _ else ret tt) _ _ =>
      eapply fwp_when_flag_clear; [settable_side | eassumption | intros ? ?]
  | |- wp (modify (set_acc _)) _ _ =>
      eapply fwp_modify_reg; [reg_frame | eassumption | intros ? ?]
  | |- wp (modify (set_x _)) _ _ =>
      eapply fwp_modify_reg; [reg_frame | eassumption | intros ? ?]
  | |- wp (modify (set_y _)) _ _ =>
      eapply fwp_modify_reg; [reg_frame | eassumption | intros ? ?]
  | |- wp (modify (set_sp _)) _ _ =>
      eapply fwp_modify_reg; [reg_frame | eassumption | intros ? ?]
  | |- wp (stack_push _) _ _ => eapply fwp_stack_push; [eassumption | intros ? ?]
  | |- wp stack_pop _ _ => eapply fwp_stack_pop; [eassumption | intros ? ? ?]
  end; cbv beta iota.

Ltac fpost_side :=
  repeat match goal with
         | |- context [b2z ?b] =>
             let H := fresh in pose proof (b2z_range b) as H;
             generalize dependent (b2z b); intros
         end;
  repeat match goal with
         | G : fgood _ ?s |- context [cpu_cycles ?s] => rewrite (fg_cycles _ _ G)
         end;
  cbn [fst snd]; lia.

Ltac fl_finish :=
  lazymatch goal with
  | |- fpost _ _ _ =>
      split; [match goal with G : fgood _ ?s |- flag_inv (cpu_flag ?s) =>
                exact (fg_flag _ _ G) end
             | fpost_side]
  end.

Lemma fwp_branch s0 taken i data s :
  fgood s0 s -> instr2 i = 2 -> instr3 i = 1 ->
  wp (branch taken i data) (fpost s0) s.
Proof.
  intros G H2 H3. unfold branch.
  repeat fl_step.
  destruct taken.
  - destruct (negb _); fl_step; rewrite H2, ?H3; fl_finish.
  - fl_step; rewrite H2; fl_finish.
Qed.

Ltac fl_branch_step :=
  lazymatch goal with
  | |- wp (branch _ _ _) (fpost _) _ =>
      eapply fwp_branch; [eassumption | reflexivity | reflexivity]
  end.

Ltac fl_go := repeat fl_step; first [fl_finish | fl_branch_step].

Lemma handler_flags_cycles b i :
  In (b, i) opcodes -> is_BRK (instr0 i) = false ->
  forall s data, fgood s s ->
  wp (handler_of (instr0 i) b i data) (fpost s) s.
Proof.
  intros HIn.
  unfold opcodes in HIn. cbn [In] in HIn.
  repeat (destruct HIn as [HIn|HIn]; [injection HIn as <- <-|]); [..|contradiction];
  intros HB s data G; try discriminate HB; clear HB.
  all: unfold_handler; fl_go.
Qed.



Lemma wp_read_bytes_any n : forall a (Q : list Z -> CPU -> Prop) s,
  (forall bs, Q bs s) -> wp (read_bytes a n) Q s.
Proof.
  induction n as [|n IH]; intros a Q s H; cbn [read_bytes].
  - apply wp_ret, H.
  - apply wp_bind, wp_mem_read_int_any. intros b.
    apply wp_bind, IH. intros bs. apply wp_ret, H.
Qed.

Lemma wp_PPU_run_frame s :
  wp PPU_run (fun _ s' => cpu_flag s' = cpu_flag s /\ cpu_cycles s' = cpu_cycles s) s.
Proof.
  unfold PPU_run.
  apply wp_bind, wp_gets. apply wp_bind.
  destruct (CYCLE_POSTRENDER <? ppu_cycles (cpu_ppu s) mod CYCLES_PER_FRAME).
  - apply wp_bind, wp_modify.
    destruct (_ && _); [apply wp_handle_nmi|].
    apply wp_ret. apply wp_bind, wp_gets, wp_modify. split; reflexivity.
  - apply wp_modify. apply wp_bind, wp_gets, wp_modify. split; reflexivity.
Qed.

Lemma wp_repeat_PPU_run_frame n : forall s,
  wp (repeat_M n PPU_run)
     (fun _ s' => cpu_flag s' = cpu_flag s /\ cpu_cycles s' = cpu_cycles s) s.
Proof.
  induction n as [|n IH]; intros s; cbn [repeat_M].
  - apply wp_ret. split; reflexivity.
  - apply wp_bind. eapply wp_mono; [apply wp_PPU_run_frame|].
    intros [] s1 [F1 C1]. cbv beta.
    eapply wp_mono; [apply IH|].
    intros [] s2 [F2 C2]. cbv beta. split; congruence.
Qed.

Lemma wp_CPU_run_flags_cycles s :
  flag_inv (cpu_flag s) ->
  wp CPU_run
     (fun _ s' => flag_inv (cpu_flag s') /\ 2 <= cpu_cycles s' - cpu_cycles s <= 8) s.
Proof.
  intros Hf. assert (G : fgood s s) by (constructor; [assumption | reflexivity]).
  unfold CPU_run. apply wp_bind, wp_gets.
  unfold get_current_instruction, get_instruction_at, get_current_pc_byte.
  apply wp_bind, wp_bind, wp_gets, wp_bind, wp_bind, wp_gets.
  apply wp_mem_read_eq. intros v Hv.
  destruct v as [b|]; [|apply wp_raise].
  destruct (dict_get opcodes b) as [i|] eqn:Ei; [|apply wp_raise].
  apply dict_get_In in Ei. apply wp_ret, wp_bind, wp_gets.
  apply wp_bind, wp_read_bytes_any. intros bs.
  destruct (is_BRK (instr0 i)) eqn:EB; [apply wp_raise|].
  eapply wp_reread; [eassumption|].
  apply wp_bind.
  eapply wp_mono; [apply handler_flags_cycles; assumption|].
  intros r s1 [F1 C1]. cbv beta.
  apply wp_bind, wp_modify, wp_bind, wp_modify, wp_bind, wp_gets.
  eapply wp_mono; [apply wp_repeat_PPU_run_frame|].
  intros [] s2 [F2 C2]. cbv beta. cbn [cpu_flag cpu_cycles set_cycles set_pc] in F2, C2.
  rewrite F2, C2. split; assumption.
Qed.

(** X12: a [CPU.run] that returns from a state whose flag list has no
    duplicate, holds flag values only, has the reserved flag and not B,
    ends in such a state again, and has counted between 2 and 8 cycles. *)
Theorem CPU_run_flags_cycles s s'
  (Hf : flag_inv (cpu_flag s)) (Hrun : CPU_run s = Ok (tt, s')) :
  flag_inv (cpu_flag s') /\ 2 <= cpu_cycles s' - cpu_cycles s <= 8.
Proof. exact (wp_ok _ _ _ _ _ (wp_CPU_run_flags_cycles s Hf) Hrun). Qed.

Lemma CPU_run_flags_cycles_witness :
  exists s',
    CPU_run (mkCPU 0xFD 0x8000 0 0 0 0 image_nop INIT_FLAGS PPU_new) = Ok (tt, s') /\
    flag_inv (cpu_flag s') /\ 2 <= cpu_cycles s' - 0 <= 8.
Proof.
  eexists. split; [vm_compute; reflexivity|].
  apply (CPU_run_flags_cycles (mkCPU 0xFD 0x8000 0 0 0 0 image_nop INIT_FLAGS PPU_new));
    [apply flag_inv_INIT | vm_compute; reflexivity].
Defined.

(** X13: in every state the emulator goes through, the flag list has no
    duplicate and the status byte has the reserved bit set and the B bit
    clear. *)
Theorem reachable_flags s :
  reachable s ->
  flags_wf (cpu_flag s) /\
  Z.land (Flag_get_byte (cpu_flag s)) 0x20 = 0x20 /\
  Z.land (Flag_get_byte (cpu_flag s)) 0x10 = 0.
Proof.
  intros H.
  assert (Hf : flag_inv (cpu_flag s)).
  { induction H as [m s Hm Hs | s s' _ IH Hrun].
    - destruct (CPU_init_ok m INIT_FLAGS) as (jl & jh & _ & _ & _ & _ & E).
      assert (Es : cpu_flag s = INIT_FLAGS) by (rewrite E in Hs; injection Hs as <-; reflexivity).
      rewrite Es. apply flag_inv_INIT.
    - apply (wp_ok _ _ _ _ _ (wp_CPU_run_flags_cycles s IH) Hrun). }
  destruct Hf as (Hw & Hr & Hb). split; [assumption|].
  split.
  - change (Z.land (Flag_get_byte (cpu_flag s)) Flag__ = Flag__).
    rewrite (get_byte_bit _ Flag__ Hw) by (cbn; tauto).
    apply Flag_isset_In in Hr. rewrite Hr. reflexivity.
  - change (Z.land (Flag_get_byte (cpu_flag s)) Flag_B = 0).
    rewrite (get_byte_bit _ Flag_B Hw) by (cbn; tauto).
    destruct (Flag_isset (cpu_flag s) Flag_B) eqn:E; [|reflexivity].
    apply Flag_isset_In in E. contradiction.
Qed.

Lemma reachable_flags_witness :
  exists s, boot image_stack_full 8 = Ok (tt, s) /\
    flags_wf (cpu_flag s) /\
    Z.land (Flag_get_byte (cpu_flag s)) 0x20 = 0x20 /\
    Z.land (Flag_get_byte (cpu_flag s)) 0x10 = 0.
Proof.
  eexists. split; [vm_compute; reflexivity|].
  apply reachable_flags.
  apply (repeat_run_reachable 8) with (s := mkCPU 0xFD 0x8000 0 0 0 0 image_stack_full INIT_FLAGS PPU_new).
  - apply (reach_init image_stack_full); [apply image_valid; reflexivity | vm_compute; reflexivity].
  - vm_compute. reflexivity.
Defined.



(** * Total correctness of single handlers *)

Lemma twp_ok {A} (m : M A) Q s :
  twp m Q s -> exists a s', m s = Ok (a, s') /\ Q a s'.
Proof. unfold twp. destruct (m s) as [[a s']|e]; [eauto | contradiction]. Qed.

Lemma twp_ret {A} (a : A) Q s : Q a s -> twp (ret a) Q s.
Proof. exact (fun H => H). Qed.

Lemma twp_bind {A B} (m : M A) (k : A -> M B) Q s :
  twp m (fun a s' => twp (k a) Q s') s -> twp (bind m k) Q s.
Proof. unfold twp, bind. destruct (m s) as [[a s']|e]; auto. Qed.

Lemma twp_gets {A} (f : CPU -> A) Q s : Q (f s) s -> twp (gets f) Q s.
Proof. exact (fun H => H). Qed.

Lemma twp_modify f (Q : unit -> CPU -> Prop) s : Q tt (f s) -> twp (modify f) Q s.
Proof. exact (fun H => H). Qed.

Lemma twp_mono {A} (m : M A) (Q Q' : A -> CPU -> Prop) s :
  twp m Q s -> (forall a s', Q a s' -> Q' a s') -> twp m Q' s.
Proof. unfold twp. destruct (m s) as [[a s']|e]; auto. Qed.

Lemma set_flag_same s : set_flag (cpu_flag s) s = s.
Proof. destruct s; reflexivity. Qed.

Lemma twp_when_flag_set (c : bool) F (Q : unit -> CPU -> Prop) s :
  Q tt (set_flag (set_if c (cpu_flag s) F) s) ->
  twp (if c then flag_set F else ret tt) Q s.
Proof. destruct c; cbn [set_if]; [exact (fun H => H)|]. rewrite set_flag_same. exact (fun H => H). Qed.

Lemma twp_when_flag_clear (c : bool) F (Q : unit -> CPU -> Prop) s :
  Q tt (set_flag (clear_if c (cpu_flag s) F) s) ->
  twp (if c then flag_clear F else ret tt) Q s.
Proof. destruct c; cbn [clear_if]; [exact (fun H => H)|]. rewrite set_flag_same. exact (fun H => H). Qed.

Lemma twp_mem_write_ram a d (Q : unit -> CPU -> Prop) s :
  0 <= a < 0x800 ->
  Q tt (set_mem (mkMemory (mem_update (mem (cpu_mem s)) a (d mod 0x100))
                          (is_mirror (cpu_mem s))) s) ->
  twp (mem_write a d) Q s.
Proof.
  intros Ha H. unfold twp, mem_write. rewrite Memory_write_ram by assumption.
  destruct s; exact H.
Qed.

Lemma twp_mem_read_int_ram a (Q : Z -> CPU -> Prop) s :
  0 <= a < 0x800 -> Q (mem (cpu_mem s) a) s -> twp (mem_read_int a) Q s.
Proof.
  intros Ha H. unfold twp, mem_read_int, mem_read, bind.
  rewrite Memory_read_ram by assumption. exact H.
Qed.

Lemma isset_set_if c f x y :
  Flag_isset (set_if c f x) y = (c && (y =? x)) || Flag_isset f y.
Proof. destruct c; cbn [set_if andb orb]; [apply isset_set | reflexivity]. Qed.

Lemma isset_clear_if c f x y :
  NoDup f -> Flag_isset (clear_if c f x) y = Flag_isset f y && negb (c && (y =? x)).
Proof.
  intros H. destruct c; cbn [clear_if andb negb]; [apply isset_clear; assumption|].
  rewrite andb_true_r. reflexivity.
Qed.

Lemma NoDup_set_if c f x : NoDup f -> NoDup (set_if c f x).
Proof. destruct c; cbn [set_if]; [apply NoDup_set | auto]. Qed.

Lemma NoDup_clear_if c f x : NoDup f -> NoDup (clear_if c f x).
Proof. destruct c; cbn [clear_if]; [apply NoDup_clear | auto]. Qed.

Create HintDb flags.
#[local] Hint Resolve NoDup_set NoDup_clear NoDup_set_if NoDup_clear_if : flags.

Ltac tw_step :=
  lazymatch goal with
  | |- twp (bind _ _) _ _ => apply twp_bind
  | |- twp (ret _) _ _ => apply twp_ret
  | |- twp (gets _) _ _ => apply twp_gets
  | |- twp (flag_isset _) _ _ => apply twp_gets
  | |- twp flag_get_byte _ _ => apply twp_gets
  | |- twp (modify _) _ _ => apply twp_modify
  | |- twp (flag_set _) _ _ => apply twp_modify
  | |- twp (flag_clear _) _ _ => apply twp_modify
  | |- twp (flag_set_byte _) _ _ => apply twp_modify
  | |- twp (if _ then flag_set _ else ret tt) _ _ => apply twp_when_flag_set
  | |- twp (if _ then flag_clear _ else ret tt) _ _ => apply twp_when_flag_clear
  | |- twp (imm _) _ _ => apply twp_ret
  end;
  cbv beta;
  cbn [cpu_sp cpu_pc cpu_acc cpu_x cpu_y cpu_cycles cpu_mem cpu_flag cpu_ppu
       set_sp set_pc set_acc set_x set_y set_cycles set_mem set_flag set_ppu fst snd].

(** Rewrite every [Flag_isset] of a list built by sets and clears into a
    Boolean formula over the flags of the list it was built from. *)
Ltac isset_norm :=
  repeat first
    [ rewrite isset_set_if
    | rewrite isset_set
    | rewrite isset_clear_if by auto 20 with flags
    | rewrite isset_clear by auto 20 with flags ];
  cbn [Z.eqb Pos.eqb Flag_N Flag_V Flag__ Flag_B Flag_D Flag_I Flag_Z Flag_C
       andb orb negb];
  repeat (progress (rewrite ?andb_true_r, ?andb_false_r, ?orb_false_r, ?orb_true_r,
                      ?orb_false_l;
                    cbn [andb orb negb])).

(** ** Bit 7 *)

Lemma truthy_land_bit x n : 0 <= n -> truthy (Z.land x (2 ^ n)) = Z.testbit x n.
Proof.
  intros Hn. unfold truthy.
  destruct (Z.testbit x n) eqn:E.
  - apply negb_true_iff, Z.eqb_neq. intros H.
    assert (T : Z.testbit (Z.land x (2 ^ n)) n = true).
    { rewrite Z.land_spec, E, Z.pow2_bits_true by lia. reflexivity. }
    rewrite H, Z.bits_0 in T. discriminate.
  - apply negb_false_iff, Z.eqb_eq. apply Z.bits_inj'. intros m Hm.
    rewrite Z.land_spec, Z.bits_0.
    destruct (Z.eq_dec m n) as [->|Hne].
    + rewrite E. reflexivity.
    + rewrite Z.pow2_bits_false by lia. apply andb_false_r.
Qed.

Lemma truthy_land_128 x : truthy (Z.land x 128) = Z.testbit x 7.
Proof. apply (truthy_land_bit x 7). lia. Qed.

Lemma testbit7_mod x : Z.testbit x 7 = (128 <=? x mod 256).
Proof.
  rewrite <- (Z.mod_pow2_bits_low x 8 7) by lia. change (2 ^ 8) with 256.
  pose proof (Z.mod_pos_bound x 256 eq_refl) as Hb.
  generalize dependent (x mod 256). intros r Hr.
  rewrite Z.testbit_eqb by lia. change (2 ^ 7) with 128.
  destruct (128 <=? r) eqn:E.
  - apply Z.leb_le in E. replace (r / 128) with 1 by (Z.div_mod_to_equations; lia).
    reflexivity.
  - apply Z.leb_gt in E. rewrite Z.div_small by lia. reflexivity.
Qed.

Lemma signed_byte_to_int_8 d : byte_ok d -> signed_byte_to_int d 8 = signed8 d.
Proof.
  intros Hd. apply Z.eqb_eq. exact (byte_forall signed_ok eq_refl d Hd).
Qed.



Ltac table_entry H := vm_compute in H; injection H as <-.

Ltac st_simpl :=
  cbn [cpu_sp cpu_pc cpu_acc cpu_x cpu_y cpu_cycles cpu_mem cpu_flag cpu_ppu
       set_sp set_pc set_acc set_x set_y set_cycles set_mem set_flag set_ppu fst snd].

Ltac flags_frame_tac :=
  unfold flags_frame; st_simpl;
  split; [auto 20 with flags |
          let F := fresh "F" in let HF := fresh "HF" in
          intros F HF; cbn [In] in HF;
          repeat (destruct HF as [<-|HF]); try contradiction; isset_norm; reflexivity].

(** The overflow test of ADC, on bit 7 of the operands and of the sum *)
Lemma adc_overflow_bit a d c :
  byte_ok a -> byte_ok d -> 0 <= c <= 1 ->
  truthy (Z.land (Z.land (Z.lxor a (a + (d + c))) (Z.lxor d (a + (d + c)))) 0x80)
  = negb ((-128 <=? signed8 a + signed8 d + c) && (signed8 a + signed8 d + c <=? 127)).
Proof.
  intros Ha Hd Hc. unfold byte_ok in *.
  rewrite truthy_land_128, Z.land_spec, !Z.lxor_spec, !testbit7_mod.
  rewrite (Z.mod_small a), (Z.mod_small d) by lia.
  unfold signed8.
  assert (Hs : 0 <= (a + (d + c)) mod 256 < 256 /\
               ((a + (d + c)) mod 256 = a + (d + c) \/
                (a + (d + c)) mod 256 = a + (d + c) - 256))
    by (Z.div_mod_to_equations; lia).
  destruct (128 <=? a) eqn:E1, (128 <=? d) eqn:E2, (128 <=? (a + (d + c)) mod 256) eqn:E3,
    (a <? 128) eqn:E4, (d <? 128) eqn:E5; cbn [xorb andb negb]; lia.
Qed.

(** The overflow test of SBC, on bit 7 of the operands and of the masked
    difference *)
Lemma sbc_overflow_bit a d c :
  byte_ok a -> byte_ok d -> 0 <= c <= 1 ->
  truthy (Z.land (Z.land (Z.lxor a ((a + (Z.lnot d + c)) mod 0x100))
                         (Z.lnot (Z.lxor d ((a + (Z.lnot d + c)) mod 0x100)))) 0x80)
  = negb ((-128 <=? signed8 a - signed8 d - (1 - c))
          && (signed8 a - signed8 d - (1 - c) <=? 127)).
Proof.
  intros Ha Hd Hc. unfold byte_ok in *.
  rewrite truthy_land_128, Z.land_spec, Z.lnot_spec, !Z.lxor_spec, !testbit7_mod by lia.
  rewrite Z.mod_mod by lia.
  rewrite (Z.mod_small a), (Z.mod_small d) by lia.
  unfold signed8. unfold Z.lnot. rewrite Z.pred_succ || idtac.
  assert (Hs : 0 <= (a + (Z.pred (- d) + c)) mod 256 < 256 /\
               ((a + (Z.pred (- d) + c)) mod 256 = a - d - 1 + c \/
                (a + (Z.pred (- d) + c)) mod 256 = a - d - 1 + c + 256))
    by (Z.div_mod_to_equations; lia).
  generalize dependent ((a + (Z.pred (- d) + c)) mod 256). intros r Hs.
  destruct (128 <=? a) eqn:E1, (128 <=? d) eqn:E2, (128 <=? r) eqn:E3,
    (a <? 128) eqn:E4, (d <? 128) eqn:E5; cbn [xorb andb negb]; lia.
Qed.

(** X19: ADC #d adds the operand and the carry in binary arithmetic: A is the
    sum modulo 256, C the carry out, Z and N describe the new A, V is set
    exactly when the signed sum leaves -128 .. 127. *)
Theorem instruction_ADC_immediate s instr d
  (Hi : dict_get opcodes 0x69 = Some instr)
  (Hf : NoDup (cpu_flag s)) (Ha : byte_ok (cpu_acc s)) (Hd : byte_ok d) :
  let c := b2z (Flag_isset (cpu_flag s) Flag_C) in
  let sum := cpu_acc s + d + c in
  let ssum := signed_byte_to_int (cpu_acc s) 8 + signed_byte_to_int d 8 + c in
  exists s',
    instruction_ADC 0x69 instr d s = Ok ((cpu_pc s + 2, cpu_cycles s + 2), s') /\
    cpu_acc s' = sum mod 0x100 /\
    Flag_isset (cpu_flag s') Flag_C = (0xFF <? sum) /\
    Flag_isset (cpu_flag s') Flag_Z = (sum mod 0x100 =? 0) /\
    Flag_isset (cpu_flag s') Flag_N = (0x80 <=? sum mod 0x100) /\
    Flag_isset (cpu_flag s') Flag_V = negb ((-128 <=? ssum) && (ssum <=? 127)) /\
    flags_frame [Flag__; Flag_B; Flag_D; Flag_I] s s' /\
    cpu_x s' = cpu_x s /\ cpu_y s' = cpu_y s /\ regs_frame s s'.
Proof.
  intros c sum ssum. table_entry Hi.
  assert (Hc : 0 <= c <= 1) by (unfold c; apply b2z_range).
  assert (T : twp (instruction_ADC 0x69 (mkInstr ADC 2 2 0) d)
                (fun r s' => r = (cpu_pc s + 2, cpu_cycles s + 2) /\
                   cpu_acc s' = sum mod 0x100 /\
                   Flag_isset (cpu_flag s') Flag_C = (0xFF <? sum) /\
                   Flag_isset (cpu_flag s') Flag_Z = (sum mod 0x100 =? 0) /\
                   Flag_isset (cpu_flag s') Flag_N = (0x80 <=? sum mod 0x100) /\
                   Flag_isset (cpu_flag s') Flag_V = negb ((-128 <=? ssum) && (ssum <=? 127)) /\
                   flags_frame [Flag__; Flag_B; Flag_D; Flag_I] s s' /\
                   cpu_x s' = cpu_x s /\ cpu_y s' = cpu_y s /\ regs_frame s s') s).
  { unfold instruction_ADC, adc_core, ret_next_pbc.
    change (0x69 =? 0x69) with true. cbv iota.
    repeat tw_step. fold c.
    replace (cpu_acc s + (d + c)) with sum by (unfold sum; lia).
    cbn [instr1 instr2 instr3 b2z].
    split; [f_equal; lia|]. split; [reflexivity|].
    isset_norm.
    split; [lia|]. split; [reflexivity|].
    split; [rewrite truthy_land_128, testbit7_mod; reflexivity|].
    split.
    { unfold ssum. rewrite !signed_byte_to_int_8 by assumption.
      unfold sum. replace (cpu_acc s + d + c) with (cpu_acc s + (d + c)) by lia.
      apply adc_overflow_bit; assumption. }
    split; [flags_frame_tac|].
    unfold regs_frame. st_simpl. repeat split; reflexivity. }
  apply twp_ok in T. destruct T as (r & s' & E & -> & T). exists s'. split; assumption.
Qed.

Lemma instruction_ADC_immediate_witness :
  exists s',
    instruction_ADC 0x69 (mkInstr ADC 2 2 0) 0x50
      (mkCPU 0xFD 0x8000 0x50 0 0 0 image_nop INIT_FLAGS PPU_new)
      = Ok ((0x8000 + 2, 0 + 2), s') /\
    cpu_acc s' = 0xA0 /\ Flag_isset (cpu_flag s') Flag_V = true.
Proof.
  destruct (instruction_ADC_immediate
              (mkCPU 0xFD 0x8000 0x50 0 0 0 image_nop INIT_FLAGS PPU_new)
              (mkInstr ADC 2 2 0) 0x50)
    as (s' & E & Hacc & _ & _ & _ & HV & _).
  - reflexivity.
  - repeat constructor; cbn; intuition discriminate.
  - cbn. unfold byte_ok. lia.
  - unfold byte_ok. lia.
  - exists s'. split; [exact E|]. split; [exact Hacc | exact HV].
Defined.

(** X20: SBC #d subtracts the operand and the borrow (the complement of C):
    A is the difference modulo 256, C is set exactly when no borrow is
    needed, Z and N describe the new A, V is set exactly when the signed
    difference leaves -128 .. 127. *)
Theorem instruction_SBC_immediate s instr d
  (Hi : dict_get opcodes 0xE9 = Some instr)
  (Hf : NoDup (cpu_flag s)) (Ha : byte_ok (cpu_acc s)) (Hd : byte_ok d) :
  let c := b2z (Flag_isset (cpu_flag s) Flag_C) in
  let diff := cpu_acc s - d - (1 - c) in
  let sdiff := signed_byte_to_int (cpu_acc s) 8 - signed_byte_to_int d 8 - (1 - c) in
  exists s',
    instruction_SBC 0xE9 instr d s = Ok ((cpu_pc s + 2, cpu_cycles s + 2), s') /\
    cpu_acc s' = diff mod 0x100 /\
    Flag_isset (cpu_flag s') Flag_C = (0 <=? diff) /\
    Flag_isset (cpu_flag s') Flag_Z = (diff mod 0x100 =? 0) /\
    Flag_isset (cpu_flag s') Flag_N = (0x80 <=? diff mod 0x100) /\
    Flag_isset (cpu_flag s') Flag_V = negb ((-128 <=? sdiff) && (sdiff <=? 127)) /\
    flags_frame [Flag__; Flag_B; Flag_D; Flag_I] s s' /\
    cpu_x s' = cpu_x s /\ cpu_y s' = cpu_y s /\ regs_frame s s'.
Proof.
  intros c diff sdiff. table_entry Hi.
  assert (Hc : 0 <= c <= 1) by (unfold c; apply b2z_range).
  assert (T : twp (instruction_SBC 0xE9 (mkInstr SBC 2 2 0) d)
                (fun r s' => r = (cpu_pc s + 2, cpu_cycles s + 2) /\
                   cpu_acc s' = diff mod 0x100 /\
                   Flag_isset (cpu_flag s') Flag_C = (0 <=? diff) /\
                   Flag_isset (cpu_flag s') Flag_Z = (diff mod 0x100 =? 0) /\
                   Flag_isset (cpu_flag s') Flag_N = (0x80 <=? diff mod 0x100) /\
                   Flag_isset (cpu_flag s') Flag_V = negb ((-128 <=? sdiff) && (sdiff <=? 127)) /\
                   flags_frame [Flag__; Flag_B; Flag_D; Flag_I] s s' /\
                   cpu_x s' = cpu_x s /\ cpu_y s' = cpu_y s /\ regs_frame s s') s).
  { unfold instruction_SBC, effective_addr, sbc_core, ret_next_page, ret_next_pbc.
    change (0xE9 =? 0xF5) with false. change (0xE9 =? 0xFD) with false.
    change (0xE9 =? 0xE1) with false. change (0xE9 =? 0xF1) with false.
    change (0xE9 =? 0xE9) with true.
    cbn [orb negb existsb Z.eqb Pos.eqb].
    repeat tw_step. fold c.
    cbn [instr1 instr2 instr3].
    split; [f_equal; lia|].
    assert (Ediff : cpu_acc s + (Z.lnot d + c) = diff)
      by (unfold diff, Z.lnot; lia).
    pose proof (sbc_overflow_bit (cpu_acc s) d c Ha Hd Hc) as HV.
    rewrite Ediff in *.
    split; [reflexivity|].
    isset_norm.
    split; [destruct (diff <? 0) eqn:E; [cbn [andb negb]|cbn [andb negb]]; lia|].
    split; [reflexivity|].
    split; [rewrite truthy_land_128, testbit7_mod; reflexivity|].
    split.
    { unfold sdiff. rewrite !signed_byte_to_int_8 by assumption. exact HV. }
    split; [flags_frame_tac|].
    unfold regs_frame. st_simpl. repeat split; reflexivity. }
  apply twp_ok in T. destruct T as (r & s' & E & -> & T). exists s'. split; assumption.
Qed.

Lemma instruction_SBC_immediate_witness :
  exists s',
    instruction_SBC 0xE9 (mkInstr SBC 2 2 0) 0x01
      (mkCPU 0xFD 0x8000 0x80 0 0 0 image_nop [Flag__; Flag_I; Flag_C] PPU_new)
      = Ok ((0x8000 + 2, 0 + 2), s') /\
    cpu_acc s' = 0x7F /\ Flag_isset (cpu_flag s') Flag_V = true /\
    Flag_isset (cpu_flag s') Flag_C = true.
Proof.
  destruct (instruction_SBC_immediate
              (mkCPU 0xFD 0x8000 0x80 0 0 0 image_nop [Flag__; Flag_I; Flag_C] PPU_new)
              (mkInstr SBC 2 2 0) 0x01)
    as (s' & E & Hacc & HC & _ & _ & HV & _).
  - reflexivity.
  - repeat constructor; cbn; intuition discriminate.
  - cbn. unfold byte_ok. lia.
  - unfold byte_ok. lia.
  - exists s'. split; [exact E|]. split; [exact Hacc | split; [exact HV | exact HC]].
Defined.



Ltac frame_tac := unfold regs_frame; st_simpl; repeat split; reflexivity.

Lemma returns_twp m s len cyc (post : CPU -> Prop) :
  twp m (fun r s' => r = (cpu_pc s + len, cpu_cycles s + cyc) /\ post s') s ->
  returns m s len cyc post.
Proof.
  intros T. apply twp_ok in T. destruct T as (r & s' & E & -> & T).
  exists s'. split; assumption.
Qed.

Ltac compared_tac :=
  apply returns_twp;
  unfold instruction_CMP, instruction_CPX, instruction_CPY, compare_xy, effective_addr,
    compare_mod, ret_next_page, ret_next_pbc, ret_next;
  cbn [orb negb existsb Z.eqb Pos.eqb];
  repeat tw_step; cbn [instr1 instr2 instr3];
  split; [f_equal; lia|];
  unfold compared; st_simpl; isset_norm;
  rewrite ?truthy_land_128, ?testbit7_mod, ?Z.mod_mod by lia;
  repeat (split; [reflexivity|]);
  split; [flags_frame_tac|]; repeat split; reflexivity.

(** X21: CMP, CPX and CPY with an immediate operand d compare A, X and Y
    with d: C is set exactly when the register is at least d, Z exactly when
    it equals d, N exactly when bit 7 of the difference is set; registers,
    memory and the other flags are unchanged. *)
Theorem compare_immediate s d (Hf : NoDup (cpu_flag s)) :
  returns (instruction_CMP 0xC9 (mkInstr CMP 2 2 0) d) s 2 2 (compared (cpu_acc s) d s) /\
  returns (instruction_CPX 0xE0 (mkInstr CPX 2 2 0) d) s 2 2 (compared (cpu_x s) d s) /\
  returns (instruction_CPY 0xC0 (mkInstr CPY 2 2 0) d) s 2 2 (compared (cpu_y s) d s).
Proof. repeat split; compared_tac. Qed.

Lemma compare_immediate_witness :
  returns (instruction_CMP 0xC9 (mkInstr CMP 2 2 0) 0x10)
          (mkCPU 0xFD 0x8000 0x10 0 0 0 image_nop INIT_FLAGS PPU_new) 2 2
          (fun s' => Flag_isset (cpu_flag s') Flag_Z = true).
Proof.
  destruct (proj1 (compare_immediate
                     (mkCPU 0xFD 0x8000 0x10 0 0 0 image_nop INIT_FLAGS PPU_new) 0x10
                     ltac:(repeat constructor; cbn; intuition discriminate)))
    as (s' & E & _ & HZ & _).
  exists s'. split; [exact E | exact HZ].
Defined.

Ltac moved_tac :=
  apply returns_twp;
  unfold instruction_LDA, instruction_LDX, instruction_LDY, load_xy, index_addr,
    instruction_TAX, instruction_TAY, instruction_TXA, instruction_TYA, transfer,
    instruction_INX, instruction_INY, instruction_DEX, instruction_DEY, inc_dec_reg,
    effective_addr, set_zn_ge, set_zn_and, ret_next_page, ret_next_pbc, ret_next;
  cbn [orb negb existsb Z.eqb Pos.eqb];
  repeat tw_step; cbn [instr1 instr2 instr3];
  split; [f_equal; lia|];
  unfold moved, loaded; st_simpl; isset_norm;
  rewrite ?truthy_land_128, ?testbit7_mod, ?Z.mod_mod by lia;
  repeat (split; [reflexivity|]);
  split; [flags_frame_tac | frame_tac].

(** X22: the immediate loads, the transfers between A, X and Y and the
    increments and decrements of X and Y put the value in the destination
    register (an increment or decrement wraps modulo 256), leave the other
    registers, the memory and the flags V, B, D, I and C alone, and set Z
    exactly when the value is 0 and N exactly when it is 0x80 or more. *)
Theorem register_moves s d (Hf : NoDup (cpu_flag s)) :
  returns (instruction_LDA 0xA9 (mkInstr LDA 2 2 0) d) s 2 2
          (moved d d (cpu_x s) (cpu_y s) s) /\
  returns (instruction_LDX 0xA2 (mkInstr LDX 2 2 0) d) s 2 2
          (moved d (cpu_acc s) d (cpu_y s) s) /\
  returns (instruction_LDY 0xA0 (mkInstr LDY 2 2 0) d) s 2 2
          (moved d (cpu_acc s) (cpu_x s) d s) /\
  returns (instruction_TAX 0xAA (mkInstr TAX 1 2 0) 0) s 1 2
          (moved (cpu_acc s) (cpu_acc s) (cpu_acc s) (cpu_y s) s) /\
  returns (instruction_TAY 0xA8 (mkInstr TAY 1 2 0) 0) s 1 2
          (moved (cpu_acc s) (cpu_acc s) (cpu_x s) (cpu_acc s) s) /\
  returns (instruction_TXA 0x8A (mkInstr TXA 1 2 0) 0) s 1 2
          (moved (cpu_x s) (cpu_x s) (cpu_x s) (cpu_y s) s) /\
  returns (instruction_TYA 0x98 (mkInstr TYA 1 2 0) 0) s 1 2
          (moved (cpu_y s) (cpu_y s) (cpu_x s) (cpu_y s) s) /\
  returns (instruction_INX 0xE8 (mkInstr INX 1 2 0) 0) s 1 2
          (moved ((cpu_x s + 1) mod 0x100)
                 (cpu_acc s) ((cpu_x s + 1) mod 0x100) (cpu_y s) s) /\
  returns (instruction_DEX 0xCA (mkInstr DEX 1 2 0) 0) s 1 2
          (moved ((cpu_x s - 1) mod 0x100)
                 (cpu_acc s) ((cpu_x s - 1) mod 0x100) (cpu_y s) s) /\
  returns (instruction_INY 0xC8 (mkInstr INY 1 2 0) 0) s 1 2
          (moved ((cpu_y s + 1) mod 0x100)
                 (cpu_acc s) (cpu_x s) ((cpu_y s + 1) mod 0x100) s) /\
  returns (instruction_DEY 0x88 (mkInstr DEY 1 2 0) 0) s 1 2
          (moved ((cpu_y s - 1) mod 0x100)
                 (cpu_acc s) (cpu_x s) ((cpu_y s - 1) mod 0x100) s).
Proof. repeat split; moved_tac. Qed.

(** INX at X = 0xFF *)
Lemma register_moves_witness :
  returns (instruction_INX 0xE8 (mkInstr INX 1 2 0) 0)
          (mkCPU 0xFD 0x8000 0 0xFF 0 0 image_nop INIT_FLAGS PPU_new) 1 2
          (fun s' => cpu_x s' = 0 /\ Flag_isset (cpu_flag s') Flag_Z = true).
Proof.
  destruct (register_moves (mkCPU 0xFD 0x8000 0 0xFF 0 0 image_nop INIT_FLAGS PPU_new) 0
              ltac:(repeat constructor; cbn; intuition discriminate))
    as (_ & _ & _ & _ & _ & _ & _ & (s' & E & _ & Hx & _ & HZ & _) & _).
  exists s'. split; [exact E | split; [exact Hx | exact HZ]].
Defined.



Lemma mem_update_eq f i v j : j = i -> mem_update f i v j = v.
Proof. intros ->. unfold mem_update. rewrite Z.eqb_refl. reflexivity. Qed.

Lemma mem_update_neq f i v j : j <> i -> mem_update f i v j = f j.
Proof. intros H. unfold mem_update. replace (j =? i) with false by lia. reflexivity. Qed.

Lemma twp_stack_push v (Q : unit -> CPU -> Prop) s :
  0 <= cpu_sp s <= 0xFF ->
  Q tt (set_sp (cpu_sp s - 1)
          (set_mem (mkMemory (mem_update (mem (cpu_mem s)) (0x100 + cpu_sp s) (v mod 0x100))
                             (is_mirror (cpu_mem s))) s)) ->
  twp (stack_push v) Q s.
Proof.
  intros Hsp H. unfold stack_push. apply twp_bind, twp_gets.
  replace (cpu_sp s <? 0) with false by lia.
  apply twp_bind, twp_mem_write_ram; [lia|]. rewrite Z.mod_mod by lia.
  apply twp_modify. exact H.
Qed.

Lemma twp_stack_pop (Q : Z -> CPU -> Prop) s :
  -1 <= cpu_sp s < 0xFF ->
  Q (mem (cpu_mem s) (0x100 + (cpu_sp s + 1))) (set_sp (cpu_sp s + 1) s) ->
  twp stack_pop Q s.
Proof.
  intros Hsp H. unfold stack_pop. apply twp_bind, twp_gets.
  replace (cpu_sp s =? 0xFF) with false by lia.
  apply twp_bind, twp_modify. apply twp_mem_read_int_ram; [cbn [cpu_sp set_sp]; lia|].
  exact H.
Qed.

Ltac tw_stack :=
  lazymatch goal with
  | |- twp (stack_push _) _ _ => apply twp_stack_push; [st_simpl; lia|]
  | |- twp stack_pop _ _ => apply twp_stack_pop; [st_simpl; lia|]
  end; st_simpl; cbn [mem is_mirror].

(** X15: a pushed value is the next one popped, reduced to a byte; the stack
    pointer is back where it was and the one cell below it holds the value.
    A push needs SP >= 0 and a pop SP <> 0xFF. *)
Theorem stack_push_pop s v (Hsp : 0 <= cpu_sp s <= 0xFF) :
  exists s',
    (stack_push v ;;; stack_pop) s = Ok (v mod 0x100, s') /\
    cpu_sp s' = cpu_sp s /\
    mem (cpu_mem s') = mem_update (mem (cpu_mem s)) (0x100 + cpu_sp s) (v mod 0x100) /\
    is_mirror (cpu_mem s') = is_mirror (cpu_mem s) /\
    cpu_acc s' = cpu_acc s /\ cpu_x s' = cpu_x s /\ cpu_y s' = cpu_y s /\
    cpu_pc s' = cpu_pc s /\ cpu_cycles s' = cpu_cycles s /\
    cpu_flag s' = cpu_flag s /\ cpu_ppu s' = cpu_ppu s.
Proof.
  assert (T : twp (stack_push v ;;; stack_pop)
                (fun r s' => r = v mod 0x100 /\
                   cpu_sp s' = cpu_sp s /\
                   mem (cpu_mem s') = mem_update (mem (cpu_mem s)) (0x100 + cpu_sp s) (v mod 0x100) /\
                   is_mirror (cpu_mem s') = is_mirror (cpu_mem s) /\
                   cpu_acc s' = cpu_acc s /\ cpu_x s' = cpu_x s /\ cpu_y s' = cpu_y s /\
                   cpu_pc s' = cpu_pc s /\ cpu_cycles s' = cpu_cycles s /\
                   cpu_flag s' = cpu_flag s /\ cpu_ppu s' = cpu_ppu s) s).
  { apply twp_bind. tw_stack. tw_stack.
    split; [apply mem_update_eq; lia|]. split; [lia|]. repeat split; reflexivity. }
  apply twp_ok in T. destruct T as (r & s' & E & -> & T). exists s'. split; assumption.
Qed.

(** The two raises of the stack *)
Lemma stack_raises s v :
  (cpu_sp s < 0 -> stack_push v s = Raise StackFull) /\
  (cpu_sp s = 0xFF -> stack_pop s = Raise StackEmpty).
Proof.
  split; intros H; unfold stack_push, stack_pop, bind, gets, raise.
  - replace (cpu_sp s <? 0) with true by lia. reflexivity.
  - rewrite H. reflexivity.
Qed.

(** X24: PHA then PLA, with SP in 0 .. 0xFF: A is reduced modulo 256 (left
    as it is when it is a byte), SP is back where it was, the stack cell
    below it holds the byte, Z and N describe it, and nothing else has
    changed. *)
Theorem PHA_PLA_round_trip s
  (Hf : NoDup (cpu_flag s)) (Hsp : 0 <= cpu_sp s <= 0xFF) :
  returns (instruction_PHA 0x48 (mkInstr PHA 1 3 0) 0 ;;;
           instruction_PLA 0x68 (mkInstr PLA 1 4 0) 0) s 1 4
    (fun s' =>
       cpu_acc s' = cpu_acc s mod 0x100 /\
       cpu_sp s' = cpu_sp s /\
       Flag_isset (cpu_flag s') Flag_Z = (cpu_acc s mod 0x100 =? 0) /\
       Flag_isset (cpu_flag s') Flag_N = (0x80 <=? cpu_acc s mod 0x100) /\
       flags_frame [Flag_V; Flag__; Flag_B; Flag_D; Flag_I; Flag_C] s s' /\
       mem (cpu_mem s')
         = mem_update (mem (cpu_mem s)) (0x100 + cpu_sp s) (cpu_acc s mod 0x100) /\
       cpu_x s' = cpu_x s /\ cpu_y s' = cpu_y s /\ cpu_pc s' = cpu_pc s /\
       cpu_cycles s' = cpu_cycles s /\ cpu_ppu s' = cpu_ppu s).
Proof.
  apply returns_twp.
  unfold instruction_PHA, instruction_PLA, set_zn_and, ret_next.
  apply twp_bind. repeat tw_step. tw_stack. repeat tw_step. tw_stack.
  repeat tw_step. cbn [instr1 instr2].
  rewrite mem_update_eq by lia.
  split; [reflexivity|]. split; [reflexivity|]. split; [lia|].
  isset_norm. rewrite truthy_land_128, testbit7_mod, Z.mod_mod by lia.
  split; [reflexivity|]. split; [reflexivity|].
  split; [flags_frame_tac|]. repeat split; reflexivity.
Qed.

Lemma PHA_PLA_round_trip_witness :
  returns (instruction_PHA 0x48 (mkInstr PHA 1 3 0) 0 ;;;
           instruction_PLA 0x68 (mkInstr PLA 1 4 0) 0)
    (mkCPU 0xFD 0x8000 0x80 0 0 0 image_nop INIT_FLAGS PPU_new) 1 4
    (fun s' => cpu_acc s' = 0x80 /\ cpu_sp s' = 0xFD /\
               Flag_isset (cpu_flag s') Flag_N = true).
Proof.
  destruct (PHA_PLA_round_trip (mkCPU 0xFD 0x8000 0x80 0 0 0 image_nop INIT_FLAGS PPU_new))
    as (s' & E & Ha & Hs & _ & HN & _).
  - repeat constructor; cbn; intuition discriminate.
  - cbn. lia.
  - exists s'. split; [exact E|]. split; [exact Ha | split; [exact Hs | exact HN]].
Defined.

Lemma word_split t :
  Z.land t 0xFF mod 0x100 + Z.shiftl (Z.shiftr t 8 mod 0x100) 8 = t mod 0x10000.
Proof.
  change 0xFF with (Z.ones 8). rewrite Z.land_ones, Z.shiftr_div_pow2, Z.shiftl_mul_pow2 by lia.
  change (2 ^ 8) with 256. rewrite Z.mod_mod by lia.
  Z.div_mod_to_equations. lia.
Qed.

(** X25: JSR then RTS, with SP in 1 .. 0xFF: RTS returns to the address
    three bytes after the JSR, taken modulo 0x10000 before the last
    increment, in 12 cycles; SP, the registers and the flags are back, and
    only the two stack cells used have changed. *)
Theorem JSR_RTS_round_trip s addr (Hsp : 1 <= cpu_sp s <= 0xFF) :
  exists s',
    (r <- instruction_JSR 0x20 (mkInstr JSR 3 6 0) addr ;;
     modify (set_pc (fst r)) ;;; modify (set_cycles (snd r)) ;;;
     instruction_RTS 0x60 (mkInstr RTS 1 6 0) 0) s
    = Ok (((cpu_pc s + 2) mod 0x10000 + 1, cpu_cycles s + 12), s') /\
    cpu_pc s' = addr /\ cpu_sp s' = cpu_sp s /\
    cpu_acc s' = cpu_acc s /\ cpu_x s' = cpu_x s /\ cpu_y s' = cpu_y s /\
    cpu_flag s' = cpu_flag s /\ cpu_ppu s' = cpu_ppu s /\
    (forall j, j <> 0x100 + cpu_sp s -> j <> 0x100 + cpu_sp s - 1 ->
               mem (cpu_mem s') j = mem (cpu_mem s) j).
Proof.
  assert (T : twp (r <- instruction_JSR 0x20 (mkInstr JSR 3 6 0) addr ;;
                   modify (set_pc (fst r)) ;;; modify (set_cycles (snd r)) ;;;
                   instruction_RTS 0x60 (mkInstr RTS 1 6 0) 0)
                (fun r s' => r = ((cpu_pc s + 2) mod 0x10000 + 1, cpu_cycles s + 12) /\
                   cpu_pc s' = addr /\ cpu_sp s' = cpu_sp s /\
                   cpu_acc s' = cpu_acc s /\ cpu_x s' = cpu_x s /\ cpu_y s' = cpu_y s /\
                   cpu_flag s' = cpu_flag s /\ cpu_ppu s' = cpu_ppu s /\
                   (forall j, j <> 0x100 + cpu_sp s -> j <> 0x100 + cpu_sp s - 1 ->
                              mem (cpu_mem s') j = mem (cpu_mem s) j)) s).
  { unfold instruction_JSR, instruction_RTS.
    apply twp_bind. repeat tw_step. cbn [instr1 instr2].
    tw_stack. repeat tw_step. tw_stack. repeat tw_step.
    tw_stack. repeat tw_step. tw_stack. repeat tw_step.
    rewrite mem_update_eq by lia.
    rewrite mem_update_neq, mem_update_eq by lia.
    split.
    { f_equal; [|lia].
      replace (cpu_pc s + 3 - 1) with (cpu_pc s + 2) by lia.
      rewrite <- (word_split (cpu_pc s + 2)). lia. }
    split; [reflexivity|]. split; [lia|]. repeat (split; [reflexivity|]).
    intros j H1 H2. cbn [mem]. rewrite !mem_update_neq by lia. reflexivity. }
  apply twp_ok in T. destruct T as (r & s' & E & -> & T). exists s'. split; assumption.
Qed.

Lemma JSR_RTS_round_trip_witness :
  exists s',
    (r <- instruction_JSR 0x20 (mkInstr JSR 3 6 0) 0x9000 ;;
     modify (set_pc (fst r)) ;;; modify (set_cycles (snd r)) ;;;
     instruction_RTS 0x60 (mkInstr RTS 1 6 0) 0)
      (mkCPU 0xFD 0x8000 0 0 0 0 image_nop INIT_FLAGS PPU_new)
    = Ok (((0x8000 + 2) mod 0x10000 + 1, 0 + 12), s') /\
    cpu_pc s' = 0x9000 /\ cpu_sp s' = 0xFD.
Proof.
  destruct (JSR_RTS_round_trip (mkCPU 0xFD 0x8000 0 0 0 0 image_nop INIT_FLAGS PPU_new) 0x9000)
    as (s' & E & Hpc & Hsp & _).
  - cbn. lia.
  - exists s'. split; [exact E | split; [exact Hpc | exact Hsp]].
Defined.

Lemma stack_push_pop_witness :
  exists s',
    (stack_push 0x1AB ;;; stack_pop)
      (mkCPU 0 0x8000 0 0 0 0 image_nop INIT_FLAGS PPU_new) = Ok (0x1AB mod 0x100, s') /\
    cpu_sp s' = 0.
Proof.
  destruct (stack_push_pop (mkCPU 0 0x8000 0 0 0 0 image_nop INIT_FLAGS PPU_new) 0x1AB)
    as (s' & E & Hsp & _).
  - cbn. lia.
  - exists s'. split; [exact E | exact Hsp].
Defined.

(** Above the I/O area a read is a read of the array at the mapped
    index, with or without the PPU. *)
Lemma Memory_read_high m ppu a :
  0x4015 <= a <= 0xFFFF -> Memory_read m ppu a = Ok (PInt (mem m (map_byte m a))).
Proof.
  intros Ha. pose proof (map_byte_range16 m a ltac:(lia)) as Hr.
  assert (Hm : 0x4015 <= map_byte m a).
  { unfold map_byte.
    replace ((0 <=? a) && (a <=? 0x1FFF)) with false by lia.
    replace ((0x2000 <=? a) && (a <=? 0x3FFF)) with false by lia.
    destruct (is_mirror m && (0xC000 <=? a) && (a <=? 0xFFFF)) eqn:E; [|lia].
    apply andb_true_iff in E. destruct E as [E _]. apply andb_true_iff in E. lia. }
  unfold Memory_read. rewrite in_registers_false by lia.
  unfold py_index, MEM_LEN.
  replace ((0 <=? map_byte m a) && (map_byte m a <? 0xFFFF + 1)) with true by lia.
  reflexivity.
Qed.

Lemma twp_mem_read_int_high a (Q : Z -> CPU -> Prop) s :
  0x4015 <= a <= 0xFFFF -> Q (mem (cpu_mem s) (map_byte (cpu_mem s) a)) s ->
  twp (mem_read_int a) Q s.
Proof.
  intros Ha H. unfold twp, mem_read_int, mem_read, bind.
  rewrite Memory_read_high by assumption. exact H.
Qed.

(** X26: RTI after [handle_irq], with SP in 2 .. 0xFF: RTI returns to the
    interrupted PC modulo 0x10000, 13 cycles later, with SP and the
    registers restored; the status byte is the one before with B clear and
    I and the reserved bit set; only the three stack cells used have
    changed. *)
Theorem IRQ_RTI_round_trip s
  (Hf : flags_wf (cpu_flag s)) (Hsp : 2 <= cpu_sp s <= 0xFF) :
  exists s',
    (handle_irq ;;; instruction_RTI 0x40 (mkInstr RTI 1 6 0) 0) s
    = Ok ((cpu_pc s mod 0x10000, cpu_cycles s + 13), s') /\
    cpu_sp s' = cpu_sp s /\
    Flag_get_byte (cpu_flag s') = Z.lor (Z.land (Flag_get_byte (cpu_flag s)) 0xEF) 0x24 /\
    cpu_acc s' = cpu_acc s /\ cpu_x s' = cpu_x s /\ cpu_y s' = cpu_y s /\
    cpu_ppu s' = cpu_ppu s /\
    (forall j, j < 0x100 + cpu_sp s - 2 \/ 0x100 + cpu_sp s < j ->
               mem (cpu_mem s') j = mem (cpu_mem s) j).
Proof.
  pose proof (get_byte_range _ Hf) as Hp.
  assert (T : twp (handle_irq ;;; instruction_RTI 0x40 (mkInstr RTI 1 6 0) 0)
                (fun r s' => r = (cpu_pc s mod 0x10000, cpu_cycles s + 13) /\
                   cpu_sp s' = cpu_sp s /\
                   Flag_get_byte (cpu_flag s')
                   = Z.lor (Z.land (Flag_get_byte (cpu_flag s)) 0xEF) 0x24 /\
                   cpu_acc s' = cpu_acc s /\ cpu_x s' = cpu_x s /\ cpu_y s' = cpu_y s /\
                   cpu_ppu s' = cpu_ppu s /\
                   (forall j, j < 0x100 + cpu_sp s - 2 \/ 0x100 + cpu_sp s < j ->
                              mem (cpu_mem s') j = mem (cpu_mem s) j)) s).
  { unfold handle_irq, instruction_RTI, irq_vector, read_word.
    apply twp_bind. repeat tw_step.
    tw_stack. repeat tw_step. tw_stack. repeat tw_step. tw_stack. repeat tw_step.
    apply twp_mem_read_int_high; [lia|]. repeat tw_step.
    apply twp_mem_read_int_high; [lia|]. repeat tw_step.
    tw_stack. repeat tw_step. tw_stack. repeat tw_step. tw_stack. repeat tw_step.
    cbn [instr2 mem].
    rewrite (mem_update_eq _ _ _ (256 + (cpu_sp s - 1 - 1 - 1 + 1))) by lia.
    rewrite (mem_update_neq _ _ _ (256 + (cpu_sp s - 1 - 1 - 1 + 1 + 1))) by lia.
    rewrite (mem_update_eq _ _ _ (256 + (cpu_sp s - 1 - 1 - 1 + 1 + 1))) by lia.
    rewrite !(mem_update_neq _ _ _ (256 + (cpu_sp s - 1 - 1 - 1 + 1 + 1 + 1))) by lia.
    rewrite (mem_update_eq _ _ _ (256 + (cpu_sp s - 1 - 1 - 1 + 1 + 1 + 1))) by lia.
    split; [f_equal; [apply word_split | lia]|].
    split; [lia|].
    split.
    { rewrite (Z.mod_small (Flag_get_byte (cpu_flag s))) by lia.
      rewrite get_byte_set_byte. f_equal.
      apply Z.eqb_eq. apply (byte_forall rti_flags_ok eq_refl). exact Hp. }
    repeat (split; [reflexivity|]).
    intros j Hj. rewrite !mem_update_neq by lia. reflexivity. }
  apply twp_ok in T. destruct T as (r & s' & E & -> & T). exists s'. split; assumption.
Qed.

Lemma IRQ_RTI_round_trip_witness :
  exists s',
    (handle_irq ;;; instruction_RTI 0x40 (mkInstr RTI 1 6 0) 0)
      (mkCPU 0xFD 0x8000 0 0 0 0 image_nop [Flag__; Flag_C] PPU_new)
    = Ok ((0x8000 mod 0x10000, 0 + 13), s') /\
    cpu_sp s' = 0xFD /\
    Flag_get_byte (cpu_flag s') = Z.lor (Z.land (Flag_get_byte [Flag__; Flag_C]) 0xEF) 0x24.
Proof.
  destruct (IRQ_RTI_round_trip (mkCPU 0xFD 0x8000 0 0 0 0 image_nop [Flag__; Flag_C] PPU_new))
    as (s' & E & Hsp & HP & _).
  - split; [repeat constructor; cbn; intuition discriminate
           | intros x Hx; cbn in Hx; cbn; intuition].
  - cbn. lia.
  - exists s'. split; [exact E | split; [exact Hsp | exact HP]].
Defined.

Lemma rol_ror_byte a c :
  byte_ok a -> 0 <= c <= 1 ->
  Z.shiftr ((Z.shiftl a 1 + c) mod 0x100) 1
  + Z.shiftl (b2z (truthy (Z.land a 0x80))) 7 = a /\
  truthy (Z.land ((Z.shiftl a 1 + c) mod 0x100) 0x01) = (c =? 1).
Proof.
  intros Ha Hc. unfold byte_ok in Ha.
  rewrite truthy_land_128, testbit7_mod, (Z.mod_small a) by lia.
  rewrite (truthy_land_bit _ 0) by lia. rewrite Z.bit0_odd.
  rewrite Z.shiftr_div_pow2, Z.shiftl_mul_pow2 by lia. change (2 ^ 1) with 2.
  assert (Hm : (a * 2 + c) mod 256 = if 128 <=? a then a * 2 + c - 256 else a * 2 + c).
  { destruct (128 <=? a) eqn:E; Z.div_mod_to_equations; lia. }
  rewrite Hm. split.
  - destruct (128 <=? a) eqn:E; cbn [b2z];
      [change (Z.shiftl 1 7) with 128 | change (Z.shiftl 0 7) with 0];
      Z.div_mod_to_equations; lia.
  - assert (Hc' : c = 0 \/ c = 1) by lia.
    destruct (128 <=? a), Hc' as [-> | ->].
    + replace (a * 2 + 0 - 256) with (2 * (a - 128)) by lia. rewrite Z.odd_mul. reflexivity.
    + replace (a * 2 + 1 - 256) with (2 * (a - 128) + 1) by lia.
      rewrite Z.odd_add_mul_2 || rewrite Z.add_comm, Z.odd_add_mul_2. reflexivity.
    + replace (a * 2 + 0) with (2 * a) by lia. rewrite Z.odd_mul. reflexivity.
    + replace (a * 2 + 1) with (1 + 2 * a) by lia. rewrite Z.odd_add_mul_2. reflexivity.
Qed.

(** X23: ROL A then ROR A on a byte: A and the carry are what they were, Z
    and N describe A, and nothing else has changed. *)
Theorem ROL_ROR_round_trip s
  (Hf : NoDup (cpu_flag s)) (Ha : byte_ok (cpu_acc s)) :
  returns (instruction_ROL 0x2A (mkInstr ROL 1 2 0) 0 ;;;
           instruction_ROR 0x6A (mkInstr ROR 1 2 0) 0) s 1 2
    (fun s' =>
       cpu_acc s' = cpu_acc s /\
       Flag_isset (cpu_flag s') Flag_C = Flag_isset (cpu_flag s) Flag_C /\
       Flag_isset (cpu_flag s') Flag_Z = (cpu_acc s =? 0) /\
       Flag_isset (cpu_flag s') Flag_N = (0x80 <=? cpu_acc s) /\
       flags_frame [Flag_V; Flag__; Flag_B; Flag_D; Flag_I] s s' /\
       cpu_x s' = cpu_x s /\ cpu_y s' = cpu_y s /\ regs_frame s s').
Proof.
  apply returns_twp.
  unfold instruction_ROL, instruction_ROR, index_addr, rotate_flags,
    ret_next_page, ret_next_pbc.
  cbn [orb negb existsb Z.eqb Pos.eqb].
  apply twp_bind. repeat tw_step. cbn [instr1 instr2 instr3].
  isset_norm.
  destruct (rol_ror_byte (cpu_acc s) (b2z (Flag_isset (cpu_flag s) Flag_C)) Ha
              (b2z_range _)) as [E1 E2].
  rewrite E1, E2.
  split; [f_equal; lia|]. split; [reflexivity|].
  split; [destruct (Flag_isset (cpu_flag s) Flag_C); reflexivity|].
  split; [reflexivity|].
  split; [unfold byte_ok in Ha; rewrite truthy_land_128, testbit7_mod, Z.mod_small by lia;
          reflexivity|].
  split; [flags_frame_tac|].
  split; [reflexivity|]. split; [reflexivity|]. frame_tac.
Qed.

Lemma ROL_ROR_round_trip_witness :
  returns (instruction_ROL 0x2A (mkInstr ROL 1 2 0) 0 ;;;
           instruction_ROR 0x6A (mkInstr ROR 1 2 0) 0)
    (mkCPU 0xFD 0x8000 0x81 0 0 0 image_nop INIT_FLAGS PPU_new) 1 2
    (fun s' => cpu_acc s' = 0x81 /\ Flag_isset (cpu_flag s') Flag_C = false).
Proof.
  destruct (ROL_ROR_round_trip (mkCPU 0xFD 0x8000 0x81 0 0 0 image_nop INIT_FLAGS PPU_new))
    as (s' & E & Ha & HC & _).
  - repeat constructor; cbn; intuition discriminate.
  - cbn. unfold byte_ok. lia.
  - exists s'. split; [exact E | split; [exact Ha | exact HC]].
Defined.



(** X28: STA zp,X then LDA zp,X: the operand plus X wraps inside page zero,
    whatever X holds, and the byte stored is the byte loaded. *)
Theorem STA_LDA_zero_page_x s addr (Hf : NoDup (cpu_flag s)) :
  let cell := (addr + cpu_x s) mod 0x100 in
  returns (instruction_STA 0x95 (mkInstr STA 2 4 0) addr ;;;
           instruction_LDA 0xB5 (mkInstr LDA 2 4 0) addr) s 2 4
    (fun s' =>
       cpu_acc s' = cpu_acc s mod 0x100 /\
       mem (cpu_mem s') = mem_update (mem (cpu_mem s)) cell (cpu_acc s mod 0x100) /\
       Flag_isset (cpu_flag s') Flag_Z = (cpu_acc s mod 0x100 =? 0) /\
       Flag_isset (cpu_flag s') Flag_N = (0x80 <=? cpu_acc s mod 0x100) /\
       flags_frame [Flag_V; Flag__; Flag_B; Flag_D; Flag_I; Flag_C] s s' /\
       cpu_x s' = cpu_x s /\ cpu_y s' = cpu_y s /\ cpu_sp s' = cpu_sp s /\
       cpu_pc s' = cpu_pc s /\ cpu_cycles s' = cpu_cycles s /\ cpu_ppu s' = cpu_ppu s).
Proof.
  intros cell.
  assert (Hc : 0 <= cell < 0x100) by (apply Z.mod_pos_bound; lia).
  apply returns_twp.
  unfold instruction_STA, instruction_LDA, effective_addr, ret_next, ret_next_page,
    ret_next_pbc.
  cbn [orb negb existsb Z.eqb Pos.eqb].
  apply twp_bind. repeat tw_step. fold cell.
  rewrite (Z.mod_small cell 0x10000) by lia.
  apply twp_mem_write_ram; [lia|]. repeat tw_step. fold cell.
  rewrite (Z.mod_small cell 0x10000) by lia.
  apply twp_mem_read_int_ram; [lia|]. repeat tw_step.
  cbn [instr1 instr2 instr3 mem].
  rewrite mem_update_eq by reflexivity.
  split; [f_equal; lia|].
  split; [reflexivity|]. split; [reflexivity|].
  isset_norm.
  split; [reflexivity|]. split; [reflexivity|].
  split; [flags_frame_tac|]. repeat split; reflexivity.
Qed.

Lemma STA_LDA_zero_page_x_witness :
  returns (instruction_STA 0x95 (mkInstr STA 2 4 0) 0x80 ;;;
           instruction_LDA 0xB5 (mkInstr LDA 2 4 0) 0x80)
    (mkCPU 0xFD 0x8000 0x42 0xFF 0 0 image_nop INIT_FLAGS PPU_new) 2 4
    (fun s' => cpu_acc s' = 0x42 /\ mem (cpu_mem s') 0x7F = 0x42).
Proof.
  destruct (STA_LDA_zero_page_x (mkCPU 0xFD 0x8000 0x42 0xFF 0 0 image_nop INIT_FLAGS PPU_new)
              0x80)
    as (s' & E & Ha & Hm & _).
  - repeat constructor; cbn; intuition discriminate.
  - exists s'. split; [exact E|]. split; [exact Ha|]. rewrite Hm. reflexivity.
Defined.

Lemma land_shiftl a b n :
  0 <= n -> Z.land a (Z.shiftl b n) = Z.shiftl (Z.land (Z.shiftr a n) b) n.
Proof.
  intros Hn. apply Z.bits_inj'. intros m Hm.
  rewrite Z.land_spec. destruct (Z.lt_ge_cases m n) as [H|H].
  - rewrite !Z.shiftl_spec_low by assumption. apply andb_false_r.
  - rewrite !Z.shiftl_spec, Z.land_spec, Z.shiftr_spec by lia.
    replace (m - n + n) with m by lia. reflexivity.
Qed.

Lemma broken_addr_spec addr :
  0 <= addr <= 0xFFFF ->
  Z.land addr 0xFF00 + Z.land (addr + 1) 0x00FF
  = if addr mod 0x100 =? 0xFF then addr - 0xFF else addr + 1.
Proof.
  intros Ha.
  assert (E1 : Z.land addr 0xFF00 = addr - addr mod 0x100).
  { change 0xFF00 with (Z.shiftl 0xFF 8). rewrite land_shiftl by lia.
    change 0xFF with (Z.ones 8). rewrite Z.land_ones by lia.
    rewrite Z.shiftr_div_pow2, Z.shiftl_mul_pow2 by lia. change (2 ^ 8) with 256.
    Z.div_mod_to_equations. lia. }
  change 0x00FF with (Z.ones 8). rewrite Z.land_ones by lia. change (2 ^ 8) with 256.
  rewrite E1. change (Z.ones 8) with 255. destruct (addr mod 256 =? 255) eqn:E;
    [apply Z.eqb_eq in E | apply Z.eqb_neq in E]; Z.div_mod_to_equations; lia.
Qed.

(** X27: JMP (addr) takes the low byte of the target from [addr] and the high
    byte from the next address of the same page: for [addr] on the last
    byte of a page that is the first byte of that page, not of the next. *)
Theorem JMP_indirect_page_wrap s addr lo hi
  (Ha : 0 <= addr <= 0xFFFF)
  (Hlo : Memory_read (cpu_mem s) (Some (cpu_ppu s)) addr = Ok (PInt lo))
  (Hhi : Memory_read (cpu_mem s) (Some (cpu_ppu s))
           (if addr mod 0x100 =? 0xFF then addr - 0xFF else addr + 1) = Ok (PInt hi)) :
  instruction_JMP 0x6C (mkInstr JMP 3 5 0) addr s
  = Ok ((hi * 0x100 + lo, cpu_cycles s + 5), s).
Proof.
  unfold instruction_JMP. change (0x6C =? 0x4C) with false. cbv iota.
  rewrite broken_addr_spec by assumption.
  unfold bind, mem_read_int, mem_read, bind. rewrite Hlo. cbn [ret].
  unfold ret at 1. rewrite Hhi. unfold ret, gets. cbn [instr2].
  rewrite Z.shiftl_mul_pow2 by lia. reflexivity.
Qed.

(** The vector at 0x02FF/0x0200 of a RAM page *)
Lemma JMP_indirect_page_wrap_witness :
  instruction_JMP 0x6C (mkInstr JMP 3 5 0) 0x02FF
    (mkCPU 0xFD 0x8000 0 0 0 0
       (image [(0x0200, [0x80]); (0x02FF, [0x34; 0x12])]) INIT_FLAGS PPU_new)
  = Ok ((0x80 * 0x100 + 0x34, 0 + 5),
        mkCPU 0xFD 0x8000 0 0 0 0
          (image [(0x0200, [0x80]); (0x02FF, [0x34; 0x12])]) INIT_FLAGS PPU_new).
Proof.
  apply (JMP_indirect_page_wrap
           (mkCPU 0xFD 0x8000 0 0 0 0
              (image [(0x0200, [0x80]); (0x02FF, [0x34; 0x12])]) INIT_FLAGS PPU_new)
           0x02FF 0x34 0x80); [lia | reflexivity | reflexivity].
Defined.

Lemma wp_const {A} (m : M A) (P : Prop) s : P -> wp m (fun _ _ => P) s.
Proof. intros H. unfold wp. destruct (m s) as [[a s']|e]; [exact H | exact I]. Qed.

(** X16: [CPU.run] returns only when the byte at PC is in the table, is not
    BRK and has a handler; that leaves 230 of the 256 byte values. *)
Theorem CPU_run_returns_only_on_runnable s s' (H : CPU_run s = Ok (tt, s')) :
  (exists b, Memory_read (cpu_mem s) (Some (cpu_ppu s)) (cpu_pc s) = Ok (PInt b) /\
             runnable b = true) /\
  length (filter runnable all_bytes) = 230%nat.
Proof.
  split; [|vm_compute; reflexivity].
  refine (wp_ok CPU_run
            (fun _ _ => exists b,
               Memory_read (cpu_mem s) (Some (cpu_ppu s)) (cpu_pc s) = Ok (PInt b) /\
               runnable b = true) s tt s' _ H).
  unfold CPU_run. apply wp_bind, wp_gets.
  unfold get_current_instruction, get_instruction_at, get_current_pc_byte.
  apply wp_bind, wp_bind, wp_gets, wp_bind, wp_bind, wp_gets.
  apply wp_mem_read_eq. intros v Hv.
  destruct v as [b|]; [|apply wp_raise].
  destruct (dict_get opcodes b) as [i|] eqn:Ei; [|apply wp_raise].
  apply wp_ret, wp_bind, wp_gets.
  apply wp_bind, wp_read_bytes_any. intros bs.
  destruct (is_BRK (instr0 i)) eqn:EB; [apply wp_raise|].
  destruct (implemented (instr0 i)) eqn:EI.
  - apply wp_const. exists b. split; [exact Hv|].
    unfold runnable. rewrite Ei, EI, EB. reflexivity.
  - eapply wp_reread; [eassumption|]. apply wp_bind.
    destruct (instr0 i); try discriminate EI; apply wp_raise.
Qed.

Lemma CPU_run_returns_only_on_runnable_witness :
  (exists b, Memory_read image_nop (Some PPU_new) 0x8000 = Ok (PInt b) /\
             runnable b = true) /\
  length (filter runnable all_bytes) = 230%nat.
Proof.
  eapply (CPU_run_returns_only_on_runnable
            (mkCPU 0xFD 0x8000 0 0 0 0 image_nop INIT_FLAGS PPU_new)).
  vm_compute. reflexivity.
Defined.

Lemma handle_nmi_raises s : exists e, handle_nmi s = Raise e.
Proof.
  pose proof (wp_handle_nmi (fun _ _ => False) s) as H. unfold wp in H.
  destruct (handle_nmi s) as [[[] s']|e]; [contradiction | eauto].
Qed.

Lemma PPU_run_cases s :
  let p := cpu_ppu s in
  let c := ppu_cycles p mod CYCLES_PER_FRAME in
  if (c =? CYCLE_VBLANK) && truthy (Z.land (ppu_control p) 0x80)
  then exists e, PPU_run s = Raise e
  else PPU_run s = Ok (tt, set_ppu (PPU_after p (CYCLE_POSTRENDER <? c) 1) s).
Proof.
  intros p c.
  assert (Hlt : c = CYCLE_VBLANK -> (CYCLE_POSTRENDER <? c) = true)
    by (intros ->; reflexivity).
  destruct (c =? CYCLE_VBLANK) eqn:Ev, (truthy (Z.land (ppu_control p) 0x80)) eqn:Et;
    cbn [andb].
  - apply Z.eqb_eq in Ev. specialize (Hlt Ev).
    destruct (handle_nmi_raises
                (set_ppu (mkPPU (ppu_control p) (ppu_mask p) (Z.lor (ppu_status p) 0x80)
                                (ppu_cycles p)) s)) as [e He].
    exists e. unfold PPU_run, bind, gets, modify. fold p. fold c.
    rewrite Hlt, Ev, Et, Z.eqb_refl. cbn [andb]. fold p in He. rewrite He. reflexivity.
  - apply Z.eqb_eq in Ev. specialize (Hlt Ev).
    unfold PPU_run, bind, gets, modify, ret. fold p. fold c.
    rewrite Hlt, Et, andb_false_r. reflexivity.
  - unfold PPU_run, bind, gets, modify, ret. fold p. fold c. rewrite Ev.
    destruct (CYCLE_POSTRENDER <? c); reflexivity.
  - unfold PPU_run, bind, gets, modify, ret. fold p. fold c. rewrite Ev.
    destruct (CYCLE_POSTRENDER <? c); reflexivity.
Qed.

(** X17: one PPU cycle.  On cycle 241 * 341 of a frame with bit 7 of PPUCTRL
    set the call raises, so the emulation ends with the first NMI.
    Otherwise it returns: the counter is one higher, status bit 7 is set if
    the cycle within the frame was beyond 240 * 341 and cleared if not, and
    nothing else has changed. *)
Theorem PPU_run_step s :
  let p := cpu_ppu s in
  let c := ppu_cycles p mod CYCLES_PER_FRAME in
  if (c =? CYCLE_VBLANK) && truthy (Z.land (ppu_control p) 0x80)
  then exists e, PPU_run s = Raise e
  else PPU_run s = Ok (tt, set_ppu (PPU_after p (CYCLE_POSTRENDER <? c) 1) s).
Proof. exact (PPU_run_cases s). Qed.

Lemma status_bit_again st (b1 b2 : bool) :
  (if b2 then Z.lor (if b1 then Z.lor st 0x80 else Z.land st (Z.lnot 0x80)) 0x80
   else Z.land (if b1 then Z.lor st 0x80 else Z.land st (Z.lnot 0x80)) (Z.lnot 0x80))
  = (if b2 then Z.lor st 0x80 else Z.land st (Z.lnot 0x80)).
Proof.
  destruct b1, b2.
  - rewrite <- Z.lor_assoc. reflexivity.
  - apply Z.bits_inj'. intros m Hm.
    rewrite !Z.land_spec, Z.lor_spec.
    destruct (Z.testbit st m), (Z.testbit 128 m) eqn:E1, (Z.testbit (Z.lnot 128) m) eqn:E2;
      try reflexivity.
    rewrite Z.lnot_spec, E1 in E2 by assumption. discriminate.
  - apply Z.bits_inj'. intros m Hm.
    rewrite !Z.lor_spec, Z.land_spec.
    destruct (Z.testbit st m), (Z.testbit 128 m) eqn:E1, (Z.testbit (Z.lnot 128) m) eqn:E2;
      try reflexivity.
    rewrite Z.lnot_spec, E1 in E2 by assumption. discriminate.
  - rewrite <- Z.land_assoc. reflexivity.
Qed.

(** X18: with bit 7 of PPUCTRL clear, any number n >= 1 of PPU cycles
    returns; the counter is n higher and status bit 7 tells whether the
    last of them was beyond cycle 240 * 341 of its frame. *)
Theorem PPU_run_many n s
  (Hn : (1 <= n)%nat) (Hc : Z.land (ppu_control (cpu_ppu s)) 0x80 = 0) :
  repeat_M n PPU_run s
  = Ok (tt, set_ppu (PPU_after (cpu_ppu s)
                       (CYCLE_POSTRENDER
                          <? (ppu_cycles (cpu_ppu s) + Z.of_nat n - 1) mod CYCLES_PER_FRAME)
                       (Z.of_nat n)) s).
Proof.
  assert (Step : forall s, Z.land (ppu_control (cpu_ppu s)) 0x80 = 0 ->
            PPU_run s = Ok (tt, set_ppu (PPU_after (cpu_ppu s)
                         (CYCLE_POSTRENDER <? ppu_cycles (cpu_ppu s) mod CYCLES_PER_FRAME) 1) s)).
  { intros s1 H1. pose proof (PPU_run_cases s1) as H. cbv zeta in H.
    unfold truthy in H. rewrite H1 in H. cbn [Z.eqb negb] in H.
    rewrite andb_false_r in H. exact H. }
  destruct n as [|n]; [lia|]. clear Hn.
  revert s Hc. induction n as [|n IH]; intros s Hc.
  - cbn [repeat_M]. unfold bind. rewrite (Step s Hc). unfold ret.
    replace (ppu_cycles (cpu_ppu s) + Z.of_nat 1 - 1) with (ppu_cycles (cpu_ppu s)) by lia.
    reflexivity.
  - change (repeat_M (S (S n)) PPU_run) with (PPU_run ;;; repeat_M (S n) PPU_run).
    unfold bind at 1. rewrite (Step s Hc).
    rewrite IH by exact Hc.
    unfold PPU_after. cbn [cpu_ppu set_ppu ppu_control ppu_mask ppu_status ppu_cycles].
    rewrite status_bit_again.
    replace (ppu_cycles (cpu_ppu s) + 1 + Z.of_nat (S n) - 1)
      with (ppu_cycles (cpu_ppu s) + Z.of_nat (S (S n)) - 1) by lia.
    replace (ppu_cycles (cpu_ppu s) + 1 + Z.of_nat (S n))
      with (ppu_cycles (cpu_ppu s) + Z.of_nat (S (S n))) by lia.
    reflexivity.
Qed.

Lemma PPU_run_many_witness :
  repeat_M 3 PPU_run (mkCPU 0xFD 0x8000 0 0 0 0 image_nop INIT_FLAGS PPU_new)
  = Ok (tt, set_ppu (PPU_after PPU_new
                       (CYCLE_POSTRENDER <? (0 + Z.of_nat 3 - 1) mod CYCLES_PER_FRAME)
                       (Z.of_nat 3))
                    (mkCPU 0xFD 0x8000 0 0 0 0 image_nop INIT_FLAGS PPU_new)).
Proof.
  apply (PPU_run_many 3 (mkCPU 0xFD 0x8000 0 0 0 0 image_nop INIT_FLAGS PPU_new)).
  - repeat constructor.
  - reflexivity.
Defined.

(** ** byte_math.py *)

Lemma land_pow2 b k :
  0 <= k -> Z.land b (2 ^ k) = if Z.testbit b k then 2 ^ k else 0.
Proof.
  intros Hk. apply Z.bits_inj'. intros m Hm. rewrite Z.land_spec.
  destruct (Z.eq_dec m k) as [->|Hne].
  - rewrite Z.pow2_bits_true by lia. rewrite andb_true_r.
    destruct (Z.testbit b k); [rewrite Z.pow2_bits_true by lia | rewrite Z.bits_0];
      reflexivity.
  - rewrite Z.pow2_bits_false by lia. rewrite andb_false_r.
    destruct (Z.testbit b k); [rewrite Z.pow2_bits_false by lia | rewrite Z.bits_0];
      reflexivity.
Qed.

Lemma land_lnot_sub b m : Z.land b (Z.lnot m) = b - Z.land b m.
Proof.
  rewrite <- Z.ldiff_land.
  pose proof (Z.sub_nocarry_ldiff b (Z.land b m)) as H.
  rewrite H.
  - apply Z.bits_inj'. intros k Hk.
    rewrite !Z.ldiff_spec, Z.land_spec.
    destruct (Z.testbit b k), (Z.testbit m k); reflexivity.
  - apply Z.bits_inj'. intros k Hk.
    rewrite Z.ldiff_spec, Z.land_spec, Z.bits_0.
    destruct (Z.testbit b k), (Z.testbit m k); reflexivity.
Qed.

(** X14: [signed_byte_to_int] reads the low [n] bits as a two's complement
    number: a value below 2^(n-1) is returned as it is, a value from
    2^(n-1) on is lowered by 2^n; reducing the result modulo 2^n gives the
    argument back. *)
Theorem signed_byte_to_int_spec b n (Hn : 1 <= n) (Hb : 0 <= b < 2 ^ n) :
  signed_byte_to_int b n = (if b <? 2 ^ (n - 1) then b else b - 2 ^ n) /\
  - 2 ^ (n - 1) <= signed_byte_to_int b n < 2 ^ (n - 1) /\
  signed_byte_to_int b n mod 2 ^ n = b.
Proof.
  assert (Hp : 2 ^ n = 2 * 2 ^ (n - 1)).
  { replace n with (1 + (n - 1)) at 1 by lia. rewrite Z.pow_add_r by lia. reflexivity. }
  assert (Hpos : 0 < 2 ^ (n - 1)) by (apply Z.pow_pos_nonneg; lia).
  assert (E : signed_byte_to_int b n = if b <? 2 ^ (n - 1) then b else b - 2 ^ n).
  { unfold signed_byte_to_int. cbv zeta.
    rewrite land_lnot_sub, land_pow2 by lia.
    rewrite Z.testbit_eqb by lia.
    destruct (b <? 2 ^ (n - 1)) eqn:E.
    - apply Z.ltb_lt in E. rewrite Z.div_small by lia.
      change (0 mod 2 =? 1) with false. cbv iota. lia.
    - apply Z.ltb_ge in E.
      replace (b / 2 ^ (n - 1)) with 1 by (apply Z.div_unique with (b - 2 ^ (n - 1)); lia).
      change (1 mod 2 =? 1) with true. cbv iota. lia. }
  rewrite E. split; [reflexivity|]. split.
  - destruct (b <? 2 ^ (n - 1)) eqn:E1; [apply Z.ltb_lt in E1 | apply Z.ltb_ge in E1]; lia.
  - destruct (b <? 2 ^ (n - 1)) eqn:E1.
    + apply Z.mod_small. lia.
    + replace (b - 2 ^ n) with (b + (-1) * 2 ^ n) by lia.
      rewrite Z.mod_add by lia. apply Z.mod_small. lia.
Qed.

Lemma signed_byte_to_int_spec_witness :
  signed_byte_to_int 0xFE 8 = (if 0xFE <? 2 ^ (8 - 1) then 0xFE else 0xFE - 2 ^ 8) /\
  - 2 ^ (8 - 1) <= signed_byte_to_int 0xFE 8 < 2 ^ (8 - 1) /\
  signed_byte_to_int 0xFE 8 mod 2 ^ 8 = 0xFE.
Proof. apply (signed_byte_to_int_spec 0xFE 8); lia. Defined.



(** * main.py: the header and the memory map *)

(** X29: the mapper number main.py computes is 0 for every header, so its
    test for mapper 0 rejects no image; and the PRG data is taken from
    offset 16, or 16 + 8 * 512 when bit 3 of flags 6 is set. *)
Theorem main_header raw6 raw7 (H6 : 0 <= raw6 <= 255) :
  flag_mapper raw6 raw7 = 0 /\
  prg_start raw6 = (if Z.testbit raw6 3 then 4112 else 16).
Proof.
  split.
  - unfold flag_mapper. apply Z.bits_inj'. intros m Hm.
    rewrite Z.land_spec, Z.bits_0.
    destruct (Z.lt_ge_cases m (4 + raw6)) as [H|H].
    + rewrite Z.shiftl_spec_low by assumption. reflexivity.
    + rewrite Z.shiftl_spec, Z.land_spec by lia.
      destruct (Z.lt_ge_cases m 8) as [H8|H8].
      * assert (Hk : 0 <= m - (4 + raw6) <= 3) by lia.
        replace (Z.testbit 240 (m - (4 + raw6))) with false.
        { rewrite andb_false_r. reflexivity. }
        assert (Hc : m - (4 + raw6) = 0 \/ m - (4 + raw6) = 1 \/
                     m - (4 + raw6) = 2 \/ m - (4 + raw6) = 3) by lia.
        destruct Hc as [-> | [-> | [-> | ->]]]; reflexivity.
      * replace (Z.testbit 240 m) with false; [apply andb_false_r|].
        symmetry. change 240 with (Z.land 240 (Z.ones 8)).
        rewrite Z.land_spec, Z.ones_spec_high by lia. apply andb_false_r.
  - unfold prg_start, flag_trainer. change 8 with (2 ^ 3). rewrite land_pow2 by lia.
    destruct (Z.testbit raw6 3); reflexivity.
Qed.

Lemma main_header_witness :
  flag_mapper 0x10 0x40 = 0 /\
  prg_start 0x10 = (if Z.testbit 0x10 3 then 4112 else 16).
Proof. apply (main_header 0x10 0x40). lia. Defined.

Lemma raw_mem_low (PRG : list Z) :
  length (slice_to (repeat 0 (Z.to_nat (0xFFFF + 1))) 0x8000) = Z.to_nat 0x8000.
Proof.
  unfold slice_to. rewrite length_firstn, repeat_length. lia.
Qed.

Lemma nth_raw_mem_low i :
  nth i (slice_to (repeat 0 (Z.to_nat (0xFFFF + 1))) 0x8000) 0 = 0.
Proof.
  unfold slice_to. rewrite nth_firstn. destruct (Nat.ltb _ _); [|reflexivity].
  apply nth_repeat.
Qed.

(** X30: the memory map main.py builds.  With a PRG of 16384 * prg_size bytes
    the array has the 0x10000 cells [Memory] insists on exactly for
    prg_size 1 and 2; it is then zero below 0x8000 and holds PRG from
    0x8000 on, a 16 KiB PRG twice (at 0x8000 and at 0xC000). *)
Theorem main_memory_map prg_size PRG
  (Hlen : Z.of_nat (length PRG) = prg_len prg_size) :
  (Z.of_nat (length (raw_mem_of prg_size PRG)) = 0xFFFF + 1
   <-> prg_size = 1 \/ prg_size = 2) /\
  (prg_size = 1 \/ prg_size = 2 ->
   forall a, 0 <= a <= 0xFFFF ->
     nth (Z.to_nat a) (raw_mem_of prg_size PRG) 0
     = if a <? 0x8000 then 0
       else nth (Z.to_nat ((a - 0x8000) mod prg_len prg_size)) PRG 0).
Proof.
  unfold prg_len in *.
  pose proof (raw_mem_low PRG) as Hl. pose proof nth_raw_mem_low as Hz.
  unfold raw_mem_of. cbv zeta. unfold assign_from.
  set (low := slice_to (repeat 0 (Z.to_nat (0xFFFF + 1))) 0x8000) in *.
  clearbody low. unfold slice_to.
  split.
  - destruct (prg_size =? 1) eqn:E.
    + apply Z.eqb_eq in E. subst prg_size.
      rewrite length_app, length_firstn, length_app, Hl. lia.
    + apply Z.eqb_neq in E. rewrite length_app, Hl. lia.
  - intros Hsz a Ha. destruct Hsz as [-> | ->].
    + change (1 =? 1) with true. cbv iota.
      rewrite firstn_all2 by (rewrite length_app, Hl; lia).
      destruct (a <? 0x8000) eqn:E1; [apply Z.ltb_lt in E1 | apply Z.ltb_ge in E1].
      * rewrite <- app_assoc, app_nth1 by (rewrite Hl; lia). apply Hz.
      * destruct (Z.lt_ge_cases a 0xC000) as [E2|E2].
        -- rewrite app_nth1 by (rewrite length_app, Hl; lia).
           rewrite app_nth2 by (rewrite Hl; lia). rewrite Hl.
           rewrite Z.mod_small by lia. f_equal. lia.
        -- rewrite app_nth2 by (rewrite length_app, Hl; lia).
           rewrite length_app, Hl.
           replace ((a - 32768) mod (16384 * 1)) with (a - 49152)
             by (apply Z.mod_unique with 1; lia).
           f_equal. lia.
    + change (2 =? 1) with false. cbv iota.
      destruct (a <? 0x8000) eqn:E1; [apply Z.ltb_lt in E1 | apply Z.ltb_ge in E1].
      * rewrite app_nth1 by (rewrite Hl; lia). apply Hz.
      * rewrite app_nth2 by (rewrite Hl; lia). rewrite Hl.
        rewrite Z.mod_small by lia. f_equal. lia.
Qed.

Lemma main_memory_map_witness :
  (Z.of_nat (length (raw_mem_of 1 (repeat 0xEA (Z.to_nat 16384)))) = 0xFFFF + 1
   <-> 1 = 1 \/ 1 = 2) /\
  (1 = 1 \/ 1 = 2 ->
   forall a, 0 <= a <= 0xFFFF ->
     nth (Z.to_nat a) (raw_mem_of 1 (repeat 0xEA (Z.to_nat 16384))) 0
     = if a <? 0x8000 then 0
       else nth (Z.to_nat ((a - 0x8000) mod prg_len 1)) (repeat 0xEA (Z.to_nat 16384)) 0).
Proof.
  apply (main_memory_map 1 (repeat 0xEA (Z.to_nat 16384))).
  rewrite repeat_length. reflexivity.
Defined.

